(** * MIDL MCP server: tool handlers, approval gate and cross-chain linking

    A shallow embedding of the TypeScript sources of the MIDL MCP server
    ([tools/actionable.ts], [tools/analytical.ts], [resources/bitcoin.ts],
    [config/midl-config.ts], [config/factory.ts], [server.ts]).

    - Strings are byte strings (the UTF-8 text of the source literals); the
      string operations of JavaScript that the handlers use are written
      out in [Js].
    - Every [await] on a collaborator (wallet connector, Bitcoin and EVM
      endpoints, the human elicitation channel, [fetch]) is an external
      call: a handler is a tree of such calls ([Prog]) and is run against a
      [World] that answers each call with a value or a thrown error.
    - Pure library functions (viem, solc, bitcoinselect, the number
      formatters) are collected in the record [Lib]; they may throw. *)

From stdpp Require Import base strings list pretty.
From Stdlib Require Import ZArith Ascii String Lia.

Local Open Scope Z_scope.
#[local] Set Warnings "-register-all".
Local Open Scope string_scope.

(** ** JavaScript strings and values *)

Module Js.

(** The line feed of the template literals. *)
Definition nl : string := String (ascii_of_nat 10) "".

(** [s.startsWith(p)] *)
Fixpoint startsWith (p s : string) : bool :=
  match p, s with
  | EmptyString, _ => true
  | String a p', String b s' => if Ascii.eqb a b then startsWith p' s' else false
  | String _ _, EmptyString => false
  end.

(** [s.includes(p)] *)
Fixpoint includes (p s : string) : bool :=
  startsWith p s ||
  match s with
  | EmptyString => false
  | String _ s' => includes p s'
  end.

Fixpoint drop (n : nat) (s : string) : string :=
  match n, s with
  | O, _ => s
  | S n', String _ s' => drop n' s'
  | S _, EmptyString => EmptyString
  end.

(** [s.replace(p, r)] with a string pattern: the first occurrence only. *)
Fixpoint replace (p r s : string) : string :=
  if startsWith p s then r +:+ drop (String.length p) s
  else match s with
       | EmptyString => EmptyString
       | String c s' => String c (replace p r s')
       end.

Definition lower_ascii (c : ascii) : ascii :=
  let n := nat_of_ascii c in
  if (65 <=? n)%nat && (n <=? 90)%nat then ascii_of_nat (n + 32) else c.

(** [s.toLowerCase()]; bytes outside A-Z are left as they are. *)
Fixpoint toLowerCase (s : string) : string :=
  match s with
  | EmptyString => EmptyString
  | String c s' => String (lower_ascii c) (toLowerCase s')
  end.

(** [parts.join(sep)] *)
Fixpoint join (sep : string) (parts : list string) : string :=
  match parts with
  | [] => ""
  | [x] => x
  | x :: rest => x +:+ sep +:+ join sep rest
  end.

(** [s.slice(0, n)] on a string, for [0 <= n]. *)
Fixpoint take (n : nat) (s : string) : string :=
  match n, s with
  | O, _ => EmptyString
  | S n', String c s' => String c (take n' s')
  | S _, EmptyString => EmptyString
  end.

(** A value of type [any]. Numbers are integers here. *)
Inductive Value : Type :=
| Undefined
| Null
| Bool (b : bool)
| Number (n : Z)
| Str (s : string)
| Object (fields : list (string * Value)).

(** [!!v] *)
Definition truthy (v : Value) : bool :=
  match v with
  | Undefined | Null => false
  | Bool b => b
  | Number n => negb (Z.eqb n 0)
  | Str s => negb (String.eqb s "")
  | Object _ => true
  end.

Fixpoint assoc {A} (k : string) (l : list (string * A)) : option A :=
  match l with
  | [] => None
  | (k', v) :: l' => if String.eqb k k' then Some v else assoc k l'
  end.

(** [v.k] for a property name [k] that no prototype defines, on a value
    [v] that is neither [undefined] nor [null]. *)
Definition get (v : Value) (k : string) : Value :=
  match v with
  | Object fields => default Undefined (assoc k fields)
  | _ => Undefined
  end.

(** [x || d] on an optional string. *)
Definition or_else (x : option string) (d : string) : string :=
  match x with
  | Some s => if String.eqb s "" then d else s
  | None => d
  end.

(** [`${x}`] on an optional string. *)
Definition show (x : option string) : string := default "undefined" x.

(** A falsy number is [undefined] or [0]. *)
Definition nonzero (x : option Z) : option Z :=
  match x with
  | Some n => if Z.eqb n 0 then None else Some n
  | None => None
  end.

(** A falsy string is [undefined] or [""]. *)
Definition nonempty (x : option string) : option string :=
  match x with
  | Some s => if String.eqb s "" then None else Some s
  | None => None
  end.

End Js.

(** ** Data model *)

(** A thrown value: an [Error] with its [message]. *)
Record Error := mkError { message : string }.

Definition TypeError (msg : string) : Error := mkError msg.

(** What a call gives back: its value, or the error it throws (for an
    [await], the rejection of the promise). *)
Inductive Outcome (A : Type) : Type :=
| Returned (a : A)
| Thrown (e : Error).
Arguments Returned {A} a.
Arguments Thrown {A} e.

Record Account := mkAccount {
  acc_address : string;
  acc_publicKey : string;
  acc_purpose : string;
  acc_addressType : string }.

Record Network := mkNetwork {
  net_id : string;
  net_network : string;
  net_explorerUrl : option string }.

(** [config.getState()]: the connection is kept by the id of its
    connector. *)
Record State := mkState {
  st_connection : option string;
  st_network : option Network;
  st_accounts : option (list Account) }.

(** The second argument of a tool handler; [sendRequest] is present when
    the client supports requests from the server. *)
Record Extra := mkExtra { has_sendRequest : bool }.

(** The [elicitation/create] request of the two gated tools: a form with
    one required boolean property. *)
Record ElicitRequest := mkElicit {
  el_method : string;
  el_mode : string;
  el_message : string;
  el_property : string;
  el_description : string }.

Record FeeRates := mkFeeRates {
  fastestFee : Z;
  halfHourFee : Z;
  hourFee : Z }.

Record UTXO := mkUTXO { utxo_txid : string; utxo_vout : Z; utxo_value : Z }.

Record Target := mkTarget { tgt_address : string; tgt_value : Z }.

Record Recipient := mkRecipient { rcp_address : string; rcp_amount : Z }.

(** The result of [coinSelect]: [inputs] and [outputs] are absent when no
    selection was found. *)
Record Selection := mkSelection {
  sel_inputs : option (list UTXO);
  sel_outputs : option (list Target);
  sel_fee : Z }.

Record Transfer := mkTransfer { tr_receiver : string; tr_amount : Z }.

Record TransferParams := mkTransferParams {
  tp_transfers : list Transfer;
  tp_feeRate : option Z;
  tp_from : option string;
  tp_publish : bool }.

Record BtcTransaction := mkBtcTransaction { tx_id : string; tx_hex : string }.

(** The response of [transferBTC] and of [finalizeBTCTransaction]. *)
Record BtcResponse := mkBtcResponse {
  btc_psbt : string;
  btc_tx : option BtcTransaction }.

Record SignPSBTParams := mkSignPSBT {
  sp_psbt : string;
  sp_signInputs : list (string * list Z);
  sp_publish : bool }.

Record Chain := mkChain { chain_id : Z }.

(** [createPublicClient] and [createWalletClient] over the [http()]
    transport of a chain. *)
Inductive Client : Type :=
| publicClient (chain : Chain)
| walletClient (chain : Chain).

Record EvmTransaction := mkEvmTransaction {
  evm_type : string;
  evm_to : option string;
  evm_data : string;
  evm_value : option Z;
  evm_chainId : option Z }.

Record IntentionMeta := mkMeta { meta_contractName : option string }.

Record TransactionIntention := mkIntention {
  evmTransaction : EvmTransaction;
  meta : option IntentionMeta }.

Inductive SignMessageProtocol : Type := Ecdsa | Bip322.

(** The request of [client.request] and its options. *)
Record RpcRequest := mkRpc {
  rpc_method : string;
  rpc_params : list string * string }.

Record RequestOptions := mkRequestOptions { retryCount : Z }.

Record Receipt := mkReceipt { blockNumber : Z }.

(** One transaction of the address history, as [get-address-transactions]
    reads it. *)
Record AddressTx := mkAddressTx {
  atx_txid : string;
  atx_version : Z;
  atx_vout : list Z;
  atx_confirmed : bool;
  atx_block_height : option Z }.

(** A parsed response body. *)
Inductive Json : Type :=
| JsonTxs (txs : list AddressTx)
| JsonOther (v : Js.Value).

Record FetchInit := mkFetchInit {
  fi_method : string;
  fi_headers : list (string * string);
  fi_body : string }.

(** A [fetch] response; [res_text] and [res_json] are what [res.text()] and
    [res.json()] resolve to. *)
Record Response := mkResponse {
  res_ok : bool;
  res_statusText : string;
  res_text : Outcome string;
  res_json : Outcome Json }.

Record CompileError := mkCompileError {
  severity : string;
  formattedMessage : string }.

Record Artifact := mkArtifact {
  art_abi : list Js.Value;
  art_bytecode : string }.

Record OptimizerSettings := mkOptimizer { opt_enabled : bool; opt_runs : Z }.

(** The standard JSON input of the compiler; [ci_sources] keeps the
    insertion order of the [sources] object. *)
Record CompilerInput := mkCompilerInput {
  ci_language : string;
  ci_sources : list (string * string);
  ci_optimizer : OptimizerSettings;
  ci_evmVersion : string;
  ci_outputSelection : list string }.

(** [JSON.parse] of the compiler output: file name to contract name to
    artifact, in the order of the keys. *)
Record CompilerOutput := mkCompilerOutput {
  out_errors : option (list CompileError);
  out_contracts : option (list (string * list (string * Artifact))) }.

(** The body of the Blockscout verification request. *)
Record VerifyBody := mkVerifyBody {
  vb_compiler_version : string;
  vb_source_code : string;
  vb_is_optimization_enabled : bool;
  vb_optimization_runs : Z;
  vb_contract_name : option string;
  vb_evm_version : option string;
  vb_constructor_args : option string;
  vb_autodetect_constructor_args : bool;
  vb_license_type : string }.

(** What a handler resolves to: one text item, and [isError] when set. *)
Record ToolResult := mkResult { text : string; isError : bool }.

Definition ok (t : string) : ToolResult := mkResult t false.
Definition failure (t : string) : ToolResult := mkResult t true.

(** ** Pure library functions *)

Record Lib := mkLib {
  (* @midl/core *)
  getDefaultAccount : State -> Outcome (option Account);
  (* bitcoinselect *)
  coinSelect : list UTXO -> list Target -> Z -> Outcome Selection;
  (* bitcoinjs-lib: the decoded PSBT, rendered by JSON.stringify *)
  decodePsbt : string -> string -> Outcome string;
  (* @midl/executor *)
  getEVMFromBitcoinNetwork : option Network -> Outcome Chain;
  getEVMAddress : option Account -> option Network -> Outcome string;
  (* viem *)
  encodeFunctionData : list Js.Value -> string -> list Js.Value -> Outcome string;
  encodeDeployData : list Js.Value -> list Js.Value -> string -> Outcome string;
  keccak256 : string -> Outcome string;
  getContractAddress : string -> Z -> Outcome string;
  (* solc *)
  solc_compile : CompilerInput -> Outcome CompilerOutput;
  solc_version : Outcome string;
  (* JSON.stringify of the verification body *)
  stringify : VerifyBody -> string;
  (* utils/formatters.ts: floating point and locale formatting *)
  satoshisToBtc : Z -> string;
  toLocaleString : Z -> string;
  (* process.env.MIDL_RPC_URL *)
  env_MIDL_RPC_URL : option string }.

(** [formatBalance] of utils/formatters.ts *)
Definition formatBalance (lib : Lib) (satoshis : Z) : string :=
  satoshisToBtc lib satoshis +:+ " BTC (" +:+ toLocaleString lib satoshis +:+ " sats)".

(** ** External calls *)

Inductive Call : Type :=
(* the human elicitation channel: extra.sendRequest *)
| sendRequest (req : ElicitRequest)
(* @midl/core *)
| getBalance (address : string)
| getFeeRate
| getUTXOs (address : string)
| transferBTC (params : TransferParams)
| signPSBT (params : SignPSBTParams)
| broadcastTransaction (txHex : string)
(* config.getState().provider *)
| getLatestBlockHeight (network : option Network)
| provider_getFeeRate (network : option Network)
(* @midl/executor *)
| addTxIntention (intention : TransactionIntention)
| finalizeBTCTransaction (intentions : list TransactionIntention)
    (client : Client) (feeRate : option Z)
| signIntention (client : Client) (intention : TransactionIntention)
    (intentions : list TransactionIntention) (txId : string)
    (protocol : SignMessageProtocol)
(* viem *)
| getTransactionCount (client : Client) (address : string)
| request (client : Client) (req : RpcRequest) (options : RequestOptions)
| waitForTransactionReceipt (client : Client) (hash : string) (timeout : Z)
(* global *)
| fetch (url : string) (init : option FetchInit).

(** The type of the value a call resolves to. *)
Definition resp (c : Call) : Type :=
  match c with
  | sendRequest _ => Js.Value
  | getBalance _ => Z
  | getFeeRate => FeeRates
  | getUTXOs _ => list UTXO
  | transferBTC _ => BtcResponse
  | signPSBT _ => string
  | broadcastTransaction _ => string
  | getLatestBlockHeight _ => Z
  | provider_getFeeRate _ => FeeRates
  | addTxIntention _ => TransactionIntention
  | finalizeBTCTransaction _ _ _ => BtcResponse
  | signIntention _ _ _ _ _ => string
  | getTransactionCount _ _ => Z
  | request _ _ _ => list string
  | waitForTransactionReceipt _ _ _ => Receipt
  | fetch _ _ => Response
  end.

(** An [async] function body: it returns, throws, or awaits a call and
    goes on with its outcome. [Spin] stands for a body that is still
    running when the recursion budget of the model is used up. *)
Inductive Prog (A : Type) : Type :=
| Ret (a : A)
| Throw (e : Error)
| Spin
| Vis (c : Call) (k : Outcome (resp c) -> Prog A).
Arguments Ret {A} a.
Arguments Throw {A} e.
Arguments Spin {A}.
Arguments Vis {A} c k.

Fixpoint bind {A B} (p : Prog A) (f : A -> Prog B) : Prog B :=
  match p with
  | Ret a => f a
  | Throw e => Throw e
  | Spin => Spin
  | Vis c k => Vis c (fun o => bind (k o) f)
  end.

Notation "x <- p ;; k" := (bind p (fun x => k))
  (at level 100, p at next level, right associativity,
   format "'[v' x  <-  p  ;;  '/' k ']'").

(** [try { p } catch (error) { h error }] *)
Fixpoint try_catch {A} (p : Prog A) (h : Error -> Prog A) : Prog A :=
  match p with
  | Ret a => Ret a
  | Throw e => h e
  | Spin => Spin
  | Vis c k => Vis c (fun o => try_catch (k o) h)
  end.

(** [await c] *)
Definition await (c : Call) : Prog (resp c) :=
  Vis c (fun o => match o with Returned a => Ret a | Thrown e => Throw e end).

(** A library call that may throw. *)
Definition lift {A} (o : Outcome A) : Prog A :=
  match o with Returned a => Ret a | Thrown e => Throw e end.

(** ** Running a handler *)

(** One entry of the trace: the call and its outcome. *)
Record Event := Ev { ev_call : Call; ev_outcome : Outcome (resp ev_call) }.

(** How a handler ends: it resolves, it rejects, or the model ran out of
    recursion budget. *)
Inductive Completion (A : Type) : Type :=
| Resolves (a : A)
| Rejects (e : Error)
| Pending.
Arguments Resolves {A} a.
Arguments Rejects {A} e.
Arguments Pending {A}.

(** The world answers the [i]-th call of a run. *)
Definition World : Type := nat -> forall c : Call, Outcome (resp c).

Fixpoint run_from {A} (w : World) (i : nat) (p : Prog A) : list Event * Completion A :=
  match p with
  | Ret a => ([], Resolves a)
  | Throw e => ([], Rejects e)
  | Spin => ([], Pending)
  | Vis c k =>
      let o := w i c in
      let '(t, r) := run_from w (S i) (k o) in
      (Ev c o :: t, r)
  end.

Definition run {A} (w : World) (p : Prog A) : list Event * Completion A :=
  run_from w 0%nat p.

Definition trace {A} (w : World) (p : Prog A) : list Event := fst (run w p).
Definition result {A} (w : World) (p : Prog A) : Completion A := snd (run w p).

(** ** config/factory.ts: the network of [createMidlConfigFromEnv] *)

(** [process.env.MIDL_NETWORK || "testnet"] *)
Definition networkId (MIDL_NETWORK : option string) : string :=
  Js.or_else MIDL_NETWORK "testnet".

Definition bitcoinNetwork (networkId : string) : string :=
  if String.eqb networkId "mainnet" then "bitcoin"
  else if String.eqb networkId "regtest" then "regtest"
  else "testnet".

Definition explorerUrl (networkId : string) : string :=
  if String.eqb networkId "regtest" then "https://mempool.regtest.midl.xyz/tx/"
  else if String.eqb networkId "testnet4" then "https://mempool.space/testnet4/tx/"
  else if String.eqb networkId "signet" then "https://mempool.space/signet/tx/"
  else "https://mempool.space/"
       +:+ (if String.eqb networkId "mainnet" then "" else networkId +:+ "/")
       +:+ "tx/".

(** The single entry of [networks] handed to [createConfig]. *)
Definition factory_network (MIDL_NETWORK : option string) : Network :=
  let networkId := networkId MIDL_NETWORK in
  mkNetwork networkId (bitcoinNetwork networkId) (Some (explorerUrl networkId)).

(** The state of the config the factory returns in address mode, after
    [config.setState]: [createConfig] takes [networks[0]] as the network. *)
Definition factory_state (MIDL_NETWORK : option string) (address publicKey : string) : State :=
  mkState (Some "server-connector")
          (Some (factory_network MIDL_NETWORK))
          (Some [mkAccount address publicKey "ordinals" "p2tr";
                 mkAccount address publicKey "payment" "p2tr"]).

(** ** config/midl-config.ts *)

(** [networkName.includes("testnet") || networkName.includes("regtest")] *)
Definition isTestnet (networkName : string) : bool :=
  Js.includes "testnet" networkName || Js.includes "regtest" networkName.

Definition validateConfig (state : State) : Outcome unit :=
  match st_connection state with
  | None => Thrown (mkError "MIDL MCP Server requires a pre-connected wallet configuration.")
  | Some _ =>
      match st_network state with
      | None => Thrown (mkError "No network configured in MIDL state.")
      | Some network =>
          let networkName := Js.toLowerCase (net_network network) in
          if negb (isTestnet networkName)
          then Thrown (mkError ("MIDL MCP Server is currently restricted to testnet/regtest. Detected network: " +:+ networkName))
          else Returned tt
      end
  end.

Record MidlConfigWrapper := mkWrapper { getConfig : State }.

(** [new MidlConfigWrapper(config)] *)
Definition new_MidlConfigWrapper (config : State) : Outcome MidlConfigWrapper :=
  match validateConfig config with
  | Returned _ => Returned (mkWrapper config)
  | Thrown e => Thrown e
  end.

Definition getNetworkName (w : MidlConfigWrapper) : option string :=
  net_network <$> st_network (getConfig w).

(** ** Reading the config state in a handler *)

(** [config.getState().network] where a field of it is read: the read
    throws when the network is absent. *)
Definition the_network (st : State) : Prog Network :=
  match st_network st with
  | Some n => Ret n
  | None => Throw (TypeError "Cannot read properties of undefined")
  end.

(** [from ? state.accounts?.find(a => a.address === from) : getDefaultAccount(config)] *)
Definition find_account (lib : Lib) (st : State) (from : option string)
  : Outcome (option Account) :=
  match Js.nonempty from with
  | Some from =>
      Returned (match st_accounts st with
                | Some accounts => List.find (fun a => String.eqb (acc_address a) from) accounts
                | None => None
                end)
  | None => getDefaultAccount lib st
  end.

(** ** tools/analytical.ts *)

Definition get_wallet_balance (lib : Lib) (st : State) (address : option string)
  : Prog ToolResult :=
  targetAddress <- match Js.nonempty address with
                  | Some a => Ret (Some a)
                  | None => account <- lift (getDefaultAccount lib st);;
                            Ret (acc_address <$> account)
                  end;;
  match Js.nonempty targetAddress with
  | None => Ret (failure "Error: No address provided and no account connected.")
  | Some targetAddress =>
      try_catch
        (balanceSats <- await (getBalance targetAddress);;
         Ret (ok ("Balance for " +:+ targetAddress +:+ ": " +:+ formatBalance lib balanceSats)))
        (fun error => Ret (failure ("Error fetching balance: " +:+ message error)))
  end.

Definition estimate_fee_text (lib : Lib) (fee currentFeeRate : Z) (inputs outputs : nat) : string :=
  "Estimated Fee: " +:+ pretty fee +:+ " satoshis (" +:+ satoshisToBtc lib fee +:+ " BTC)" +:+ Js.nl
  +:+ "Fee Rate: " +:+ pretty currentFeeRate +:+ " sat/vB" +:+ Js.nl
  +:+ "Inputs: " +:+ pretty inputs +:+ Js.nl
  +:+ "Outputs: " +:+ pretty outputs.

Definition insufficient_funds : ToolResult :=
  failure "Error: Insufficient funds or no suitable UTXOs found for this transfer.".

(** No [try] surrounds this body. *)
Definition estimate_btc_transfer_fee (lib : Lib) (st : State)
    (recipients : list Recipient) (feeRate : option Z) (from : option string)
  : Prog ToolResult :=
  account <- lift (find_account lib st from);;
  match account with
  | None => Ret (failure "Error: No account found for the specified address.")
  | Some account =>
      currentFeeRate <- match Js.nonzero feeRate with
                       | Some feeRate => Ret feeRate
                       | None => fees <- await getFeeRate;; Ret (hourFee fees)
                       end;;
      utxos <- await (getUTXOs (acc_address account));;
      let targets := List.map (fun r => mkTarget (rcp_address r) (rcp_amount r)) recipients in
      selected <- lift (coinSelect lib utxos targets currentFeeRate);;
      match sel_inputs selected, sel_outputs selected with
      | Some inputs, Some outputs =>
          Ret (ok (estimate_fee_text lib (sel_fee selected) currentFeeRate
                     (List.length inputs) (List.length outputs)))
      | _, _ => Ret insufficient_funds
      end
  end.

(** [networks[name] || networks.testnet] of bitcoinjs-lib, by name. *)
Definition psbt_network (name : string) : string :=
  if String.eqb name "bitcoin" || String.eqb name "testnet" || String.eqb name "regtest"
  then name else "testnet".

Definition decode_psbt (lib : Lib) (st : State) (psbtBase64 : string) : Prog ToolResult :=
  try_catch
    (network <- the_network st;;
     data <- lift (decodePsbt lib psbtBase64 (psbt_network (net_network network)));;
     Ret (ok data))
    (fun error => Ret (failure ("Error decoding PSBT: " +:+ message error))).

Definition validate_bitcoin_address (st : State) (address : string) : Prog ToolResult :=
  network <- the_network st;;
  let networkName := net_network network in
  let isValid := (25 <? String.length address)%nat in
  Ret (ok ("Address: " +:+ address +:+ Js.nl +:+ "Network: " +:+ networkName +:+ Js.nl
           +:+ "Valid: " +:+ (if isValid then "Likely Valid" else "Invalid"))).

(** [txs.slice(0, limit)] *)
Definition slice0 {A} (limit : Z) (l : list A) : list A :=
  if (0 <=? limit)%Z then List.firstn (Z.to_nat limit) l
  else List.firstn (Z.to_nat (Z.of_nat (List.length l) + limit)) l.

Definition tx_value (tx : AddressTx) : Z :=
  List.fold_left (fun acc v => acc + v) (atx_vout tx) 0.

Definition format_tx (lib : Lib) (tx : AddressTx) : string :=
  "- ID: " +:+ atx_txid tx +:+ Js.nl
  +:+ "  Value: " +:+ satoshisToBtc lib (tx_value tx) +:+ " BTC" +:+ Js.nl
  +:+ "  Status: " +:+ (if atx_confirmed tx then "Confirmed" else "Unconfirmed")
  +:+ " (Block " +:+ match Js.nonzero (atx_block_height tx) with
                     | Some h => pretty h
                     | None => "N/A"
                     end +:+ ")".

Definition get_address_transactions (lib : Lib) (st : State) (address : string) (limit : Z)
  : Prog ToolResult :=
  try_catch
    (let rpcUrl := Js.or_else (env_MIDL_RPC_URL lib) "https://mempool.regtest.midl.xyz" in
     let url := rpcUrl +:+ "/api/address/" +:+ address +:+ "/txs" in
     res <- await (fetch url None);;
     if negb (res_ok res)
     then Throw (mkError ("Failed to fetch transactions: " +:+ res_statusText res))
     else
       body <- lift (res_json res);;
       match body with
       | JsonTxs all =>
           let txs := slice0 limit all in
           Ret (ok ("Recent Transactions for " +:+ address +:+ ":" +:+ Js.nl +:+ Js.nl
                    +:+ Js.join (Js.nl +:+ Js.nl) (List.map (format_tx lib) txs)))
       | JsonOther _ => Throw (TypeError "(intermediate value).slice is not a function")
       end)
    (fun error => Ret (failure ("Error fetching transactions: " +:+ message error))).

Definition get_blockchain_info (st : State) : Prog ToolResult :=
  try_catch
    (height <- await (getLatestBlockHeight (st_network st));;
     fees <- await (provider_getFeeRate (st_network st));;
     network <- the_network st;;
     Ret (ok ("Network: " +:+ net_id network +:+ Js.nl
              +:+ "Block Height: " +:+ pretty height +:+ Js.nl +:+ Js.nl
              +:+ "Recommended Fees (sat/vB):" +:+ Js.nl
              +:+ "- Fast: " +:+ pretty (fastestFee fees) +:+ Js.nl
              +:+ "- Half Hour: " +:+ pretty (halfHourFee fees) +:+ Js.nl
              +:+ "- Hour: " +:+ pretty (hourFee fees))))
    (fun error => Ret (failure ("Error fetching blockchain info: " +:+ message error))).

(** ** tools/actionable.ts *)

(** The helper that calls the [eth_sendBTCTransactions] RPC method. *)
Definition sendBTCTransactions (client : Client)
    (serializedTransactions : list string) (btcTransaction : string)
  : Prog (list string) :=
  await (request client
           (mkRpc "eth_sendBTCTransactions" (serializedTransactions, btcTransaction))
           (mkRequestOptions 0)).

Definition prepare_btc_transfer (st : State)
    (recipients : list Recipient) (feeRate : option Z) (from : option string)
  : Prog ToolResult :=
  try_catch
    (let transfers := List.map (fun r => mkTransfer (rcp_address r) (rcp_amount r)) recipients in
     response <- await (transferBTC (mkTransferParams transfers feeRate from false));;
     match btc_tx response with
     | None => Throw (TypeError "Cannot read properties of undefined (reading 'id')")
     | Some tx =>
         Ret (ok ("PSBT Prepared successfully." +:+ Js.nl +:+ Js.nl
                  +:+ "PSBT (Base64):" +:+ Js.nl +:+ btc_psbt response +:+ Js.nl +:+ Js.nl
                  +:+ "Transaction ID: " +:+ tx_id tx +:+ Js.nl +:+ Js.nl
                  +:+ "Please use 'decode-psbt' to verify details before signing."))
     end)
    (fun error => Ret (failure ("Error preparing transfer: " +:+ message error))).

(** [extra?.sendRequest] *)
Definition can_elicit (extra : option Extra) : bool :=
  match extra with
  | Some e => has_sendRequest e
  | None => false
  end.

Definition sign_elicitation : ElicitRequest :=
  mkElicit "elicitation/create" "form"
    "Please confirm that you want to SIGN this Bitcoin transaction."
    "approved" "I approve this signature request".

Definition broadcast_elicitation : ElicitRequest :=
  mkElicit "elicitation/create" "form"
    "CRITICAL: You are about to BROADCAST a transaction to the Bitcoin Network. This action is irreversible."
    "confirm" "I understand and wish to broadcast this transaction".

(** [!confirmed || !confirmed.field] *)
Definition declined (confirmed : Js.Value) (field : string) : bool :=
  negb (Js.truthy confirmed) || negb (Js.truthy (Js.get confirmed field)).

Definition request_psbt_signature (lib : Lib) (st : State)
    (psbt : string) (address : option string) (extra : option Extra)
  : Prog ToolResult :=
  try_catch
    (if can_elicit extra then
       confirmed <- await (sendRequest sign_elicitation);;
       if declined confirmed "approved"
       then Ret (failure "Signature request declined by user.")
       else
         account <- lift (find_account lib st address);;
         match account with
         | None => Throw (mkError "No account found for signing.")
         | Some account =>
             signedRes <- await (signPSBT (mkSignPSBT psbt [(acc_address account, [0])] false));;
             Ret (ok ("PSBT signed successfully." +:+ Js.nl +:+ Js.nl
                      +:+ "Signed PSBT (Base64):" +:+ Js.nl +:+ signedRes))
         end
     else Ret (failure "Error: Human elicitation required for signing but not supported by client."))
    (fun error => Ret (failure ("Error signing PSBT: " +:+ message error))).

Definition request_transaction_broadcast (st : State)
    (txHex : string) (extra : option Extra)
  : Prog ToolResult :=
  try_catch
    (if can_elicit extra then
       confirmed <- await (sendRequest broadcast_elicitation);;
       if declined confirmed "confirm"
       then Ret (failure "Broadcast cancelled by user.")
       else
         txId <- await (broadcastTransaction txHex);;
         network <- the_network st;;
         let explorerUrl := net_explorerUrl network in
         Ret (ok ("Transaction broadcasted successfully!" +:+ Js.nl +:+ Js.nl
                  +:+ "Transaction ID: " +:+ txId +:+ Js.nl
                  +:+ "View on Explorer: " +:+ Js.show explorerUrl +:+ txId))
     else Ret (failure "Error: Human elicitation required for broadcasting but not supported by client."))
    (fun error => Ret (failure ("Error broadcasting transaction: " +:+ message error))).

(** The check mark of the success texts (U+2705 in UTF-8). *)
Definition check_mark : string :=
  String (ascii_of_nat 226) (String (ascii_of_nat 156) (String (ascii_of_nat 133) "")).

(** The warning sign of the verification notes (U+26A0 U+FE0F in UTF-8). *)
Definition warning_sign : string :=
  String (ascii_of_nat 226) (String (ascii_of_nat 154) (String (ascii_of_nat 160)
    (String (ascii_of_nat 239) (String (ascii_of_nat 184) (String (ascii_of_nat 143) ""))))).

(** The standalone broadcast tool: no elicitation. *)
Definition broadcast_transaction (st : State) (txHex : string) : Prog ToolResult :=
  try_catch
    (txId <- await (broadcastTransaction txHex);;
     let explorerUrl :=
       Js.or_else (match st_network st with
                   | Some network => net_explorerUrl network
                   | None => None
                   end) "" in
     Ret (ok (check_mark +:+ " Transaction broadcasted successfully!" +:+ Js.nl +:+ Js.nl
              +:+ "Transaction ID: " +:+ txId +:+ Js.nl
              +:+ "Explorer: " +:+ explorerUrl +:+ txId)))
    (fun error => Ret (failure ("Error broadcasting: " +:+ message error))).

(** [if (!data.startsWith("0x")) data = `0x${data}`] *)
Definition with_0x (bytecode : string) : string :=
  if Js.startsWith "0x" bytecode then bytecode else "0x" +:+ bytecode.

Definition deploy_prepared_text (predictedAddress evmAddress psbt networkId : string) : string :=
  "Contract deployment PSBT prepared successfully." +:+ Js.nl +:+ Js.nl
  +:+ "Predicted Contract Address: " +:+ predictedAddress +:+ Js.nl
  +:+ "Deployer EVM Address: " +:+ evmAddress +:+ Js.nl +:+ Js.nl
  +:+ "PSBT (Base64):" +:+ Js.nl +:+ psbt +:+ Js.nl +:+ Js.nl
  +:+ "This transaction anchors a contract deployment on the MIDL EVM chain (" +:+ networkId +:+ ")." +:+ Js.nl
  +:+ "Please use 'request-psbt-signature' and then 'request-transaction-broadcast' to complete the deployment.".

(** [getEVMAddress(getDefaultAccount(config), network)] *)
Definition default_evm_address (lib : Lib) (st : State) : Prog string :=
  account <- lift (getDefaultAccount lib st);;
  lift (getEVMAddress lib account (st_network st)).

Definition prepare_contract_deploy (lib : Lib) (st : State)
    (bytecode : string) (args abi : option (list Js.Value)) (feeRate : option Z)
  : Prog ToolResult :=
  try_catch
    (evmChain <- lift (getEVMFromBitcoinNetwork lib (st_network st));;
     let publicClient := publicClient evmChain in
     let data := with_0x bytecode in
     data <- match args with
             | Some (_ :: _ as args) =>
                 match abi with
                 | None => Throw (mkError "ABI is required when constructor arguments are provided.")
                 | Some abi => lift (encodeDeployData lib abi args data)
                 end
             | _ => Ret data
             end;;
     intention <- await (addTxIntention
                           (mkIntention (mkEvmTransaction "btc" None data None None) None));;
     btcTx <- await (finalizeBTCTransaction [intention] publicClient (Js.nonzero feeRate));;
     evmAddress <- default_evm_address lib st;;
     nonce <- await (getTransactionCount publicClient evmAddress);;
     predictedAddress <- lift (getContractAddress lib evmAddress nonce);;
     network <- the_network st;;
     Ret (ok (deploy_prepared_text predictedAddress evmAddress (btc_psbt btcTx) (net_id network))))
    (fun error => Ret (failure ("Error preparing contract deployment: " +:+ message error))).

(** [btcTx.tx?.id || ""] and [btcTx.tx?.hex || ""] *)
Definition btcTxId (btcTx : BtcResponse) : string :=
  Js.or_else (tx_id <$> btc_tx btcTx) "".
Definition btcTxHex (btcTx : BtcResponse) : string :=
  Js.or_else (tx_hex <$> btc_tx btcTx) "".

(** The bounded receipt poll of [call-contract] and
    [deploy-contract-source]: a failure of the wait is caught and noted. *)
Definition submitted_note : string :=
  Js.nl +:+ "Note: Transaction submitted, waiting for confirmation...".

Definition wait_for_receipt (client : Client) (evmTxHash : string) (confirmed : string)
  : Prog string :=
  try_catch
    (receipt <- await (waitForTransactionReceipt client evmTxHash 60000);;
     Ret (Js.nl +:+ confirmed +:+ pretty (blockNumber receipt)))
    (fun _ => Ret submitted_note).

Definition blockscoutBaseUrl (network : Network) : string :=
  if String.eqb (net_id network) "regtest"
  then "https://blockscout.regtest.midl.xyz"
  else "https://blockscout.midl.xyz".

Definition call_contract_text (contractAddress functionName btcTxId evmTxHash receiptInfo blockscoutUrl : string) : string :=
  check_mark +:+ " Contract call executed successfully!" +:+ Js.nl +:+ Js.nl
  +:+ "Contract: " +:+ contractAddress +:+ Js.nl
  +:+ "Function: " +:+ functionName +:+ Js.nl
  +:+ "BTC Transaction ID: " +:+ btcTxId +:+ Js.nl
  +:+ "EVM Transaction Hash: " +:+ evmTxHash +:+ receiptInfo +:+ Js.nl +:+ Js.nl
  +:+ "View on Blockscout: " +:+ blockscoutUrl.

Definition call_contract (lib : Lib) (st : State)
    (contractAddress : string) (abi : list Js.Value) (functionName : string)
    (args : option (list Js.Value)) (value feeRate : option Z)
  : Prog ToolResult :=
  try_catch
    (evmChain <- lift (getEVMFromBitcoinNetwork lib (st_network st));;
     data <- lift (encodeFunctionData lib abi functionName (default [] args));;
     intention <- await (addTxIntention
                           (mkIntention
                              (mkEvmTransaction "btc" (Some contractAddress) data
                                 (Js.nonzero value) (Some (chain_id evmChain)))
                              None));;
     let walletClient := walletClient evmChain in
     (* 1. Finalize the BTC transaction *)
     btcTx <- await (finalizeBTCTransaction [intention] walletClient (Js.nonzero feeRate));;
     let btcTxId := btcTxId btcTx in
     let btcTxHex := btcTxHex btcTx in
     (* 2. Sign the EVM intention with the BTC txId *)
     signedEvmTx <- await (signIntention walletClient intention [intention] btcTxId Bip322);;
     evmTxHash <- lift (keccak256 lib signedEvmTx);;
     (* 3. Send both transactions to the MIDL network *)
     _ <- sendBTCTransactions walletClient [signedEvmTx] btcTxHex;;
     (* 4. Wait for confirmation *)
     receiptInfo <- wait_for_receipt walletClient evmTxHash "Confirmed at block: ";;
     network <- the_network st;;
     let blockscoutUrl := blockscoutBaseUrl network +:+ "/tx/" +:+ evmTxHash in
     Ret (ok (call_contract_text contractAddress functionName btcTxId evmTxHash
                receiptInfo blockscoutUrl)))
    (fun error => Ret (failure ("Error calling contract: " +:+ message error))).

(** *** Import resolution *)

(** The characters of the class [\s] of a JavaScript pattern, in UTF-8:
    tab, line feed, vertical tab, form feed, carriage return, space,
    U+00A0, U+1680, U+2000 to U+200A, U+2028, U+2029, U+202F, U+205F,
    U+3000 and U+FEFF. *)
Definition white_space : list string :=
  let one (a : ascii) := String a "" in
  let two (a b : ascii) := String a (String b "") in
  let three (a b c : ascii) := String a (String b (String c "")) in
  [one "009"%char; one "010"%char; one "011"%char; one "012"%char; one "013"%char;
   one "032"%char;
   two "194"%char "160"%char;
   three "225"%char "154"%char "128"%char;
   three "226"%char "128"%char "128"%char; three "226"%char "128"%char "129"%char;
   three "226"%char "128"%char "130"%char; three "226"%char "128"%char "131"%char;
   three "226"%char "128"%char "132"%char; three "226"%char "128"%char "133"%char;
   three "226"%char "128"%char "134"%char; three "226"%char "128"%char "135"%char;
   three "226"%char "128"%char "136"%char; three "226"%char "128"%char "137"%char;
   three "226"%char "128"%char "138"%char;
   three "226"%char "128"%char "168"%char; three "226"%char "128"%char "169"%char;
   three "226"%char "128"%char "175"%char;
   three "226"%char "129"%char "159"%char;
   three "227"%char "128"%char "128"%char;
   three "239"%char "187"%char "191"%char].

(** The white-space character at the head of [s], if there is one. *)
Definition space_at (s : string) : option string :=
  List.find (fun space => Js.startsWith space s) white_space.

(** The longest prefix of white-space characters, and the rest; [skip]
    bytes of a character are still to be passed. *)
Fixpoint span_spaces_from (skip : nat) (s : string) : string * string :=
  match s with
  | EmptyString => (EmptyString, EmptyString)
  | String c s' =>
      match skip with
      | S n => let '(a, b) := span_spaces_from n s' in (String c a, b)
      | O =>
          match space_at s with
          | Some space =>
              let '(a, b) := span_spaces_from (String.length space - 1) s' in (String c a, b)
          | None => (EmptyString, s)
          end
      end
  end.

Definition span_spaces (s : string) : string * string := span_spaces_from 0 s.

(** The quote class of the import pattern: a double or a single quote. *)
Definition is_quote (c : ascii) : bool :=
  Ascii.eqb c (ascii_of_nat 34) || Ascii.eqb c (ascii_of_nat 39).

(** The longest prefix of bytes that satisfy [f], and the rest. *)
Fixpoint span (f : ascii -> bool) (s : string) : string * string :=
  match s with
  | EmptyString => (EmptyString, EmptyString)
  | String c s' =>
      if f c
      then let '(a, b) := span f s' in (String c a, b)
      else (EmptyString, s)
  end.

(** A match of the import pattern at the head of [s]: the word import, one
    or more white-space characters, a quote, one or more bytes that are not
    quotes (the captured path), a quote. The result is the path and the
    length of the match. Both repetitions are followed by a byte outside
    their class, so the greedy match is the only one. *)
Definition match_import (s : string) : option (string * nat) :=
  if Js.startsWith "import" s then
    let '(ws, s2) := span_spaces (Js.drop 6 s) in
    match ws, s2 with
    | String _ _, String q s3 =>
        if is_quote q then
          let '(path, s4) := span (fun c => negb (is_quote c)) s3 in
          match path, s4 with
          | String _ _, String _ _ =>
              Some (path, (6 + String.length ws + 1 + String.length path + 1)%nat)
          | _, _ => None
          end
        else None
    | _, _ => None
    end
  else None.

(** The captures of the successive [importRegex.exec(content)]: the search
    goes on from the end of the last match; [skip] bytes of a match are
    still to be passed. *)
Fixpoint import_scan (skip : nat) (s : string) : list string :=
  match s with
  | EmptyString => []
  | String _ s' =>
      match skip with
      | S n => import_scan n s'
      | O =>
          match match_import s with
          | Some (path, len) => path :: import_scan (len - 1) s'
          | None => import_scan 0 s'
          end
      end
  end.

Definition imports_of (content : string) : list string := import_scan 0 content.

(** The [sources] object: path to content, in insertion order. *)
Definition Sources : Type := list (string * string).

(** The property names every object inherits from [Object.prototype]. *)
Definition proto_names : list string :=
  ["constructor"; "__defineGetter__"; "__defineSetter__"; "hasOwnProperty";
   "__lookupGetter__"; "__lookupSetter__"; "isPrototypeOf";
   "propertyIsEnumerable"; "toString"; "valueOf"; "__proto__"; "toLocaleString"].

Definition is_proto_name (k : string) : bool :=
  List.existsb (String.eqb k) proto_names.

(** [!!sources[importPath]] *)
Definition sources_has (sources : Sources) (importPath : string) : bool :=
  match Js.assoc importPath sources with
  | Some _ => true
  | None => is_proto_name importPath
  end.

(** [sources[importPath] = { content }] for a path that is not a key yet. *)
Definition sources_set (sources : Sources) (importPath content : string) : Sources :=
  (sources ++ [(importPath, content)])%list.

Definition openzeppelin_raw : string :=
  "https://raw.githubusercontent.com/OpenZeppelin/openzeppelin-contracts/master/".

Definition import_url (importPath : string) : option string :=
  if Js.startsWith "@openzeppelin/" importPath
  then Some (openzeppelin_raw +:+ Js.replace "@openzeppelin/" "" importPath)
  else None.

(** The [while] loop of [resolveImports] over the matches of one content;
    [resolve] is the recursive call. *)
Fixpoint resolve_loop (resolve : string -> Sources -> Prog Sources)
    (paths : list string) (sources : Sources) : Prog Sources :=
  match paths with
  | [] => Ret sources
  | importPath :: rest =>
      if negb (String.eqb importPath "") && negb (sources_has sources importPath) then
        match import_url importPath with
        | None => resolve_loop resolve rest sources
        | Some url =>
            res <- await (fetch url None);;
            if res_ok res then
              importedSource <- lift (res_text res);;
              sources <- resolve importedSource (sources_set sources importPath importedSource);;
              resolve_loop resolve rest sources
            else resolve_loop resolve rest sources
        end
      else resolve_loop resolve rest sources
  end.

(** [resolveImports(content)], with the [sources] object passed along. The
    source recurses as deep as the fetched files import one another;
    [depth] is the recursion budget of the model. *)
Fixpoint resolveImports (depth : nat) (content : string) (sources : Sources) : Prog Sources :=
  match depth with
  | O => Spin
  | S depth' => resolve_loop (resolveImports depth') (imports_of content) sources
  end.

(** The flattened source: every resolved file in front of what precedes. *)
Definition flatten (sourceCode : string) (sources : Sources) : string :=
  List.fold_left
    (fun flattenedSource '(path, content) =>
       if negb (String.eqb path "Contract.sol")
       then "// File: " +:+ path +:+ Js.nl +:+ content +:+ Js.nl +:+ Js.nl +:+ flattenedSource
       else flattenedSource)
    sources sourceCode.

(** [`v${solc.version().replace(".Emscripten.clang", "")}`] *)
Definition bundled_compiler_version (lib : Lib) : Prog string :=
  v <- lift (solc_version lib);;
  Ret ("v" +:+ Js.replace ".Emscripten.clang" "" v).

Definition verification_url (blockscoutBaseUrl address : string) : string :=
  blockscoutBaseUrl +:+ "/api/v2/smart-contracts/" +:+ address
  +:+ "/verification/via/flattened-code".

Definition post_json (body : string) : option FetchInit :=
  Some (mkFetchInit "POST" [("Content-Type", "application/json")] body).

(** *** Compilation and deployment *)

Definition compiler_input (sources : Sources) : CompilerInput :=
  mkCompilerInput "Solidity" sources (mkOptimizer false 200) "cancun"
    ["abi"; "evm.bytecode"; "metadata"].

(** [output.errors.filter(e => e.severity === 'error')] *)
Definition fatal_errors (output : CompilerOutput) : list CompileError :=
  match out_errors output with
  | Some errors => List.filter (fun e => String.eqb (severity e) "error") errors
  | None => []
  end.

(** [Object.values(output.contracts)], which throws on an absent object. *)
Definition contracts_values (output : CompilerOutput)
  : Prog (list (list (string * Artifact))) :=
  match out_contracts output with
  | Some contracts => Ret (List.map snd contracts)
  | None => Throw (TypeError "Cannot convert undefined or null to object")
  end.

(** The default target: the last contract of the first file, when there is
    a first file. *)
Definition default_target (output : CompilerOutput) (contractName : option string)
  : Prog (option string) :=
  files <- contracts_values output;;
  match files with
  | fileContracts :: _ => Ret (List.last (List.map (fun c => Some (fst c)) fileContracts) None)
  | [] => Ret contractName
  end.

(** [output.contracts[fileName][targetName]]: an own property, a property
    inherited from [Object.prototype], or nothing. *)
Inductive Lookup : Type :=
| Found (artifact : Artifact)
| Inherited
| Missing.

Definition lookup_contract (key : string) (fileContracts : list (string * Artifact)) : Lookup :=
  match Js.assoc key fileContracts with
  | Some a => Found a
  | None => if is_proto_name key then Inherited else Missing
  end.

(** The [for (const fileName in output.contracts)] loop with its [break]. *)
Fixpoint find_artifact (key : string) (contracts : list (string * list (string * Artifact))) : Lookup :=
  match contracts with
  | [] => Missing
  | (_, fileContracts) :: rest =>
      match lookup_contract key fileContracts with
      | Missing => find_artifact key rest
      | r => r
      end
  end.

Definition not_found_text (targetName contractName : option string) (allContracts : list string) : string :=
  "Contract " +:+ String (ascii_of_nat 34) ""
  +:+ Js.show (match Js.nonempty targetName with Some t => Some t | None => contractName end)
  +:+ String (ascii_of_nat 34) "" +:+ " not found. Available: " +:+ Js.join ", " allContracts.

Definition deployed_text (targetName : option string)
    (predictedAddress btcTxId evmTxHash receiptInfo verificationInfo blockscoutUrl explorer : string)
  : string :=
  check_mark +:+ " Contract deployed successfully!" +:+ Js.nl +:+ Js.nl
  +:+ "Contract Name: " +:+ Js.show targetName +:+ Js.nl
  +:+ "Contract Address: " +:+ predictedAddress +:+ Js.nl
  +:+ "BTC Transaction ID: " +:+ btcTxId +:+ Js.nl
  +:+ "EVM Transaction Hash: " +:+ evmTxHash +:+ receiptInfo +:+ verificationInfo +:+ Js.nl +:+ Js.nl
  +:+ "View on Blockscout: " +:+ blockscoutUrl +:+ Js.nl
  +:+ "View BTC tx: " +:+ explorer +:+ btcTxId.

(** Step 5 of the deployment: the verification request, whose failures
    only change the note. *)
Definition auto_verify (lib : Lib) (sourceCode : string) (sources : Sources)
    (blockscoutBaseUrl predictedAddress : string) (targetName : option string)
  : Prog string :=
  try_catch
    (let flattenedSource := flatten sourceCode sources in
     compilerVersion <- bundled_compiler_version lib;;
     verifyResponse <- await (fetch (verification_url blockscoutBaseUrl predictedAddress)
                                (post_json (stringify lib
                                   (mkVerifyBody compilerVersion flattenedSource false 200
                                      targetName (Some "cancun") None true "mit"))));;
     if res_ok verifyResponse
     then Ret (Js.nl +:+ check_mark +:+ " Contract verification submitted to Blockscout")
     else
       errorText <- lift (res_text verifyResponse);;
       Ret (Js.nl +:+ warning_sign +:+ " Verification failed: " +:+ Js.take 100 errorText))
    (fun e => Ret (Js.nl +:+ warning_sign +:+ " Auto-verification skipped: " +:+ message e)).

(** Steps 3 to 5 of [deploy-contract-source], once the artifact is found. *)
Definition deploy_artifact (lib : Lib) (st : State) (sourceCode : string)
    (sources : Sources) (targetName : option string) (artifact : Artifact)
    (args : option (list Js.Value)) (feeRate : option Z)
  : Prog ToolResult :=
  let bytecode := art_bytecode artifact in
  let abi := art_abi artifact in
  evmChain <- lift (getEVMFromBitcoinNetwork lib (st_network st));;
  let publicClient := publicClient evmChain in
  data <- lift (encodeDeployData lib abi (default [] args) (with_0x bytecode));;
  evmAddress <- default_evm_address lib st;;
  nonce <- await (getTransactionCount publicClient evmAddress);;
  predictedAddress <- lift (getContractAddress lib evmAddress nonce);;
  intention <- await (addTxIntention
                        (mkIntention
                           (mkEvmTransaction "btc" None data None (Some (chain_id evmChain)))
                           (Some (mkMeta targetName))));;
  let walletClient := walletClient evmChain in
  (* 1. Finalize the BTC transaction (signs the PSBT) *)
  btcTx <- await (finalizeBTCTransaction [intention] walletClient (Js.nonzero feeRate));;
  let btcTxId := btcTxId btcTx in
  let btcTxHex := btcTxHex btcTx in
  (* 2. Sign the EVM intention with the BTC txId (BIP322) *)
  signedEvmTx <- await (signIntention walletClient intention [intention] btcTxId Bip322);;
  evmTxHash <- lift (keccak256 lib signedEvmTx);;
  (* 3. Send both BTC tx and signed EVM tx to the MIDL network *)
  _ <- sendBTCTransactions walletClient [signedEvmTx] btcTxHex;;
  (* 4. Wait for EVM transaction receipt *)
  receiptInfo <- wait_for_receipt walletClient evmTxHash "Contract deployed at block: ";;
  network <- the_network st;;
  let blockscoutBaseUrl := blockscoutBaseUrl network in
  let blockscoutUrl := blockscoutBaseUrl +:+ "/address/" +:+ predictedAddress in
  (* 5. Auto-verify contract on Blockscout *)
  verificationInfo <- auto_verify lib sourceCode sources blockscoutBaseUrl predictedAddress targetName;;
  Ret (ok (deployed_text targetName predictedAddress btcTxId evmTxHash receiptInfo
             verificationInfo blockscoutUrl (Js.or_else (net_explorerUrl network) ""))).

(** Steps 2 to 5 of [deploy-contract-source], once the imports are
    resolved into [sources]. *)
Definition compile_and_deploy (lib : Lib) (st : State)
    (sourceCode : string) (contractName : option string)
    (args : option (list Js.Value)) (feeRate : option Z) (sources : Sources)
  : Prog ToolResult :=
  (* 2. Compile *)
  output <- lift (solc_compile lib (compiler_input sources));;
  match fatal_errors output with
  | e :: _ => Ret (failure ("Compilation Error: " +:+ formattedMessage e))
  | [] =>
      targetName <- match Js.nonempty contractName with
                    | Some n => Ret (Some n)
                    | None => default_target output contractName
                    end;;
      match find_artifact (Js.show targetName) (default [] (out_contracts output)) with
      | Found artifact =>
          deploy_artifact lib st sourceCode sources targetName artifact args feeRate
      | Inherited => Throw (TypeError "Cannot read properties of undefined (reading 'bytecode')")
      | Missing =>
          files <- contracts_values output;;
          let allContracts := List.concat (List.map (List.map fst) files) in
          Ret (failure (not_found_text targetName contractName allContracts))
      end
  end.

Definition deploy_failed (error : Error) : Prog ToolResult :=
  Ret (failure ("Error in deploy-contract-source: " +:+ message error)).

Definition deploy_contract_source (lib : Lib) (st : State) (depth : nat)
    (sourceCode : string) (contractName : option string)
    (args : option (list Js.Value)) (feeRate : option Z)
  : Prog ToolResult :=
  try_catch
    ((* 1. Resolve imports *)
     sources <- resolveImports depth sourceCode [("Contract.sol", sourceCode)];;
     compile_and_deploy lib st sourceCode contractName args feeRate sources)
    deploy_failed.

Definition verified_text (contractAddress contractName version blockscoutBaseUrl : string) : string :=
  check_mark +:+ " Contract verified successfully!" +:+ Js.nl +:+ Js.nl
  +:+ "Contract: " +:+ contractAddress +:+ Js.nl
  +:+ "Name: " +:+ contractName +:+ Js.nl
  +:+ "Compiler: " +:+ version +:+ Js.nl +:+ Js.nl
  +:+ "View verified contract: " +:+ blockscoutBaseUrl +:+ "/address/" +:+ contractAddress
  +:+ "?tab=contract".

Definition verify_contract (lib : Lib) (st : State) (depth : nat)
    (contractAddress sourceCode contractName : string)
    (compilerVersion : option string) (optimizationEnabled : option bool)
    (optimizationRuns : option Z) (constructorArgs licenseType : option string)
  : Prog ToolResult :=
  try_catch
    (network <- the_network st;;
     let blockscoutBaseUrl := blockscoutBaseUrl network in
     sources <- resolveImports depth sourceCode [("Contract.sol", sourceCode)];;
     let flattenedSource := flatten sourceCode sources in
     version <- match Js.nonempty compilerVersion with
                | Some v => Ret v
                | None => bundled_compiler_version lib
                end;;
     let verifyBody :=
       mkVerifyBody version flattenedSource (default false optimizationEnabled)
         (default 200 optimizationRuns) (Some contractName) None
         (Js.nonempty constructorArgs)
         (match Js.nonempty constructorArgs with Some _ => false | None => true end)
         (Js.or_else licenseType "mit") in
     response <- await (fetch (verification_url blockscoutBaseUrl contractAddress)
                          (post_json (stringify lib verifyBody)));;
     if res_ok response then
       _ <- lift (res_json response);;
       Ret (ok (verified_text contractAddress contractName version blockscoutBaseUrl))
     else
       errorText <- lift (res_text response);;
       Ret (failure ("Verification failed: " +:+ errorText)))
    (fun error => Ret (failure ("Error verifying contract: " +:+ message error))).

(** ** server.ts: the registered tools *)

(** A tool invocation: the tool and its arguments. *)
Inductive Tool : Type :=
(* registerTools *)
| GetWalletBalance (address : option string)
| EstimateBtcTransferFee (recipients : list Recipient) (feeRate : option Z) (from : option string)
| DecodePsbt (psbt : string)
| ValidateBitcoinAddress (address : string)
| GetAddressTransactions (address : string) (limit : option Z)
| GetBlockchainInfo
(* registerActionableTools *)
| PrepareBtcTransfer (recipients : list Recipient) (feeRate : option Z) (from : option string)
| RequestPsbtSignature (psbt : string) (address : option string)
| RequestTransactionBroadcast (txHex : string)
| BroadcastTransaction (txHex : string)
| PrepareContractDeploy (bytecode : string) (args abi : option (list Js.Value)) (feeRate : option Z)
| CallContract (contractAddress : string) (abi : list Js.Value) (functionName : string)
    (args : option (list Js.Value)) (value feeRate : option Z)
| DeployContractSource (sourceCode : string) (contractName : option string)
    (args : option (list Js.Value)) (feeRate : option Z)
| VerifyContract (contractAddress sourceCode contractName : string)
    (compilerVersion : option string) (optimizationEnabled : option bool)
    (optimizationRuns : option Z) (constructorArgs licenseType : option string).

Definition tool_name (t : Tool) : string :=
  match t with
  | GetWalletBalance _ => "get-wallet-balance"
  | EstimateBtcTransferFee _ _ _ => "estimate-btc-transfer-fee"
  | DecodePsbt _ => "decode-psbt"
  | ValidateBitcoinAddress _ => "validate-bitcoin-address"
  | GetAddressTransactions _ _ => "get-address-transactions"
  | GetBlockchainInfo => "get-blockchain-info"
  | PrepareBtcTransfer _ _ _ => "prepare-btc-transfer"
  | RequestPsbtSignature _ _ => "request-psbt-signature"
  | RequestTransactionBroadcast _ => "request-transaction-broadcast"
  | BroadcastTransaction _ => "broadcast-transaction"
  | PrepareContractDeploy _ _ _ _ => "prepare-contract-deploy"
  | CallContract _ _ _ _ _ _ => "call-contract"
  | DeployContractSource _ _ _ _ => "deploy-contract-source"
  | VerifyContract _ _ _ _ _ _ _ _ => "verify-contract"
  end.

(** The handler registered under the name of the tool, applied to the
    arguments and to [extra]. *)
Definition handle (lib : Lib) (st : State) (depth : nat) (extra : option Extra) (t : Tool)
  : Prog ToolResult :=
  match t with
  | GetWalletBalance address => get_wallet_balance lib st address
  | EstimateBtcTransferFee recipients feeRate from =>
      estimate_btc_transfer_fee lib st recipients feeRate from
  | DecodePsbt psbt => decode_psbt lib st psbt
  | ValidateBitcoinAddress address => validate_bitcoin_address st address
  | GetAddressTransactions address limit =>
      get_address_transactions lib st address (default 10 limit)
  | GetBlockchainInfo => get_blockchain_info st
  | PrepareBtcTransfer recipients feeRate from => prepare_btc_transfer st recipients feeRate from
  | RequestPsbtSignature psbt address => request_psbt_signature lib st psbt address extra
  | RequestTransactionBroadcast txHex => request_transaction_broadcast st txHex extra
  | BroadcastTransaction txHex => broadcast_transaction st txHex
  | PrepareContractDeploy bytecode args abi feeRate =>
      prepare_contract_deploy lib st bytecode args abi feeRate
  | CallContract contractAddress abi functionName args value feeRate =>
      call_contract lib st contractAddress abi functionName args value feeRate
  | DeployContractSource sourceCode contractName args feeRate =>
      deploy_contract_source lib st depth sourceCode contractName args feeRate
  | VerifyContract contractAddress sourceCode contractName compilerVersion
      optimizationEnabled optimizationRuns constructorArgs licenseType =>
      verify_contract lib st depth contractAddress sourceCode contractName compilerVersion
        optimizationEnabled optimizationRuns constructorArgs licenseType
  end.

(** The server holds the wrapper its tools were registered with. *)
Record MidlMcpServer := mkServer { midlWrapper : MidlConfigWrapper }.

(** [main] of index.ts, from the config on: the wrapper is built first,
    the server over it. *)
Definition start (config : State) : Outcome MidlMcpServer :=
  match new_MidlConfigWrapper config with
  | Returned midlWrapper => Returned (mkServer midlWrapper)
  | Thrown e => Thrown e
  end.

(** A tool called on a running server works on the config of its wrapper. *)
Definition call_tool (lib : Lib) (server : MidlMcpServer) (depth : nat)
    (extra : option Extra) (t : Tool) : Prog ToolResult :=
  handle lib (getConfig (midlWrapper server)) depth extra t.

(** ** Properties of traces *)

(** The calls that sign or broadcast. *)
Definition sensitive (c : Call) : bool :=
  match c with
  | signPSBT _ | finalizeBTCTransaction _ _ _ | signIntention _ _ _ _ _
  | broadcastTransaction _ => true
  | request _ req _ => String.eqb (rpc_method req) "eth_sendBTCTransactions"
  | _ => false
  end.

Definition is_elicitation (c : Call) : bool :=
  match c with
  | sendRequest _ => true
  | _ => false
  end.

(** An elicitation that was answered with a truthy value of its
    property. *)
Definition affirmative (e : Event) : bool :=
  match e with
  | Ev (sendRequest req) (Returned v) => Js.truthy (Js.get v (el_property req))
  | _ => false
  end.

(** An elicitation that was answered with the boolean [true] for its
    property. *)
Definition affirmed_true (e : Event) : Prop :=
  match e with
  | Ev (sendRequest req) (Returned v) => Js.get v (el_property req) = Js.Bool true
  | _ => False
  end.

(** Every event of [t] that satisfies [Q] comes after an event that
    satisfies [P]. *)
Definition preceded_by (P Q : Event -> Prop) (t : list Event) : Prop :=
  forall t1 e t2, t = (t1 ++ e :: t2)%list -> Q e -> exists e', In e' t1 /\ P e'.

(** The approval gate on a trace: a sensitive call only after an
    affirmative elicitation. *)
Definition gated (t : list Event) : Prop :=
  preceded_by (fun e => affirmative e = true) (fun e => sensitive (ev_call e) = true) t.

Definition calls (t : list Event) : list Call := List.map ev_call t.

(** The tools that ask the human before their sensitive call. *)
Definition gated_tool (t : Tool) : bool :=
  match t with
  | RequestPsbtSignature _ _ | RequestTransactionBroadcast _ => true
  | _ => false
  end.

(** Every event of [t] that satisfies [Q] comes after an event related to
    it by [R]. *)
Definition each_after (R : Event -> Event -> Prop) (Q : Event -> Prop) (t : list Event) : Prop :=
  forall t1 e t2, t = (t1 ++ e :: t2)%list -> Q e -> exists e', In e' t1 /\ R e' e.

(** The same, read from left to right with the events [seen] so far. *)
Fixpoint after_from (R : Event -> Event -> Prop) (Q : Event -> Prop)
    (seen t : list Event) : Prop :=
  match t with
  | [] => True
  | e :: t' => (Q e -> exists e', In e' seen /\ R e' e) /\ after_from R Q (seen ++ [e])%list t'
  end.

(** A property of every run of [p], whatever the world answers: [post]
    holds of the trace and of the completion. *)
Fixpoint always {A} (p : Prog A) (post : list Event -> Completion A -> Prop) : Prop :=
  match p with
  | Ret a => post [] (Resolves a)
  | Throw e => post [] (Rejects e)
  | Spin => post [] Pending
  | Vis c k => forall o, always (k o) (fun t r => post (Ev c o :: t) r)
  end.

Definition is_signIntention (e : Event) : Prop :=
  match ev_call e with
  | signIntention _ _ _ _ _ => True
  | _ => False
  end.

Definition is_request (e : Event) : Prop :=
  match ev_call e with
  | request _ _ _ => True
  | _ => False
  end.

Definition is_fetch_call (c : Call) : Prop :=
  match c with
  | fetch _ _ => True
  | _ => False
  end.

Definition is_fetch (e : Event) : Prop := is_fetch_call (ev_call e).

(** [e'] is the finalization whose transaction id [e] signs over, with the
    BIP322 protocol, for the same intention and client. *)
Definition anchors (e' e : Event) : Prop :=
  match e', e with
  | Ev (finalizeBTCTransaction intentions client _) (Returned btcTx),
    Ev (signIntention client' intention intentions' txId protocol) _ =>
      txId = btcTxId btcTx /\ (forall tx, btc_tx btcTx = Some tx -> txId = tx_id tx)
      /\ protocol = Bip322
      /\ intentions = [intention] /\ intentions' = [intention] /\ client' = client
  | _, _ => False
  end.

(** [e'] is the finalization whose raw transaction [e] submits. *)
Definition carries_btc (e' e : Event) : Prop :=
  match e', e with
  | Ev (finalizeBTCTransaction _ _ _) (Returned btcTx), Ev (request _ req _) _ =>
      snd (rpc_params req) = btcTxHex btcTx
  | _, _ => False
  end.

(** [e'] is the signing whose signed intention [e] submits. *)
Definition carries_signed (e' e : Event) : Prop :=
  match e', e with
  | Ev (signIntention _ _ _ _ _) (Returned signedEvmTx), Ev (request _ req _) _ =>
      fst (rpc_params req) = [signedEvmTx]
  | _, _ => False
  end.

(** The order of the cross-chain linking on a trace: a signing comes after
    the finalization it signs over, a submission after the signing and the
    finalization whose results it carries. *)
Definition linking_order (t : list Event) : Prop :=
  each_after anchors is_signIntention t
  /\ each_after carries_signed is_request t
  /\ each_after carries_btc is_request t.

(** Whether a call is a [client.request]. *)
Definition is_rpc (c : Call) : bool :=
  match c with
  | request _ _ _ => true
  | _ => false
  end.

(** The [client.request] calls of a trace. *)
Definition rpc_requests (t : list Event) : list Call :=
  List.filter is_rpc (calls t).

(** The one request of a dual submission. *)
Definition dual_submission (c : Call) : Prop :=
  exists client signedEvmTx btcTxHex,
    c = request client (mkRpc "eth_sendBTCTransactions" ([signedEvmTx], btcTxHex))
          (mkRequestOptions 0).



(** A fetch, without options, of a URL string that begins with the raw
    URL of the OpenZeppelin repository. *)
Definition openzeppelin_fetch (e : Event) : Prop :=
  match ev_call e with
  | fetch url None => Js.startsWith openzeppelin_raw url = true
  | _ => False
  end.

(** The bytes of the bodies that the successful fetches of a trace
    delivered. *)
Definition fetched_bytes (t : list Event) : nat :=
  List.fold_right
    (fun e n =>
       match e with
       | Ev (fetch _ _) (Returned res) =>
           match res_ok res, res_text res with
           | true, Returned body => (String.length body + n)%nat
           | _, _ => n
           end
       | _ => n
       end) 0%nat t.

(** The formatters take an integer to the text of a decimal fraction
    here; only the examples use them. *)
Definition example_lib : Lib :=
  mkLib
    (fun st => Returned (match st_accounts st with Some (a :: _) => Some a | _ => None end))
    (fun utxos targets feeRate =>
       Returned (match utxos with
                 | [] => mkSelection None None 0
                 | u :: _ => mkSelection (Some [u]) (Some targets) (feeRate * 110)
                 end))
    (fun psbt network => Thrown (mkError "Not finalized"))
    (fun network => Returned (mkChain 777))
    (fun account network => Returned "0xSender")
    (fun abi functionName args => Returned ("0xcall:" +:+ functionName))
    (fun abi args bytecode => Returned bytecode)
    (fun bytes => Returned ("0xhash:" +:+ bytes))
    (fun from nonce => Returned (from +:+ "/" +:+ pretty nonce))
    (fun input =>
       Returned (mkCompilerOutput None
                   (Some [("Contract.sol", [("Counter", mkArtifact [] "6080")])])))
    (Returned "0.8.28+commit.7893614a.Emscripten.clang")
    (fun body => vb_source_code body)
    (fun satoshis => pretty satoshis +:+ "e-8")
    (fun satoshis => pretty satoshis)
    None.

Definition example_state : State :=
  mkState (Some "server-connector")
          (Some (mkNetwork "regtest" "regtest" (Some "https://mempool.regtest.midl.xyz/tx/")))
          (Some [mkAccount "bcrt1qsender" "02ab" "payment" "p2wpkh"]).

Definition offline {c : Call} : Outcome (resp c) := Thrown (mkError "fetch failed").

(** A world in which every collaborator is unreachable. *)
Definition offline_world : World := fun _ c => offline.

(** A world in which the wallet and the network answer, and no human
    channel exists. *)
Definition live_world : World := fun _ c =>
  match c return Outcome (resp c) with
  | broadcastTransaction _ => Returned "txid01"
  | getFeeRate => Returned (mkFeeRates 3 2 1)
  | getUTXOs _ => Returned [mkUTXO "aa" 0 15000]
  | addTxIntention i => Returned i
  | finalizeBTCTransaction _ _ _ =>
      Returned (mkBtcResponse "cHNidP8=" (Some (mkBtcTransaction "btcid01" "0200beef")))
  | signIntention _ _ _ txId _ => Returned ("0xsigned:" +:+ txId)
  | getTransactionCount _ _ => Returned 7
  | request _ _ _ => Returned ["0xevmhash"]
  | _ => offline
  end.

(** The same world with a human who answers the elicitation with [v]. *)
Definition answering_world (v : Js.Value) : World := fun i c =>
  match c return Outcome (resp c) with
  | sendRequest _ => Returned v
  | signPSBT p => Returned (sp_psbt p)
  | c' => live_world i c'
  end.

(** A remote in which every file imports one more file: the body of the
    [i]-th fetch imports the path [chain_path (S i)]. *)
Fixpoint letters (n : nat) : string :=
  match n with
  | O => ""
  | S n' => String "a" (letters n')
  end.

Definition chain_path (k : nat) : string := "@openzeppelin/" +:+ letters k.

Definition import_line (k : nat) : string :=
  "import " +:+ String (ascii_of_nat 34) (chain_path k +:+ String (ascii_of_nat 34) "").

Definition chain_world : World := fun i c =>
  match c return Outcome (resp c) with
  | fetch _ _ =>
      Returned (mkResponse true "OK" (Returned (import_line (S i)))
                  (Thrown (mkError "Unexpected token")))
  | _ => offline
  end.

(** Every call of every run of [p] satisfies [Q]. *)
Definition only {A} (Q : Call -> Prop) (p : Prog A) : Prop :=
  always p (fun t _ => Forall (fun e => Q (ev_call e)) t).

(** Without an affirmative answer the gated tools make no sensitive call
    and resolve to an error result. *)
Definition closed (t : list Event) (r : Completion ToolResult) : Prop :=
  Forall (fun e => affirmative e = false) t ->
  Forall (fun e => sensitive (ev_call e) = false) t
  /\ exists res, r = Resolves res /\ isError res = true.

(** The property of traces behind [linking_order], read from left to
    right. *)
Definition linked_from (t : list Event) : Prop :=
  after_from anchors is_signIntention [] t
  /\ after_from carries_signed is_request [] t
  /\ after_from carries_btc is_request [] t.

(** At most one request, and that one a dual submission. *)
Definition single_submission (t : list Event) : Prop :=
  rpc_requests t = [] \/ exists c, rpc_requests t = [c] /\ dual_submission c.





(** No path of the chain from [k] on is a key of [sources] yet. *)
Definition fresh_from (k : nat) (sources : Sources) : Prop :=
  forall j, (k <= j)%nat -> sources_has sources (chain_path j) = false.

(** What a resolution leaves behind: every fetch was of a URL string
    with the raw prefix, and the resolved sources are the given ones
    followed by new entries under OpenZeppelin paths, at most one for each
    fetch, with no key twice. *)
Definition resolved (sources : Sources) (t : list Event) (r : Completion Sources) : Prop :=
  Forall openzeppelin_fetch t
  /\ forall sources', r = Resolves sources' ->
       exists added,
         sources' = (sources ++ added)%list
         /\ (NoDup (List.map fst sources) -> NoDup (List.map fst sources'))
         /\ Forall (fun entry => Js.startsWith "@openzeppelin/" (fst entry) = true) added
         /\ (List.length added <= List.length t)%nat.

(** A remote that serves one file without imports under every path. *)
Definition library_file : string :=
  "pragma solidity ^0.8.20; abstract contract Ownable {}".

Definition library_world : World := fun i c =>
  match c return Outcome (resp c) with
  | fetch _ _ =>
      Returned (mkResponse true "OK" (Returned library_file)
                  (Thrown (mkError "Unexpected token")))
  | c' => live_world i c'
  end.

(** ** Properties of whole runs *)

(** An answer in the requested schema: its property is absent or a
    boolean. *)
Definition in_schema (e : Event) : Prop :=
  match e with
  | Ev (sendRequest req) (Returned v) =>
      Js.get v (el_property req) = Js.Undefined
      \/ exists b, Js.get v (el_property req) = Js.Bool b
  | _ => True
  end.

(** The three steps of the cross-chain linking. *)
Definition is_step (c : Call) : bool :=
  match c with
  | finalizeBTCTransaction _ _ _ | signIntention _ _ _ _ _ | request _ _ _ => true
  | _ => false
  end.

(** The steps of a trace, in their order. *)
Definition steps (t : list Event) : list Event :=
  List.filter (fun e => is_step (ev_call e)) t.

Definition is_finalization (e : Event) : Prop :=
  match ev_call e with
  | finalizeBTCTransaction _ _ _ => True
  | _ => False
  end.

(** The call of an event returned. *)
Definition returned (e : Event) : Prop :=
  match e with
  | Ev _ (Returned _) => True
  | Ev _ (Thrown _) => False
  end.

(** The linking of a whole run. Its steps are, in this order and each at
    most once: one finalization; one signing, anchored in that
    finalization; one submission, of what that signing returned and of the
    raw transaction of the same finalization. A run that resolves to a
    success made all three, and its submission returned. *)
Definition linked_flow (t : list Event) (r : Completion ToolResult) : Prop :=
  (steps t = []
   \/ (exists f, steps t = [f] /\ is_finalization f)
   \/ (exists f s, steps t = [f; s] /\ anchors f s)
   \/ (exists f s q,
         steps t = [f; s; q] /\ anchors f s /\ carries_signed s q /\ carries_btc f q))
  /\ (forall res, r = Resolves res -> isError res = false ->
      exists f s q,
        steps t = [f; s; q] /\ anchors f s /\ carries_signed s q /\ carries_btc f q
        /\ returned q).







(** ** Properties of a resolution *)

(** The body that an event delivers: that of a fetch answered ok whose
    text was read. *)
Definition served_body (e : Event) : option string :=
  match e with
  | Ev (fetch _ _) (Returned res) =>
      if res_ok res then
        match res_text res with
        | Returned body => Some body
        | Thrown _ => None
        end
      else None
  | _ => None
  end.

(** The import path whose URL [import_url] makes [url]. *)
Definition imported_path (url : string) : string :=
  "@openzeppelin/" +:+ Js.drop (String.length openzeppelin_raw) url.

(** The entry that the resolver stores for an event. *)
Definition stored_by (e : Event) : Sources :=
  match ev_call e, served_body e with
  | fetch url _, Some body => [(imported_path url, body)]
  | _, _ => []
  end.

(** The entries stored in the course of a trace, in its order. *)
Definition stored (t : list Event) : Sources := List.flat_map stored_by t.

(** The import paths of the bodies that a trace delivered. *)
Definition imports_served (t : list Event) : list string :=
  List.flat_map
    (fun e => match served_body e with
              | Some body => imports_of body
              | None => []
              end) t.

(** [e] is the fetch, without options, of the URL that [import_url] makes
    of one of the [known] import paths, one that is no key of [sources]. *)
Definition fetches_one_of (known : list string) (sources : Sources) (e : Event) : Prop :=
  exists importPath url,
    In importPath known
    /\ import_url importPath = Some url
    /\ sources_has sources importPath = false
    /\ ev_call e = fetch url None.

(** Every event of the trace fetches an import path that the content or
    a body delivered before it names, and that is not stored by then. *)
Fixpoint follows_imports (known : list string) (sources : Sources) (t : list Event) : Prop :=
  match t with
  | [] => True
  | e :: t' =>
      fetches_one_of known sources e
      /\ follows_imports (known ++ imports_served [e])%list (sources ++ stored_by e)%list t'
  end.

(** An import path is accounted for in the end: it is outside of the
    OpenZeppelin prefix, or a key of the sources, or its fetch was
    answered with a status that is not ok. *)
Definition accounted (sources : Sources) (t : list Event) (importPath : string) : Prop :=
  match import_url importPath with
  | None => True
  | Some url =>
      sources_has sources importPath = true
      \/ exists res, In (Ev (fetch url None) (Returned res)) t /\ res_ok res = false
  end.

(** A resolution over the import [paths] of a content. *)
Definition resolution (paths : list string) (sources : Sources) (t : list Event)
    (r : Completion Sources) : Prop :=
  follows_imports paths sources t
  /\ forall sources', r = Resolves sources' ->
       sources' = (sources ++ stored t)%list
       /\ Forall (accounted sources' t) (paths ++ imports_served t)%list.

(** An import path with dot segments. *)
Definition dotted_path : string := "@openzeppelin/../../../evil-org/repo/main/Lib.sol".

(** ** Further code and properties *)

(** ** resources/bitcoin.ts *)

(** [s.split(sep)] for a separator of one character. *)
Fixpoint split_on (sep : ascii) (s : string) : list string :=
  match s with
  | EmptyString => [EmptyString]
  | String c s' =>
      if Ascii.eqb c sep then EmptyString :: split_on sep s'
      else match split_on sep s' with
           | segment :: rest => String c segment :: rest
           | [] => [String c EmptyString]
           end
  end.

(** The [URL] a resource handler is called with, as far as it is read. *)
Record Uri := mkUri { pathname : string; href : string }.

(** The one item of [contents] that a resource handler resolves to. *)
Record ResourceContents := mkContents {
  rc_uri : string;
  rc_text : string;
  rc_mimeType : string }.

(** [uri.pathname.split("/").pop()] *)
Definition path_tail (uri : Uri) : option string :=
  last (split_on "/" (pathname uri)).

(** The resource [midl://balance/{address}]. No [try] surrounds the body. *)
Definition bitcoin_balance (lib : Lib) (uri : Uri) : Prog ResourceContents :=
  match Js.nonempty (path_tail uri) with
  | None => Throw (mkError "Missing address")
  | Some address =>
      balanceSats <- await (getBalance address);;
      Ret (mkContents (href uri)
             ("Balance for " +:+ address +:+ ": " +:+ formatBalance lib balanceSats)
             "text/plain")
  end.

(** The resource [midl://utxos/{address}]; [stringify_utxos] is
    [JSON.stringify(utxos, null, 2)]. *)
Definition bitcoin_utxos (stringify_utxos : list UTXO -> string) (uri : Uri)
  : Prog ResourceContents :=
  match Js.nonempty (path_tail uri) with
  | None => Throw (mkError "Missing address")
  | Some address =>
      utxos <- await (getUTXOs address);;
      Ret (mkContents (href uri) (stringify_utxos utxos) "application/json")
  end.

(** ** config/factory.ts: the recovery of the public key *)

(** One input of a transaction of the address history, as the recovery
    reads it: [prevout?.scriptpubkey_address] and [witness]. *)
Record Vin := mkVin {
  vin_prevout_address : option string;
  vin_witness : option (list string) }.

Record HistoryTx := mkHistoryTx { htx_vin : option (list Vin) }.

(** The response of the history request: [res.ok] and what [res.json()]
    resolves to. *)
Record HistoryResponse := mkHistoryResponse {
  hr_ok : bool;
  hr_json : Outcome (list HistoryTx) }.

(** [!publicKey || publicKey === "NOT_SET" || publicKey.includes("...")] *)
Definition needs_recovery (publicKey : string) : bool :=
  String.eqb publicKey "" || String.eqb publicKey "NOT_SET" || Js.includes "..." publicKey.

Definition recovery_baseUrl (networkId : string) : string :=
  if String.eqb networkId "regtest" then "https://mempool.regtest.midl.xyz"
  else "https://mempool.space/"
       +:+ (if String.eqb networkId "mainnet" then "" else networkId +:+ "/").

(** The address of the history request. *)
Definition recovery_url (networkId address : string) : string :=
  recovery_baseUrl networkId +:+ "/api/address/" +:+ address +:+ "/txs".

(** [tx.vin.find(v => v.prevout?.scriptpubkey_address === address)] *)
Definition spending_input (address : string) (vin : list Vin) : option Vin :=
  List.find (fun v => match vin_prevout_address v with
                      | Some a => String.eqb a address
                      | None => false
                      end) vin.

(** The [for (const tx of txs)] loop with its [break]: the key it assigns,
    if any. *)
Fixpoint scan_history (address : string) (txs : list HistoryTx) : Outcome (option string) :=
  match txs with
  | [] => Returned None
  | tx :: rest =>
      match htx_vin tx with
      | None => Thrown (TypeError "Cannot read properties of undefined (reading 'find')")
      | Some vin =>
          match spending_input address vin with
          | Some v =>
              match vin_witness v with
              | Some witness =>
                  if (2 <=? List.length witness)%nat
                  then Returned (last witness)
                  else scan_history address rest
              | None => scan_history address rest
              end
          | None => scan_history address rest
          end
      end
  end.

(** The [try] block of the recovery, given what [await fetch(url)] came
    to: every failure leaves the key as it was. *)
Definition recoverPublicKey (address publicKey : string) (fetched : Outcome HistoryResponse)
  : string :=
  match fetched with
  | Returned res =>
      if hr_ok res then
        match hr_json res with
        | Returned txs =>
            match scan_history address txs with
            | Returned (Some recovered) => recovered
            | _ => publicKey
            end
        | Thrown _ => publicKey
        end
      else publicKey
  | Thrown _ => publicKey
  end.

(** [createMidlConfigFromEnv] in address mode (no mnemonic): [None] is the
    [null] of the demo mode; [fetched] is what the history request comes
    to when the recovery is attempted. *)
Definition createMidlConfigFromEnv
    (MIDL_NETWORK MIDL_ACCOUNT_ADDRESS MIDL_ACCOUNT_PUBKEY : option string)
    (fetched : Outcome HistoryResponse) : option State :=
  match Js.nonempty MIDL_ACCOUNT_ADDRESS with
  | None => None
  | Some address =>
      let publicKey := Js.or_else MIDL_ACCOUNT_PUBKEY "" in
      let publicKey :=
        if needs_recovery publicKey
        then recoverPublicKey address publicKey fetched
        else publicKey in
      Some (factory_state MIDL_NETWORK address publicKey)
  end.

(** Every byte of [s] satisfies [f]. *)
Fixpoint all_bytes (f : ascii -> bool) (s : string) : bool :=
  match s with
  | EmptyString => true
  | String c s' => f c && all_bytes f s'
  end.

Definition no_slash (s : string) : bool :=
  all_bytes (fun c => negb (Ascii.eqb c "/")) s.

(** What the balance resource and the balance tool make of the same
    answer to the same query. *)
Definition balance_reports_agree (lib : Lib) (st : State) (uri : Uri) (address : string)
    (w : World) : Prop :=
  match w 0%nat (getBalance address) with
  | Returned balanceSats =>
      exists contents res,
        result w (bitcoin_balance lib uri) = Resolves contents
        /\ result w (get_wallet_balance lib st (Some address)) = Resolves res
        /\ isError res = false
        /\ rc_text contents = text res
  | Thrown e =>
      result w (bitcoin_balance lib uri) = Rejects e
      /\ result w (get_wallet_balance lib st (Some address))
         = Resolves (failure ("Error fetching balance: " +:+ message e))
  end.

(** Some transaction of [txs] has an input that spends from [address] and
    whose witness has two items or more, the last of which is [key]. *)
Definition spends_with_key (address key : string) (txs : list HistoryTx) : Prop :=
  exists tx vin v witness,
    In tx txs /\ htx_vin tx = Some vin /\ In v vin
    /\ vin_prevout_address v = Some address
    /\ vin_witness v = Some witness
    /\ (2 <= List.length witness)%nat
    /\ last witness = Some key.

(** The dual submission returned. *)
Definition submitted (e : Event) : Prop :=
  match e with
  | Ev (request _ req _) (Returned _) => rpc_method req = "eth_sendBTCTransactions"
  | _ => False
  end.

(** A run reports success exactly when its dual submission returned. *)
Definition reports_submission (t : list Event) (r : Completion ToolResult) : Prop :=
  (exists res, r = Resolves res /\ isError res = false) <-> Exists submitted t.



(** The tools that [registerTools] of tools/analytical.ts registers. *)
Definition analytical_tool (t : Tool) : bool :=
  match t with
  | GetWalletBalance _ | EstimateBtcTransferFee _ _ _ | DecodePsbt _
  | ValidateBitcoinAddress _ | GetAddressTransactions _ _ | GetBlockchainInfo => true
  | _ => false
  end.

(** The calls that only read: the queries of the wallet library and of the
    provider, and a [fetch] without options. *)
Definition queries (c : Call) : bool :=
  match c with
  | getBalance _ | getFeeRate | getUTXOs _
  | getLatestBlockHeight _ | provider_getFeeRate _ | fetch _ None => true
  | _ => false
  end.

(** The verification request for [contractAddress] at the Blockscout
    instance of [network], alone or not made at all. *)
Definition posts_verification (network : Network) (contractAddress : string)
    (t : list Event) : Prop :=
  t = []
  \/ exists body o,
       t = [Ev (fetch (verification_url (blockscoutBaseUrl network) contractAddress)
                  (post_json body)) o].

(** The trace of a run of [verify-contract]: the fetches of the import
    resolution of the source, each of the URL that [import_url] makes of
    an import path named by the source or by a file delivered before, and
    then at most the one verification request. *)
Definition verifies (network : Network) (contractAddress sourceCode : string)
    (t : list Event) : Prop :=
  exists imports rest,
    t = (imports ++ rest)%list
    /\ follows_imports (imports_of sourceCode) [("Contract.sol", sourceCode)] imports
    /\ posts_verification network contractAddress rest.

(** The calls of a run of [request-psbt-signature]: none, the elicitation
    alone, or the elicitation and then one signing of the given PSBT,
    unpublished, for input 0 of the account that was asked for. *)
Definition signs_the_given (lib : Lib) (st : State) (psbt : string) (address : option string)
    (cs : list Call) : Prop :=
  cs = [] \/ cs = [sendRequest sign_elicitation]
  \/ exists account,
       find_account lib st address = Returned (Some account)
       /\ (forall a, Js.nonempty address = Some a -> acc_address account = a)
       /\ cs = [sendRequest sign_elicitation;
                signPSBT (mkSignPSBT psbt [(acc_address account, [0])] false)].

(** The calls of a run of [request-transaction-broadcast]. *)
Definition broadcasts_the_given (txHex : string) (cs : list Call) : Prop :=
  cs = [] \/ cs = [sendRequest broadcast_elicitation]
  \/ cs = [sendRequest broadcast_elicitation; broadcastTransaction txHex].

(** A source whose one import is relative. *)
Definition relative_source : string :=
  "import './Token.sol'; contract Vault is Token {}".

(** [lib] with another compiler. *)
Definition with_compiler (lib : Lib) (compile : CompilerInput -> Outcome CompilerOutput) : Lib :=
  mkLib (getDefaultAccount lib) (coinSelect lib) (decodePsbt lib)
    (getEVMFromBitcoinNetwork lib) (getEVMAddress lib)
    (encodeFunctionData lib) (encodeDeployData lib) (keccak256 lib) (getContractAddress lib)
    compile (solc_version lib) (stringify lib) (satoshisToBtc lib) (toLocaleString lib)
    (env_MIDL_RPC_URL lib).

(** A compiler that reports a warning and an error. *)
Definition rejecting_compiler (input : CompilerInput) : Outcome CompilerOutput :=
  Returned (mkCompilerOutput
              (Some [mkCompileError "warning" "Warning: SPDX license identifier not provided";
                     mkCompileError "error" "ParserError: Expected ';'"])
              None).

(** The header that [flatten] puts in front of a resolved file. *)
Definition file_header (path content : string) : string :=
  "// File: " +:+ path +:+ Js.nl +:+ content +:+ Js.nl +:+ Js.nl.

(** No file of [contracts] has a contract under [key]. *)
Definition defined_nowhere (key : string) (contracts : list (string * list (string * Artifact)))
  : Prop :=
  Forall (fun file => Js.assoc key (snd file) = None) contracts.

(** What [find_artifact] comes to: the artifact of the first file that
    defines [key]; an inherited property when the first file does not
    define a [key] that is a property of every object; nothing else. *)
Definition artifact_lookup (key : string) (contracts : list (string * list (string * Artifact)))
    (found : Lookup) : Prop :=
  match found with
  | Found artifact =>
      exists before fileName fileContracts after,
        contracts = (before ++ (fileName, fileContracts) :: after)%list
        /\ Js.assoc key fileContracts = Some artifact
        /\ defined_nowhere key before
        /\ (before = [] \/ is_proto_name key = false)
  | Inherited =>
      is_proto_name key = true
      /\ exists fileName fileContracts rest,
           contracts = (fileName, fileContracts) :: rest
           /\ Js.assoc key fileContracts = None
  | Missing =>
      contracts = [] \/ (is_proto_name key = false /\ defined_nowhere key contracts)
  end.

(** The success texts of the two broadcast tools. *)
Definition gated_broadcast_text (explorer txId : string) : string :=
  "Transaction broadcasted successfully!" +:+ Js.nl +:+ Js.nl
  +:+ "Transaction ID: " +:+ txId +:+ Js.nl
  +:+ "View on Explorer: " +:+ explorer +:+ txId.

Definition broadcast_text (explorer txId : string) : string :=
  check_mark +:+ " Transaction broadcasted successfully!" +:+ Js.nl +:+ Js.nl
  +:+ "Transaction ID: " +:+ txId +:+ Js.nl
  +:+ "Explorer: " +:+ explorer +:+ txId.

(** A success of a broadcast tool reports the text [say txId] for some
    transaction id. *)
Definition success_says (say : string -> string) (r : Completion ToolResult) : Prop :=
  forall res, r = Resolves res -> isError res = false -> exists txId, text res = say txId.

(** A config whose network has no explorer URL, as the mock config of the
    demo mode of index.ts has none. *)
Definition bare_state : State :=
  mkState (Some "server-connector") (Some (mkNetwork "testnet" "testnet" None))
          (Some [mkAccount "tb1qtestaddress" "" "payment" "p2wpkh"]).

(** The address of the history request of [get-address-transactions]. *)
Definition history_url (lib : Lib) (address : string) : string :=
  Js.or_else (env_MIDL_RPC_URL lib) "https://mempool.regtest.midl.xyz"
  +:+ "/api/address/" +:+ address +:+ "/txs".

Definition history_text (lib : Lib) (address : string) (txs : list AddressTx) : string :=
  "Recent Transactions for " +:+ address +:+ ":" +:+ Js.nl +:+ Js.nl
  +:+ Js.join (Js.nl +:+ Js.nl) (List.map (format_tx lib) txs).

(** How many transactions a listing with [limit] shows of [n]. *)
Definition listed (limit : Z) (n : nat) : nat :=
  if (0 <=? limit)%Z then Nat.min (Z.to_nat limit) n else (n - Z.to_nat (- limit))%nat.

(** A history of three transactions. *)
Definition example_history : list AddressTx :=
  [mkAddressTx "aa" 2 [1000; 500] true (Some 101);
   mkAddressTx "bb" 2 [700] true (Some 102);
   mkAddressTx "cc" 2 [300] false None].

Definition history_world : World := fun i c =>
  match c return Outcome (resp c) with
  | fetch _ _ =>
      Returned (mkResponse true "OK" (Thrown (mkError "body used already"))
                  (Returned (JsonTxs example_history)))
  | c' => live_world i c'
  end.

(** The tools whose handler cannot reject on the config [config]: all but
    [estimate-btc-transfer-fee], and [get-wallet-balance] when it is given
    an address or the default account can be read. *)
Definition resolves_always (lib : Lib) (config : State) (t : Tool) : Prop :=
  match t with
  | EstimateBtcTransferFee _ _ _ => False
  | GetWalletBalance address =>
      Js.nonempty address <> None \/ exists account, getDefaultAccount lib config = Returned account
  | _ => True
  end.

(** A fetch of the import resolution (one without options) threw [err]. *)
Definition import_fetch_threw (err : Error) (e : Event) : Prop :=
  match e with
  | Ev (fetch _ None) (Thrown err') => err' = err
  | _ => False
  end.

(** A fetch of the import resolution came back with an ok response. *)
Definition import_fetch_served (e : Event) : Prop :=
  match e with
  | Ev (fetch _ None) (Returned res) => res_ok res = true
  | _ => False
  end.

(** What a resolution that started from [sources] shows of its fetches: one
    that throws rejects the resolution with its error, and without a
    served file the sources stay as they are. *)
Definition resolution_follows_fetches (sources : Sources) (t : list Event)
    (r : Completion Sources) : Prop :=
  (forall err, Exists (import_fetch_threw err) t -> r = Rejects err)
  /\ (Forall (fun e => ~ import_fetch_served e) t ->
      forall sources', r = Resolves sources' -> sources' = sources).

(** A fetch of an import that throws ends the deployment: with fetches
    only, in an error result that carries the message. *)
Definition import_failure_aborts (t : list Event) (r : Completion ToolResult) : Prop :=
  forall err, Exists (import_fetch_threw err) t ->
    Forall is_fetch t
    /\ r = Resolves (failure ("Error in deploy-contract-source: " +:+ message err)).

(** A world whose remote serves nothing. *)
Definition not_found_world : World := fun i c =>
  match c return Outcome (resp c) with
  | fetch _ _ =>
      Returned (mkResponse false "Not Found" (Returned "404: Not Found")
                  (Thrown (mkError "Unexpected token")))
  | c' => live_world i c'
  end.

(** A source with one import from the OpenZeppelin repository. *)
Definition ownable_source : string :=
  "import '@openzeppelin/contracts/access/Ownable.sol'; contract Vault is Ownable {}".

(** * Proofs *)

(** ** Runs and their properties *)

Section Runs.
Context {A : Type}.

Lemma always_run (p : Prog A) post (w : World) i :
  always p post -> post (fst (run_from w i p)) (snd (run_from w i p)).
Proof.
  revert post i. induction p as [a | e | | c k IH]; cbn; intros post i Hp; auto.
  specialize (IH (w i c) _ (S i) (Hp (w i c))).
  destruct (run_from w (S i) (k (w i c))) as [t r]. exact IH.
Qed.

Lemma always_mono (p : Prog A) (post post' : list Event -> Completion A -> Prop) :
  (forall t r, post t r -> post' t r) -> always p post -> always p post'.
Proof.
  revert post post'. induction p as [a | e | | c k IH]; cbn; intros post post' Himp Hp; auto.
  intros o. eapply IH; [| apply Hp]. cbn. auto.
Qed.

Lemma always_and (p : Prog A) (post post' : list Event -> Completion A -> Prop) :
  always p post -> always p post' -> always p (fun t r => post t r /\ post' t r).
Proof.
  revert post post'. induction p as [a | e | | c k IH]; cbn; intros post post' H1 H2; auto.
Qed.

Lemma always_try_catch (p : Prog A) h post :
  always p (fun t r =>
              match r with
              | Rejects e => always (h e) (fun t' r' => post (t ++ t')%list r')
              | _ => post t r
              end) ->
  always (try_catch p h) post.
Proof.
  revert post. induction p as [a | e | | c k IH]; cbn; intros post Hp; auto.
Qed.

Lemma run_result_resolves (p : Prog A) (w : World) i a :
  snd (run_from w i p) = Resolves a ->
  forall post, always p post -> post (fst (run_from w i p)) (Resolves a).
Proof.
  intros Hr post Hp. rewrite <- Hr. apply always_run, Hp.
Qed.

End Runs.

Lemma always_bind {A B} (p : Prog A) (f : A -> Prog B) post :
  always p (fun t r =>
              match r with
              | Resolves a => always (f a) (fun t' r' => post (t ++ t')%list r')
              | Rejects e => post t (Rejects e)
              | Pending => post t Pending
              end) ->
  always (bind p f) post.
Proof.
  revert post. induction p as [a | e | | c k IH]; cbn; intros post Hp; auto.
Qed.

Lemma run_from_bind {A B} (p : Prog A) (f : A -> Prog B) (w : World) i :
  run_from w i (bind p f) =
  let '(t, r) := run_from w i p in
  match r with
  | Resolves a =>
      let '(t', r') := run_from w (i + List.length t) (f a) in ((t ++ t')%list, r')
  | Rejects e => (t, Rejects e)
  | Pending => (t, Pending)
  end.
Proof.
  revert i. induction p as [a | e | | c k IH]; cbn; intros i; auto.
  - rewrite Nat.add_0_r. destruct (run_from w i (f a)); reflexivity.
  - rewrite IH. destruct (run_from w (S i) (k (w i c))) as [t r].
    destruct r; cbn; auto.
    rewrite ?Nat.add_succ_r; cbn.
    destruct (run_from w (S (i + List.length t)) (f a)); reflexivity.
Qed.

(** A handler whose whole body sits in a [try] with a returning [catch]
    never rejects. *)
Lemma try_catch_never_rejects {A} (p : Prog A) (h : Error -> A) :
  always (try_catch p (fun e => Ret (h e))) (fun _ r => forall e, r <> Rejects e).
Proof.
  induction p as [a | e | | c k IH]; cbn; try discriminate.
  intros o. apply IH.
Qed.

(** ** Calls of a run *)

Section Only.
Variable Q : Call -> Prop.

Lemma only_ret {A} (a : A) : only Q (Ret a).
Proof. constructor. Qed.

Lemma only_throw {A} e : only Q (@Throw A e).
Proof. constructor. Qed.

Lemma only_spin {A} : only Q (@Spin A).
Proof. constructor. Qed.

Lemma only_lift {A} (o : Outcome A) : only Q (lift o).
Proof. destruct o; constructor. Qed.

Lemma only_await c : Q c -> only Q (await c).
Proof. intros Hc [a | e]; cbn; repeat constructor; exact Hc. Qed.

Lemma only_bind {A B} (p : Prog A) (f : A -> Prog B) :
  only Q p -> (forall a, only Q (f a)) -> only Q (bind p f).
Proof.
  intros Hp Hf. apply always_bind. eapply always_mono; [| exact Hp].
  cbn. intros t [a | e |] Ht; auto.
  eapply always_mono; [| apply Hf]. cbn. intros t' _ Ht'. apply Forall_app; auto.
Qed.

Lemma only_try_catch {A} (p : Prog A) h :
  only Q p -> (forall e, only Q (h e)) -> only Q (try_catch p h).
Proof.
  intros Hp Hh. apply always_try_catch. eapply always_mono; [| exact Hp].
  cbn. intros t [a | e |] Ht; auto.
  eapply always_mono; [| apply Hh]. cbn. intros t' _ Ht'. apply Forall_app; auto.
Qed.

Lemma only_trace {A} (p : Prog A) (w : World) :
  only Q p -> Forall (fun e => Q (ev_call e)) (trace w p).
Proof. intros Hp. exact (always_run p _ w 0%nat Hp). Qed.

End Only.

Lemma only_weaken {A} (Q Q' : Call -> Prop) (p : Prog A) :
  (forall c, Q c -> Q' c) -> only Q p -> only Q' p.
Proof.
  intros Himp. apply always_mono. intros t _ Ht.
  eapply Forall_impl; [exact Ht |]. cbn. auto.
Qed.

(** ** The config wrapper *)

Lemma validateConfig_ok (config : State) :
  validateConfig config = Returned tt <->
  is_Some (st_connection config) /\
  exists network, st_network config = Some network /\
    isTestnet (Js.toLowerCase (net_network network)) = true.
Proof.
  unfold validateConfig. split.
  - destruct (st_connection config) as [conn |]; [| discriminate].
    destruct (st_network config) as [network |]; [| discriminate].
    destruct (isTestnet _) eqn:Hallowed; [| discriminate].
    intros _. split; [eexists; reflexivity |]. exists network. auto.
  - intros [[conn Hconn] [network [Hnet Hallowed]]].
    rewrite Hconn, Hnet, Hallowed. reflexivity.
Qed.

Lemma validateConfig_unit (config : State) u :
  validateConfig config = Returned u -> validateConfig config = Returned tt.
Proof. destruct u. auto. Qed.

Lemma start_config (config : State) server :
  start config = Returned server ->
  getConfig (midlWrapper server) = config /\ validateConfig config = Returned tt.
Proof.
  unfold start, new_MidlConfigWrapper.
  destruct (validateConfig config) as [[] |] eqn:Hv; [| discriminate].
  intros [= <-]. auto.
Qed.

Lemma factory_network_allowed (MIDL_NETWORK : option string) :
  networkId MIDL_NETWORK <> "mainnet" ->
  isTestnet (Js.toLowerCase (net_network (factory_network MIDL_NETWORK))) = true.
Proof.
  intros Hid. unfold factory_network, bitcoinNetwork. cbn [net_network].
  destruct (String.eqb (networkId MIDL_NETWORK) "mainnet") eqn:Hm.
  - apply String.eqb_eq in Hm. contradiction.
  - destruct (String.eqb (networkId MIDL_NETWORK) "regtest"); reflexivity.
Qed.

(** C10. Constructing a MidlConfigWrapper succeeds exactly when the config
    state has a connection and a network whose lowercased name contains
    testnet or regtest, and throws otherwise. A server only exists over
    such a wrapper and its tools run on the config of the wrapper, so
    they work on a testnet or regtest network. The factory accepts the
    network id mainnet and maps it to the network bitcoin, which the
    wrapper rejects; every other id passes. *)
Theorem wrapper_restricts_network :
  (forall config,
      (exists w, new_MidlConfigWrapper config = Returned w) <->
      (is_Some (st_connection config) /\
       exists network, st_network config = Some network /\
         (Js.includes "testnet" (Js.toLowerCase (net_network network))
          || Js.includes "regtest" (Js.toLowerCase (net_network network))) = true))
  /\ (forall config,
         (exists w, new_MidlConfigWrapper config = Returned w)
         \/ (exists e, new_MidlConfigWrapper config = Thrown e))
  /\ (forall config server lib depth extra tool,
         start config = Returned server ->
         call_tool lib server depth extra tool = handle lib config depth extra tool
         /\ exists network, st_network config = Some network /\
              isTestnet (Js.toLowerCase (net_network network)) = true)
  /\ (forall address publicKey,
         net_id (factory_network (Some "mainnet")) = "mainnet"
         /\ net_network (factory_network (Some "mainnet")) = "bitcoin"
         /\ exists e, start (factory_state (Some "mainnet") address publicKey) = Thrown e)
  /\ (forall MIDL_NETWORK address publicKey,
         networkId MIDL_NETWORK <> "mainnet" ->
         exists server, start (factory_state MIDL_NETWORK address publicKey) = Returned server).
Proof.
  split; [| split; [| split; [| split]]].
  - intros config. rewrite <- (validateConfig_ok config).
    unfold new_MidlConfigWrapper. split.
    + intros [w Hw]. destruct (validateConfig config) as [[] |]; [reflexivity | discriminate].
    + intros ->. eexists; reflexivity.
  - intros config. unfold new_MidlConfigWrapper.
    destruct (validateConfig config); [left | right]; eexists; reflexivity.
  - intros config server lib depth extra tool Hstart.
    destruct (start_config _ _ Hstart) as [Hcfg Hvalid].
    split; [unfold call_tool; rewrite Hcfg; reflexivity |].
    apply validateConfig_ok in Hvalid. tauto.
  - intros address publicKey. split; [reflexivity | split; [reflexivity |]].
    eexists. reflexivity.
  - intros MIDL_NETWORK address publicKey Hid.
    assert (Hv : validateConfig (factory_state MIDL_NETWORK address publicKey) = Returned tt).
    { apply validateConfig_ok. split; [eexists; reflexivity |].
      eexists. split; [reflexivity |]. apply factory_network_allowed, Hid. }
    unfold start, new_MidlConfigWrapper. rewrite Hv. eexists; reflexivity.
Qed.

Lemma wrapper_restricts_network_witness :
  networkId (Some "regtest") <> "mainnet" /\
  exists server, start (factory_state (Some "regtest") "bcrt1qsender" "02ab") = Returned server.
Proof.
  split; [discriminate |].
  apply (proj2 (proj2 (proj2 (proj2 wrapper_restricts_network)))). discriminate.
Defined.

(** ** Handlers and exceptions *)

(** The handlers whose whole body is a [try] with a returning [catch]. *)
Lemma wrapped_tools_never_reject lib st depth extra tool (w : World) :
  match tool with
  | GetWalletBalance _ | EstimateBtcTransferFee _ _ _ | ValidateBitcoinAddress _ => False
  | _ => True
  end ->
  forall e, result w (handle lib st depth extra tool) <> Rejects e.
Proof.
  intros Htool. unfold result, run.
  destruct tool; try contradiction; cbn [handle];
    apply (always_run _ (fun _ r => forall e, r <> Rejects e) w 0%nat);
    apply try_catch_never_rejects.
Qed.

(** [estimate-btc-transfer-fee] awaits its providers outside of any [try]:
    what they throw leaves the handler. *)
Lemma estimate_fee_rejects lib st recipients feeRate from (w : World) account e :
  find_account lib st from = Returned (Some account) ->
  (match Js.nonzero feeRate with
   | Some _ => w 0%nat (getUTXOs (acc_address account)) = Thrown e
   | None => w 0%nat getFeeRate = Thrown e
   end) ->
  result w (estimate_btc_transfer_fee lib st recipients feeRate from) = Rejects e.
Proof.
  intros Hacc Hw. unfold result, run, estimate_btc_transfer_fee.
  rewrite Hacc. cbn.
  destruct (Js.nonzero feeRate); cbn; rewrite Hw; reflexivity.
Qed.

(** C8 (defect of the code). The handler of estimate-btc-transfer-fee has
    no try around its awaits: called with one recipient and no fee rate
    while the fee provider is unreachable, it rejects with the error of
    the provider instead of resolving to a result with isError. *)
Theorem estimate_fee_throws_to_caller :
  run offline_world
    (handle example_lib example_state 0 None
       (EstimateBtcTransferFee [mkRecipient "addr2" 1000] None None))
  = ([Ev getFeeRate (Thrown (mkError "fetch failed"))], Rejects (mkError "fetch failed")).
Proof. reflexivity. Qed.

(** ** Order of events *)

Lemma after_from_sound R Q t : forall seen,
  after_from R Q seen t ->
  forall t1 e t2, t = (t1 ++ e :: t2)%list -> Q e ->
    exists e', In e' (seen ++ t1)%list /\ R e' e.
Proof.
  induction t as [| x t IH]; intros seen Hfrom t1 e t2 Heq HQ.
  - destruct t1; discriminate.
  - destruct Hfrom as [Hx Hrest]. destruct t1 as [| y t1]; cbn in Heq.
    + injection Heq as <- <-. rewrite app_nil_r. auto.
    + injection Heq as <- ->.
      destruct (IH _ Hrest _ _ _ eq_refl HQ) as [e' [Hin HR]].
      exists e'. split; [| exact HR]. rewrite <- app_assoc in Hin. exact Hin.
Qed.

Lemma each_after_from R Q t : after_from R Q [] t -> each_after R Q t.
Proof.
  intros H t1 e t2 Heq HQ. exact (after_from_sound R Q t [] H t1 e t2 Heq HQ).
Qed.

(** A prefix without [Q] events only adds to what was seen. *)
Lemma after_from_prefix R Q pre : forall seen t,
  Forall (fun e => ~ Q e) pre ->
  after_from R Q (seen ++ pre)%list t ->
  after_from R Q seen (pre ++ t)%list.
Proof.
  induction pre as [| x pre IH]; intros seen t Hpre Hfrom; cbn.
  - rewrite app_nil_r in Hfrom. exact Hfrom.
  - inversion Hpre as [| ? ? Hx Hpre']; subst. split; [tauto |].
    apply IH; [exact Hpre' |]. rewrite <- app_assoc. exact Hfrom.
Qed.

Lemma declined_false v field :
  declined v field = false -> Js.truthy (Js.get v field) = true.
Proof.
  unfold declined. intros H. apply orb_false_elim in H as [_ H].
  apply negb_false_iff in H. exact H.
Qed.

(** ** Stepping through a handler *)

Ltac blocker p :=
  lazymatch p with
  | try_catch ?q _ => blocker q
  | bind ?q _ => blocker q
  | match ?x with _ => _ end => x
  end.

Ltac expose :=
  unfold lift, await, the_network, default_evm_address, sendBTCTransactions,
    wait_for_receipt, bundled_compiler_version, auto_verify, contracts_values,
    default_target;
  cbn [always try_catch bind].

Ltac step :=
  expose;
  lazymatch goal with
  | |- forall o : Outcome _, _ => intros [? | ?]
  | |- always ?p _ => let x := blocker p in destruct x eqn:?
  end.

Ltac only_step :=
  first
    [ apply only_ret | apply only_throw | apply only_spin | apply only_lift
    | apply only_await; reflexivity
    | apply only_try_catch; [| intros ?]
    | apply only_bind; [| intros ?]
    | match goal with
      | |- only _ (match ?x with _ => _ end) => destruct x
      end ].

Ltac only_auto :=
  repeat first
    [ only_step
    | progress unfold the_network, default_evm_address, sendBTCTransactions,
        wait_for_receipt, bundled_compiler_version, auto_verify, contracts_values,
        default_target, deploy_artifact, compile_and_deploy, deploy_failed ].

(** ** Import resolution only fetches *)

Lemma only_resolve_loop (Q : Call -> Prop) resolve paths :
  (forall url, Q (fetch url None)) ->
  (forall content sources, only Q (resolve content sources)) ->
  forall sources, only Q (resolve_loop resolve paths sources).
Proof.
  intros Hfetch Hresolve.
  induction paths as [| importPath rest IH]; intros sources; cbn [resolve_loop].
  - apply only_ret.
  - destruct (negb _ && negb _); [| apply IH].
    destruct (import_url importPath) as [url |]; [| apply IH].
    apply only_bind; [apply only_await, Hfetch |]. intros res.
    destruct (res_ok res); [| apply IH].
    apply only_bind; [apply only_lift |]. intros importedSource.
    apply only_bind; [apply Hresolve |]. intros sources'. apply IH.
Qed.

Lemma only_resolveImports (Q : Call -> Prop) depth :
  (forall url, Q (fetch url None)) ->
  forall content sources, only Q (resolveImports depth content sources).
Proof.
  intros Hfetch. induction depth as [| depth IH]; intros content sources; cbn [resolveImports].
  - apply only_spin.
  - apply only_resolve_loop; assumption.
Qed.

(** ** The approval gate *)

Lemma ungated_tools_never_elicit lib st depth extra tool :
  gated_tool tool = false ->
  only (fun c => is_elicitation c = false) (handle lib st depth extra tool).
Proof.
  intros Hg.
  destruct tool; try discriminate Hg; cbn [handle];
    unfold get_wallet_balance, estimate_btc_transfer_fee, decode_psbt,
      validate_bitcoin_address, get_address_transactions, get_blockchain_info,
      prepare_btc_transfer, broadcast_transaction, prepare_contract_deploy,
      call_contract, deploy_contract_source, verify_contract.
  all: repeat first [ apply only_resolveImports; reflexivity | only_auto ].
Qed.

Ltac affirm H :=
  intros _; eexists; split; [left; reflexivity |];
  cbn [affirmative sign_elicitation broadcast_elicitation el_property];
  apply declined_false; exact H.

Lemma request_psbt_signature_gated lib st psbt address extra :
  always (request_psbt_signature lib st psbt address extra)
    (fun t _ => after_from (fun e' _ => affirmative e' = true)
                  (fun e => sensitive (ev_call e) = true) [] t).
Proof.
  unfold request_psbt_signature.
  repeat step; expose; cbn [after_from sensitive ev_call app];
    repeat split; try discriminate.
  all: match goal with H : declined _ _ = false |- _ => affirm H end.
Qed.

Lemma request_transaction_broadcast_gated st txHex extra :
  always (request_transaction_broadcast st txHex extra)
    (fun t _ => after_from (fun e' _ => affirmative e' = true)
                  (fun e => sensitive (ev_call e) = true) [] t).
Proof.
  unfold request_transaction_broadcast.
  repeat step; expose; cbn [after_from sensitive ev_call app];
    repeat split; try discriminate.
  all: match goal with H : declined _ _ = false |- _ => affirm H end.
Qed.

Lemma gated_tools_gate lib st depth extra tool (w : World) :
  gated_tool tool = true -> gated (trace w (handle lib st depth extra tool)).
Proof.
  intros Hg. unfold gated, preceded_by.
  assert (Hfrom : after_from (fun e' _ => affirmative e' = true)
                    (fun e => sensitive (ev_call e) = true) []
                    (trace w (handle lib st depth extra tool))).
  { unfold trace, run. destruct tool; try discriminate Hg; cbn [handle].
    - exact (always_run _ _ w 0%nat (request_psbt_signature_gated lib st psbt address extra)).
    - exact (always_run _ _ w 0%nat (request_transaction_broadcast_gated st txHex extra)). }
  exact (each_after_from _ _ _ Hfrom).
Qed.


Ltac close_gate :=
  unfold closed; intros HF;
  first
    [ solve [ split; [ repeat (constructor; try reflexivity)
                     | eexists; split; reflexivity ] ]
    | exfalso; inversion HF as [| ? ? Ha _];
      cbn [affirmative sign_elicitation broadcast_elicitation el_property] in Ha;
      match goal with
      | H : declined _ _ = false |- _ => rewrite (declined_false _ _ H) in Ha
      end; discriminate ].

Lemma request_psbt_signature_closed lib st psbt address extra :
  always (request_psbt_signature lib st psbt address extra) closed.
Proof.
  unfold request_psbt_signature. repeat step; expose; close_gate.
Qed.

Lemma request_transaction_broadcast_closed st txHex extra :
  always (request_transaction_broadcast st txHex extra) closed.
Proof.
  unfold request_transaction_broadcast. repeat step; expose; close_gate.
Qed.

Lemma no_channel_no_call lib st depth tool extra (w : World) :
  gated_tool tool = true -> can_elicit extra = false ->
  trace w (handle lib st depth extra tool) = [].
Proof.
  intros Hg Hc. unfold trace, run.
  destruct tool; try discriminate Hg; cbn [handle];
    unfold request_psbt_signature, request_transaction_broadcast;
    rewrite Hc; reflexivity.
Qed.

(** C1 (amended). Only request-psbt-signature and
    request-transaction-broadcast enter the approval gate: in every run of
    these two tools a signing or broadcast call comes after an elicitation
    that was answered with a truthy affirmative field. No other tool ever
    consults the elicitation channel, whatever it calls. *)
Theorem approval_gate_scope lib st depth extra tool (w : World) :
  if gated_tool tool
  then gated (trace w (handle lib st depth extra tool))
  else Forall (fun e => is_elicitation (ev_call e) = false)
         (trace w (handle lib st depth extra tool)).
Proof.
  destruct (gated_tool tool) eqn:Hg.
  - apply gated_tools_gate, Hg.
  - apply (only_trace (fun c => is_elicitation c = false)).
    apply ungated_tools_never_elicit, Hg.
Qed.

(** C1 as stated fails: broadcast-transaction broadcasts a transaction in a
    run without any elicitation. *)
Lemma broadcast_transaction_is_ungated :
  trace live_world (handle example_lib example_state 0 None (BroadcastTransaction "0200beef"))
  = [Ev (broadcastTransaction "0200beef") (Returned "txid01")]
  /\ ~ gated (trace live_world
                (handle example_lib example_state 0 None (BroadcastTransaction "0200beef"))).
Proof.
  split; [reflexivity |].
  intros Hgated.
  destruct (Hgated [] (Ev (broadcastTransaction "0200beef") (Returned "txid01")) []
              eq_refl eq_refl) as [e' [[] _]].
Qed.

(** call-contract finalizes, signs and submits in a run without any
    elicitation as well. *)
Lemma call_contract_is_ungated :
  calls (trace live_world
           (handle example_lib example_state 0 None
              (CallContract "0xC0" [] "increment" None None None)))
  = let intention :=
      mkIntention (mkEvmTransaction "btc" (Some "0xC0") "0xcall:increment" None (Some 777)) None in
    let client := walletClient (mkChain 777) in
    [addTxIntention intention;
     finalizeBTCTransaction [intention] client None;
     signIntention client intention [intention] "btcid01" Bip322;
     request client (mkRpc "eth_sendBTCTransactions" (["0xsigned:btcid01"], "0200beef"))
       (mkRequestOptions 0);
     waitForTransactionReceipt client "0xhash:0xsigned:btcid01" 60000].
Proof. reflexivity. Qed.

Lemma affirmative_in_schema e : affirmative e = true -> in_schema e -> affirmed_true e.
Proof.
  destruct e as [c o]. destruct c; try discriminate. destruct o as [v | err]; [| discriminate].
  cbn. intros Htruthy [Hundefined | [b Hbool]].
  - rewrite Hundefined in Htruthy. discriminate.
  - rewrite Hbool in *. cbn in Htruthy. congruence.
Qed.

Lemma gated_in_schema t :
  gated t -> Forall in_schema t ->
  preceded_by affirmed_true (fun e => sensitive (ev_call e) = true) t.
Proof.
  intros Hgated Hschema t1 e t2 Heq Hsensitive.
  destruct (Hgated t1 e t2 Heq Hsensitive) as [e' [Hin Haffirmative]].
  exists e'. split; [exact Hin |]. apply affirmative_in_schema; [exact Haffirmative |].
  rewrite List.Forall_forall in Hschema. apply Hschema. subst t. apply in_or_app. left. exact Hin.
Qed.

(** C2. In request-psbt-signature and request-transaction-broadcast the
    gate fails closed: without the channel no call is made at all; in a
    run without an elicitation that was answered with a truthy affirmative
    field (the channel is absent, throws, answers nothing, answers without
    the field or with false) no signing or broadcast call is made and the
    handler resolves to an error result; a signing or broadcast call is
    made only after an answer whose affirmative field is truthy. The
    handlers request that field as a required boolean: in a run whose
    answers are in that schema a signing or broadcast call is made only
    after an answer that carries the boolean true. *)
Theorem approval_gate_fails_closed lib st depth extra tool (w : World) :
  gated_tool tool = true ->
  let t := trace w (handle lib st depth extra tool) in
  let r := result w (handle lib st depth extra tool) in
  (can_elicit extra = false -> t = [])
  /\ (Forall (fun e => affirmative e = false) t ->
      Forall (fun e => sensitive (ev_call e) = false) t
      /\ exists res, r = Resolves res /\ isError res = true)
  /\ gated t
  /\ (forall req v,
         v = Js.Undefined \/ v = Js.Null
         \/ Js.get v (el_property req) = Js.Undefined
         \/ Js.get v (el_property req) = Js.Bool false ->
         affirmative (Ev (sendRequest req) (Returned v)) = false)
  /\ (forall req e, affirmative (Ev (sendRequest req) (Thrown e)) = false)
  /\ (forall req v b,
         Js.get v (el_property req) = Js.Bool b ->
         affirmative (Ev (sendRequest req) (Returned v)) = true -> b = true)
  /\ (Forall in_schema t ->
      preceded_by affirmed_true (fun e => sensitive (ev_call e) = true) t).
Proof.
  intros Hg t r. subst t r.
  split; [apply no_channel_no_call, Hg |].
  split; [| split; [apply gated_tools_gate, Hg |]].
  - unfold trace, result, run.
    destruct tool; try discriminate Hg; cbn [handle].
    + exact (always_run _ closed w 0%nat (request_psbt_signature_closed lib st psbt address extra)).
    + exact (always_run _ closed w 0%nat (request_transaction_broadcast_closed st txHex extra)).
  - split; [| split; [| split]].
    + intros req v [-> | [-> | [Hv | Hv]]]; cbn; try rewrite Hv; reflexivity.
    + reflexivity.
    + intros req v b Hv. cbn. rewrite Hv. auto.
    + apply gated_in_schema. apply gated_tools_gate, Hg.
Qed.

Lemma approval_gate_fails_closed_witness :
  let tool := RequestTransactionBroadcast "0200beef" in
  let extra := Some (mkExtra true) in
  let w := answering_world (Js.Object [("confirm", Js.Bool false)]) in
  gated_tool tool = true
  /\ trace w (handle example_lib example_state 0 extra tool)
     = [Ev (sendRequest broadcast_elicitation)
          (Returned (Js.Object [("confirm", Js.Bool false)]))]
  /\ result w (handle example_lib example_state 0 extra tool)
     = Resolves (failure "Broadcast cancelled by user.")
  /\ gated (trace w (handle example_lib example_state 0 extra tool)).
Proof.
  cbv zeta. split; [reflexivity |]. split; [reflexivity |]. split; [reflexivity |].
  apply (approval_gate_fails_closed example_lib example_state 0
           (Some (mkExtra true)) (RequestTransactionBroadcast "0200beef")
           (answering_world (Js.Object [("confirm", Js.Bool false)])) eq_refl).
Defined.

(** A second run: the human approves, and the broadcast follows the answer
    that carries the boolean true. *)
Lemma approval_gate_opens_on_true :
  let tool := RequestTransactionBroadcast "0200beef" in
  let w := answering_world (Js.Object [("confirm", Js.Bool true)]) in
  calls (trace w (handle example_lib example_state 0 (Some (mkExtra true)) tool))
  = [sendRequest broadcast_elicitation; broadcastTransaction "0200beef"]
  /\ Forall in_schema (trace w (handle example_lib example_state 0 (Some (mkExtra true)) tool)).
Proof.
  cbv zeta. split; [reflexivity |].
  unfold trace, run. cbn.
  constructor; [right; exists true; reflexivity |]. constructor; [exact I | constructor].
Qed.

(** The hypothesis on the schema is needed: the guard tests the field for
    truthiness, so that an answer outside of the schema, whose field is a
    non-empty string, passes it. *)
Lemma gate_accepts_truthy_non_boolean :
  let t := trace (answering_world (Js.Object [("approved", Js.Str "no")]))
             (handle example_lib example_state 0 (Some (mkExtra true))
                (RequestPsbtSignature "cHNidA==" None)) in
  calls t = [sendRequest sign_elicitation;
             signPSBT (mkSignPSBT "cHNidA==" [("bcrt1qsender", [0])] false)]
  /\ Exists (fun e => sensitive (ev_call e) = true) t
  /\ Forall (fun e => ~ affirmed_true e) t
  /\ ~ Forall in_schema t.
Proof.
  cbv zeta. split; [reflexivity |]. split; [| split].
  - apply Exists_cons_tl, Exists_cons_hd. reflexivity.
  - repeat constructor; cbn; try discriminate; tauto.
  - intros Hschema. inversion Hschema as [| ? ? Hanswer _]; subst.
    cbn in Hanswer. destruct Hanswer as [Hanswer | [b Hanswer]]; discriminate Hanswer.
Qed.

(** ** The deployment after its import resolution *)

Lemma always_try_bind {A B} (p : Prog A) (f : A -> Prog B) h post :
  always p (fun t r =>
              match r with
              | Resolves a => always (try_catch (f a) h) (fun t' r' => post (t ++ t')%list r')
              | Rejects e => always (h e) (fun t' r' => post (t ++ t')%list r')
              | Pending => post t Pending
              end) ->
  always (try_catch (bind p f) h) post.
Proof.
  revert post. induction p as [a | e | | c k IH]; cbn; intros post Hp; auto.
Qed.

(** A property that a prefix of fetches does not disturb holds of every
    run of [deploy-contract-source] when it holds of every run of the
    steps after the import resolution. *)
Lemma deploy_contract_source_always lib st depth sourceCode contractName args feeRate
    (P : list Event -> Completion ToolResult -> Prop) :
  (forall pre t r, Forall is_fetch pre -> P t r -> P (pre ++ t)%list r) ->
  (forall sources,
      always (try_catch (compile_and_deploy lib st sourceCode contractName args feeRate sources)
                deploy_failed) P) ->
  (forall msg, P [] (Resolves (failure msg))) ->
  P [] Pending ->
  always (deploy_contract_source lib st depth sourceCode contractName args feeRate) P.
Proof.
  intros Hpre Hrest Hfail Hpend. unfold deploy_contract_source.
  apply always_try_bind. eapply always_mono;
    [| apply (only_resolveImports is_fetch_call depth); intros; exact I].
  cbn beta. intros pre [sources | e |] Hfetch.
  - eapply always_mono; [| apply Hrest]. cbn beta. intros t r HP. apply Hpre; assumption.
  - cbn. rewrite <- (app_nil_r pre) at 1. rewrite app_nil_r. apply Hpre; [assumption | apply Hfail].
  - rewrite <- (app_nil_r pre). apply Hpre; [assumption | apply Hpend].
Qed.

(** ** Cross-chain linking *)

Lemma after_from_weaken R Q t : forall seen seen',
  (forall e, In e seen -> In e seen') ->
  after_from R Q seen t -> after_from R Q seen' t.
Proof.
  induction t as [| x t IH]; intros seen seen' Hincl Hfrom; cbn; [exact I |].
  destruct Hfrom as [Hx Hrest]. split.
  - intros HQ. destruct (Hx HQ) as [e' [Hin HR]]. exists e'. auto.
  - apply (IH (seen ++ [x])%list); [| exact Hrest].
    intros e Hin. apply in_app_or in Hin as [Hin | Hin]; apply in_or_app; auto.
Qed.

Lemma after_from_fetches R Q pre t :
  (forall e, is_fetch e -> ~ Q e) ->
  Forall is_fetch pre -> after_from R Q [] t -> after_from R Q [] (pre ++ t)%list.
Proof.
  intros HQ Hpre Hfrom. apply after_from_prefix.
  - eapply Forall_impl; [exact Hpre |]. exact HQ.
  - eapply after_from_weaken; [| exact Hfrom]. intros e [].
Qed.

Lemma btcTxId_some btcTx tx : btc_tx btcTx = Some tx -> btcTxId btcTx = tx_id tx.
Proof.
  unfold btcTxId, Js.or_else. intros ->. cbn.
  destruct (String.eqb (tx_id tx) "") eqn:He; [| reflexivity].
  apply String.eqb_eq in He. congruence.
Qed.

Lemma linked_from_order t : linked_from t -> linking_order t.
Proof.
  intros [H1 [H2 H3]]. repeat split; apply each_after_from; assumption.
Qed.

Lemma linked_from_fetches pre t :
  Forall is_fetch pre -> linked_from t -> linked_from (pre ++ t)%list.
Proof.
  intros Hpre [H1 [H2 H3]].
  repeat split; apply after_from_fetches; try assumption;
    intros [c o]; unfold is_fetch, is_signIntention, is_request; cbn;
    destruct c; cbn; tauto.
Qed.

Ltac pick_in l :=
  lazymatch l with
  | ?x :: ?l' =>
      first [ solve [ exists x; split;
                      [ cbn [In]; repeat first [left; reflexivity | right]
                      | cbn; repeat split; auto using btcTxId_some ] ]
            | pick_in l' ]
  end.

Ltac order_leaf :=
  unfold linked_from; cbn [after_from app];
  repeat match goal with
    | |- _ /\ _ => split
    | |- True => exact I
    | |- _ -> _ =>
        let HQ := fresh "HQ" in
        intros HQ;
        first [ solve [cbn in HQ; contradiction]
              | clear HQ;
                lazymatch goal with
                | |- exists e', In e' ?seen /\ _ => pick_in seen
                end ]
    end.

Lemma call_contract_linked lib st contractAddress abi functionName args value feeRate :
  always (call_contract lib st contractAddress abi functionName args value feeRate)
    (fun t _ => linked_from t).
Proof.
  unfold call_contract. repeat step; expose; order_leaf.
Qed.

Lemma compile_and_deploy_linked lib st sourceCode contractName args feeRate sources :
  always (try_catch (compile_and_deploy lib st sourceCode contractName args feeRate sources)
            deploy_failed)
    (fun t _ => linked_from t).
Proof.
  unfold compile_and_deploy, deploy_artifact, deploy_failed.
  repeat step; expose; order_leaf.
Qed.

Lemma btcTxHex_some btcTx tx : btc_tx btcTx = Some tx -> btcTxHex btcTx = tx_hex tx.
Proof.
  unfold btcTxHex, Js.or_else. intros ->. cbn.
  destruct (String.eqb (tx_hex tx) "") eqn:He; [| reflexivity].
  apply String.eqb_eq in He. congruence.
Qed.

Lemma steps_fetches pre t : Forall is_fetch pre -> steps (pre ++ t)%list = steps t.
Proof.
  unfold steps. induction 1 as [| [c o] pre He Hpre IH]; cbn; [reflexivity |].
  unfold is_fetch in He. cbn in He. destruct c; try contradiction. cbn. exact IH.
Qed.

Lemma linked_flow_fetches pre t r :
  Forall is_fetch pre -> linked_flow t r -> linked_flow (pre ++ t)%list r.
Proof.
  intros Hpre Hflow. unfold linked_flow. rewrite (steps_fetches pre t Hpre). exact Hflow.
Qed.

Ltac link_facts := cbn; repeat split; auto using btcTxId_some.

Ltac flow_steps :=
  first
    [ left; reflexivity
    | right; left; eexists; split; [reflexivity | exact I]
    | right; right; left; eexists _, _; split; [reflexivity | link_facts]
    | right; right; right; eexists _, _, _; split; [reflexivity |];
      split; [link_facts |]; split; link_facts ].

Ltac flow_success :=
  let res := fresh "res" in
  let Hres := fresh "Hres" in
  let Herr := fresh "Herr" in
  intros res Hres Herr;
  first
    [ discriminate Hres
    | injection Hres as <-;
      first
        [ discriminate Herr
        | eexists _, _, _; split; [reflexivity |];
          split; [link_facts |]; split; [link_facts |]; split; [link_facts | exact I] ] ].

Ltac flow_leaf :=
  unfold linked_flow; cbn [steps List.filter is_step ev_call];
  split; [flow_steps | flow_success].

Lemma call_contract_flow lib st contractAddress abi functionName args value feeRate :
  always (call_contract lib st contractAddress abi functionName args value feeRate) linked_flow.
Proof.
  unfold call_contract. repeat step; expose; flow_leaf.
Qed.

Lemma compile_and_deploy_flow lib st sourceCode contractName args feeRate sources :
  always (try_catch (compile_and_deploy lib st sourceCode contractName args feeRate sources)
            deploy_failed)
    linked_flow.
Proof.
  unfold compile_and_deploy, deploy_artifact, deploy_failed.
  repeat step; expose; flow_leaf.
Qed.

(** C3. In call-contract and deploy-contract-source the linking steps of
    every run are, in this order and each at most once, the finalization,
    the signing and the submission. The signing signs, with BIP322 and for
    the intention and client of the finalization, over the id taken from
    the transaction that this finalization returned; the submission
    carries the signed intention that this signing returned together with
    the raw transaction of the same finalization. A run that resolves to a
    success made all three steps and its submission returned. The id and
    the raw transaction are those of the transaction of the finalization,
    and the empty string when the finalization carries no transaction. *)
Theorem cross_chain_linking_order lib st depth extra tool (w : World) :
  tool_name tool = "call-contract" \/ tool_name tool = "deploy-contract-source" ->
  linking_order (trace w (handle lib st depth extra tool))
  /\ linked_flow (trace w (handle lib st depth extra tool))
       (result w (handle lib st depth extra tool))
  /\ (forall btcTx,
         match btc_tx btcTx with
         | Some tx => btcTxId btcTx = tx_id tx /\ btcTxHex btcTx = tx_hex tx
         | None => btcTxId btcTx = "" /\ btcTxHex btcTx = ""
         end).
Proof.
  intros Htool. split; [| split].
  - apply linked_from_order. unfold trace, run.
    destruct tool; cbn [tool_name] in Htool;
      try (destruct Htool as [Htool | Htool]; discriminate Htool); cbn [handle].
    + exact (always_run _ (fun t _ => linked_from t) w 0%nat
               (call_contract_linked lib st contractAddress abi functionName args value feeRate)).
    + apply (always_run _ (fun t _ => linked_from t) w 0%nat).
      apply deploy_contract_source_always.
      * intros pre t r Hpre Ht. apply linked_from_fetches; assumption.
      * apply compile_and_deploy_linked.
      * intros msg. repeat split.
      * repeat split.
  - unfold trace, result, run.
    destruct tool; cbn [tool_name] in Htool;
      try (destruct Htool as [Htool | Htool]; discriminate Htool); cbn [handle].
    + exact (always_run _ linked_flow w 0%nat
               (call_contract_flow lib st contractAddress abi functionName args value feeRate)).
    + apply (always_run _ linked_flow w 0%nat).
      apply deploy_contract_source_always.
      * intros pre t r. apply linked_flow_fetches.
      * apply compile_and_deploy_flow.
      * intros msg. split; [left; reflexivity | intros res [= <-] Herr; discriminate Herr].
      * split; [left; reflexivity | intros res Hres; discriminate Hres].
  - intros btcTx. destruct (btc_tx btcTx) as [tx |] eqn:Htx.
    + split; [apply btcTxId_some, Htx | apply btcTxHex_some, Htx].
    + unfold btcTxId, btcTxHex. rewrite Htx. split; reflexivity.
Qed.

Lemma cross_chain_linking_order_witness :
  let tool := CallContract "0xC0" [] "increment" None None None in
  let intention :=
    mkIntention (mkEvmTransaction "btc" (Some "0xC0") "0xcall:increment" None (Some 777)) None in
  let client := walletClient (mkChain 777) in
  let btcTx := mkBtcResponse "cHNidP8=" (Some (mkBtcTransaction "btcid01" "0200beef")) in
  (tool_name tool = "call-contract" \/ tool_name tool = "deploy-contract-source")
  /\ steps (trace live_world (handle example_lib example_state 0 None tool))
     = [Ev (finalizeBTCTransaction [intention] client None) (Returned btcTx);
        Ev (signIntention client intention [intention] "btcid01" Bip322)
          (Returned "0xsigned:btcid01");
        Ev (request client (mkRpc "eth_sendBTCTransactions" (["0xsigned:btcid01"], "0200beef"))
              (mkRequestOptions 0))
          (Returned ["0xevmhash"])]
  /\ (exists res,
         result live_world (handle example_lib example_state 0 None tool) = Resolves res
         /\ isError res = false)
  /\ linking_order (trace live_world (handle example_lib example_state 0 None tool))
  /\ linked_flow (trace live_world (handle example_lib example_state 0 None tool))
       (result live_world (handle example_lib example_state 0 None tool)).
Proof.
  cbv zeta. split; [left; reflexivity |]. split; [reflexivity |].
  split; [eexists; split; reflexivity |].
  destruct (cross_chain_linking_order example_lib example_state 0 None
              (CallContract "0xC0" [] "increment" None None None) live_world
              (or_introl eq_refl)) as [Horder [Hflow _]].
  split; [exact Horder | exact Hflow].
Defined.

(** ** Dual submission *)

Lemma rpc_requests_none t :
  Forall (fun e => is_rpc (ev_call e) = false) t -> rpc_requests t = [].
Proof.
  unfold rpc_requests, calls. induction 1 as [| e t He Ht IH]; cbn; [reflexivity |].
  rewrite He. exact IH.
Qed.

Lemma rpc_requests_fetches pre t :
  Forall is_fetch pre -> rpc_requests (pre ++ t)%list = rpc_requests t.
Proof.
  unfold rpc_requests, calls. induction 1 as [| [c o] pre He Hpre IH]; cbn; [reflexivity |].
  unfold is_fetch in He. cbn in He. destruct c; try contradiction. cbn. exact IH.
Qed.

Ltac submission_leaf :=
  unfold single_submission; cbn [rpc_requests calls List.map List.filter ev_call is_rpc];
  first [ left; reflexivity
        | right; eexists; split; [reflexivity | repeat eexists] ].

Lemma call_contract_submits_once lib st contractAddress abi functionName args value feeRate :
  always (call_contract lib st contractAddress abi functionName args value feeRate)
    (fun t _ => single_submission t).
Proof.
  unfold call_contract. repeat step; expose; submission_leaf.
Qed.

Lemma compile_and_deploy_submits_once lib st sourceCode contractName args feeRate sources :
  always (try_catch (compile_and_deploy lib st sourceCode contractName args feeRate sources)
            deploy_failed)
    (fun t _ => single_submission t).
Proof.
  unfold compile_and_deploy, deploy_artifact, deploy_failed.
  repeat step; expose; submission_leaf.
Qed.

Lemma other_tools_never_request lib st depth extra tool :
  match tool with
  | CallContract _ _ _ _ _ _ | DeployContractSource _ _ _ _ => False
  | _ => True
  end ->
  only (fun c => is_rpc c = false) (handle lib st depth extra tool).
Proof.
  intros Htool.
  destruct tool; try contradiction; cbn [handle];
    unfold get_wallet_balance, estimate_btc_transfer_fee, decode_psbt,
      validate_bitcoin_address, get_address_transactions, get_blockchain_info,
      prepare_btc_transfer, request_psbt_signature, request_transaction_broadcast,
      broadcast_transaction, prepare_contract_deploy, verify_contract.
  all: repeat first [ apply only_resolveImports; reflexivity | only_auto ].
Qed.

(** C4. The helper sendBTCTransactions issues exactly one request: method
    eth_sendBTCTransactions, the serialized transactions and the raw
    Bitcoin transaction together as its two parameters, retry count zero.
    In every run of every tool the trace holds no client request at all or
    exactly one, which is such a request with one signed intention: there
    is no second submission and no request of another method. *)
Theorem dual_submission_single_request :
  (forall client serializedTransactions btcTransaction (w : World),
      calls (trace w (sendBTCTransactions client serializedTransactions btcTransaction))
      = [request client
           (mkRpc "eth_sendBTCTransactions" (serializedTransactions, btcTransaction))
           (mkRequestOptions 0)])
  /\ (forall lib st depth extra tool (w : World),
         single_submission (trace w (handle lib st depth extra tool))).
Proof.
  split.
  { intros client serializedTransactions btcTransaction w.
    unfold calls, trace, run, sendBTCTransactions, await. cbn.
    destruct (w 0%nat _); reflexivity. }
  intros lib st depth extra tool w.
  assert (Hother : match tool with
                   | CallContract _ _ _ _ _ _ | DeployContractSource _ _ _ _ => False
                   | _ => True
                   end -> single_submission (trace w (handle lib st depth extra tool))).
  { intros Htool. left. apply rpc_requests_none.
    apply (only_trace (fun c => is_rpc c = false)).
    apply other_tools_never_request, Htool. }
  unfold trace, run in *.
  destruct tool; try (apply Hother; exact I); cbn [handle].
  - exact (always_run _ (fun t _ => single_submission t) w 0%nat
             (call_contract_submits_once lib st contractAddress abi functionName args value feeRate)).
  - apply (always_run _ (fun t _ => single_submission t) w 0%nat).
    apply deploy_contract_source_always.
    + intros pre t r Hpre Ht. unfold single_submission.
      rewrite (rpc_requests_fetches pre t Hpre). exact Ht.
    + apply compile_and_deploy_submits_once.
    + intros msg. left. reflexivity.
    + left. reflexivity.
Qed.

(** ** The receipt poll *)

Lemma startsWith_app p s : Js.startsWith p (p +:+ s) = true.
Proof.
  induction p as [| a p IH]; [reflexivity |].
  change (String a p +:+ s) with (String a (p +:+ s)). cbn.
  rewrite Ascii.eqb_refl. exact IH.
Qed.

Lemma includes_here p s : Js.includes p (p +:+ s) = true.
Proof.
  destruct (p +:+ s) eqn:Heq; cbn; rewrite <- Heq, startsWith_app; reflexivity.
Qed.

Lemma includes_app_r p x s : Js.includes p s = true -> Js.includes p (x +:+ s) = true.
Proof.
  intros Hs. induction x as [| a x IH]; [exact Hs |].
  change (String a x +:+ s) with (String a (x +:+ s)). cbn.
  rewrite IH. apply orb_true_r.
Qed.









(** ** Fee estimation *)

Ltac text_holds := repeat first [ apply includes_here | apply includes_app_r ].

Lemma includes_end p : Js.includes p p = true.
Proof.
  destruct p as [| a p]; [reflexivity |]. cbn.
  rewrite Ascii.eqb_refl.
  assert (H : Js.startsWith p p = true).
  { pose proof (startsWith_app p "") as H. revert H.
    replace (p +:+ "") with p; [auto |].
    clear. induction p as [| b p IH]; [reflexivity |].
    change (String b p +:+ "") with (String b (p +:+ "")). rewrite <- IH. reflexivity. }
  rewrite H. reflexivity.
Qed.

(** C6. When estimate-btc-transfer-fee reaches its coin selection (an
    account is found, the fee rate is given or getFeeRate returned, and
    getUTXOs returned), it returns the insufficient-funds error result if
    coinSelect gave no inputs or no outputs, and otherwise a success
    payload whose text holds the fee, the fee rate used and the numbers of
    inputs and outputs. *)
Theorem estimate_fee_reports_selection lib st depth extra recipients feeRate from
    (w : World) account rate utxos selected :
  find_account lib st from = Returned (Some account) ->
  match Js.nonzero feeRate with
  | Some given =>
      rate = given /\ w 0%nat (getUTXOs (acc_address account)) = Returned utxos
  | None =>
      (exists fees, w 0%nat getFeeRate = Returned fees /\ rate = hourFee fees)
      /\ w 1%nat (getUTXOs (acc_address account)) = Returned utxos
  end ->
  coinSelect lib utxos
    (List.map (fun r => mkTarget (rcp_address r) (rcp_amount r)) recipients) rate
  = Returned selected ->
  match sel_inputs selected, sel_outputs selected with
  | Some inputs, Some outputs =>
      exists res,
        result w (handle lib st depth extra (EstimateBtcTransferFee recipients feeRate from))
        = Resolves res
        /\ isError res = false
        /\ text res = estimate_fee_text lib (sel_fee selected) rate
                        (List.length inputs) (List.length outputs)
        /\ Js.includes (pretty (sel_fee selected)) (text res) = true
        /\ Js.includes (pretty rate) (text res) = true
        /\ Js.includes (pretty (List.length inputs)) (text res) = true
        /\ Js.includes (pretty (List.length outputs)) (text res) = true
  | _, _ =>
      result w (handle lib st depth extra (EstimateBtcTransferFee recipients feeRate from))
      = Resolves (failure "Error: Insufficient funds or no suitable UTXOs found for this transfer.")
  end.
Proof.
  intros Hacc Hw Hsel.
  assert (Hrun : result w (handle lib st depth extra (EstimateBtcTransferFee recipients feeRate from))
                 = Resolves (match sel_inputs selected, sel_outputs selected with
                             | Some inputs, Some outputs =>
                                 ok (estimate_fee_text lib (sel_fee selected) rate
                                       (List.length inputs) (List.length outputs))
                             | _, _ => insufficient_funds
                             end)).
  { unfold result, run. cbn [handle]. unfold estimate_btc_transfer_fee.
    rewrite Hacc. cbn.
    destruct (Js.nonzero feeRate) as [given |].
    - destruct Hw as [-> Hutxos]. cbn. rewrite Hutxos. cbn. rewrite Hsel. cbn.
      destruct (sel_inputs selected), (sel_outputs selected); reflexivity.
    - destruct Hw as [[fees [Hfees ->]] Hutxos]. cbn. rewrite Hfees. cbn.
      rewrite Hutxos. cbn. rewrite Hsel. cbn.
      destruct (sel_inputs selected), (sel_outputs selected); reflexivity. }
  destruct (sel_inputs selected) as [inputs |], (sel_outputs selected) as [outputs |];
    try exact Hrun.
  eexists. split; [exact Hrun |]. split; [reflexivity |]. split; [reflexivity |].
  cbn [text ok]. unfold estimate_fee_text.
  repeat split; text_holds; apply includes_end.
Qed.

Lemma estimate_fee_reports_selection_witness :
  exists res,
    result live_world
      (handle example_lib example_state 0 None
         (EstimateBtcTransferFee [mkRecipient "addr2" 10000] (Some 5) None))
    = Resolves res
    /\ isError res = false
    /\ text res = estimate_fee_text example_lib 550 5 1 1.
Proof.
  destruct (estimate_fee_reports_selection example_lib example_state 0 None
              [mkRecipient "addr2" 10000] (Some 5) None live_world
              (mkAccount "bcrt1qsender" "02ab" "payment" "p2wpkh") 5
              [mkUTXO "aa" 0 15000]
              (mkSelection (Some [mkUTXO "aa" 0 15000]) (Some [mkTarget "addr2" 10000]) 550)
              eq_refl (conj eq_refl eq_refl) eq_refl)
    as [res [Hres [Herr [Htext _]]]].
  exists res. split; [exact Hres |]. split; [exact Herr | exact Htext].
Defined.

(** With no spendable output the same call reports insufficient funds. *)
Lemma estimate_fee_insufficient_funds :
  result (fun i c => match c return Outcome (resp c) with
                     | getUTXOs _ => Returned []
                     | c' => live_world i c'
                     end)
    (handle example_lib example_state 0 None
       (EstimateBtcTransferFee [mkRecipient "addr2" 10000] (Some 5) None))
  = Resolves insufficient_funds.
Proof. reflexivity. Qed.

(** ** Address prediction *)













(** ** Import resolution on a chain of imports *)

Lemma import_scan_skip_all s : forall n, (String.length s <= n)%nat -> import_scan n s = [].
Proof.
  induction s as [| c s IH]; intros n Hn; [reflexivity |].
  cbn in Hn. destruct n as [| n]; [lia |]. cbn. apply IH. lia.
Qed.

Lemma span_letters k rest :
  span (fun c => negb (is_quote c)) (letters k +:+ String (ascii_of_nat 34) rest)
  = (letters k, String (ascii_of_nat 34) rest).
Proof.
  induction k as [| k IH]; [reflexivity |].
  change (letters (S k) +:+ String (ascii_of_nat 34) rest)
    with (String "a" (letters k +:+ String (ascii_of_nat 34) rest)).
  cbn [span]. rewrite IH. reflexivity.
Qed.

Lemma length_letters k : String.length (letters k) = k.
Proof. induction k as [| k IH]; cbn; [reflexivity | rewrite IH; reflexivity]. Qed.

Lemma span_app f p s :
  span f p = (p, "") ->
  span f (p +:+ s) = let '(a, b) := span f s in (p +:+ a, b).
Proof.
  induction p as [| c p IH]; intros Hp.
  - change ("" +:+ s) with s. destruct (span f s); reflexivity.
  - change (String c p +:+ s) with (String c (p +:+ s)).
    cbn [span] in *. destruct (f c); [| discriminate].
    destruct (span f p) as [a b]. injection Hp as -> ->.
    rewrite IH by reflexivity. destruct (span f s); reflexivity.
Qed.

Lemma length_append a b : String.length (a +:+ b) = (String.length a + String.length b)%nat.
Proof.
  induction a as [| c a IH]; [reflexivity |].
  change (String c a +:+ b) with (String c (a +:+ b)). cbn [String.length].
  rewrite IH. reflexivity.
Qed.

Lemma length_chain_path k : String.length (chain_path k) = (14 + k)%nat.
Proof.
  unfold chain_path.
  change (String.length ("@openzeppelin/" +:+ letters k))
    with (14 + String.length (letters k))%nat.
  rewrite length_letters. reflexivity.
Qed.

Lemma match_import_line k :
  match_import (import_line k) = Some (chain_path k, (23 + k)%nat).
Proof.
  unfold match_import.
  change (Js.startsWith "import" (import_line k)) with true. cbv iota.
  change (span_spaces (Js.drop 6 (import_line k)))
    with (" ", String (ascii_of_nat 34) (chain_path k +:+ String (ascii_of_nat 34) "")).
  cbv iota beta.
  change (is_quote (ascii_of_nat 34)) with true. cbv iota.
  change (chain_path k +:+ String (ascii_of_nat 34) "")
    with ("@openzeppelin/" +:+ (letters k +:+ String (ascii_of_nat 34) "")).
  rewrite span_app by reflexivity. rewrite span_letters.
  change ("@openzeppelin/" +:+ letters k) with (chain_path k).
  change (chain_path k) with (String "@" ("openzeppelin/" +:+ letters k)) at 1.
  cbv iota beta. rewrite length_chain_path. do 2 f_equal. cbn [String.length]. lia.
Qed.

Lemma import_line_cons k :
  import_line k
  = String "i" ("mport " +:+ String (ascii_of_nat 34)
                  (chain_path k +:+ String (ascii_of_nat 34) "")).
Proof. reflexivity. Qed.

Lemma import_scan_match c s path len :
  match_import (String c s) = Some (path, len) ->
  import_scan 0 (String c s) = path :: import_scan (len - 1) s.
Proof. intros H. cbn [import_scan]. rewrite H. reflexivity. Qed.

Lemma imports_of_import_line k : imports_of (import_line k) = [chain_path k].
Proof.
  unfold imports_of. pose proof (match_import_line k) as Hmatch.
  rewrite import_line_cons in *.
  rewrite (import_scan_match _ _ _ _ Hmatch). f_equal.
  apply import_scan_skip_all.
  rewrite length_append. cbn [String.length]. rewrite length_append, length_chain_path.
  cbn [String.length]. lia.
Qed.

Lemma letters_inj j k : letters j = letters k -> j = k.
Proof.
  intros H. rewrite <- (length_letters j), <- (length_letters k), H. reflexivity.
Qed.

Lemma chain_path_inj j k : chain_path j = chain_path k -> j = k.
Proof.
  unfold chain_path. intros H. apply (inj (String.app "@openzeppelin/")) in H.
  apply letters_inj, H.
Qed.

Lemma assoc_app {A} key (l l' : list (string * A)) :
  Js.assoc key (l ++ l')%list
  = match Js.assoc key l with
    | Some v => Some v
    | None => Js.assoc key l'
    end.
Proof.
  induction l as [| [k v] l IH]; cbn; [reflexivity |].
  destruct (String.eqb key k); [reflexivity | exact IH].
Qed.

Lemma fresh_from_initial content : fresh_from 0 [("Contract.sol", content)].
Proof. intros j _. reflexivity. Qed.

Lemma fresh_from_set k sources content :
  fresh_from k sources -> fresh_from (S k) (sources_set sources (chain_path k) content).
Proof.
  intros Hfresh j Hj. specialize (Hfresh j ltac:(lia)).
  unfold sources_has, sources_set in *. rewrite assoc_app.
  destruct (Js.assoc (chain_path j) sources); [discriminate |].
  cbn [Js.assoc].
  destruct (String.eqb (chain_path j) (chain_path k)) eqn:He; [| exact Hfresh].
  apply String.eqb_eq, chain_path_inj in He. lia.
Qed.

Lemma chain_run depth : forall k sources,
  fresh_from k sources ->
  exists t,
    run_from chain_world k (resolveImports depth (import_line k) sources) = (t, Pending)
    /\ List.length t = depth
    /\ (depth <= fetched_bytes t)%nat.
Proof.
  induction depth as [| depth IH]; intros k sources Hfresh.
  - exists []. repeat split; cbn; lia.
  - cbn [resolveImports]. rewrite imports_of_import_line. cbn [resolve_loop].
    rewrite (Hfresh k (le_n k)).
    change (String.eqb (chain_path k) "") with false.
    change (import_url (chain_path k))
      with (Some (openzeppelin_raw +:+ Js.replace "@openzeppelin/" "" (chain_path k))).
    cbn [negb andb bind await run_from chain_world res_ok res_text lift].
    rewrite run_from_bind.
    destruct (IH (S k) (sources_set sources (chain_path k) (import_line (S k)))
                (fresh_from_set _ _ _ Hfresh)) as [t [Hrun [Hlen Hbytes]]].
    rewrite Hrun. eexists. split; [reflexivity |]. split.
    + cbn. rewrite Hlen. reflexivity.
    + cbn [fetched_bytes fold_right res_ok res_text].
      fold (fetched_bytes t).
      change (import_line (S k)) with (String "i" ("mport " +:+ String (ascii_of_nat 34)
                        (chain_path (S k) +:+ String (ascii_of_nat 34) ""))).
      cbn [String.length]. lia.
Qed.

Lemma chain_pending_in_handler {A B} (p : Prog A) (f : A -> Prog B) h (w : World) :
  forall i t, run_from w i p = (t, Pending) ->
  run_from w i (try_catch (bind p f) h) = (t, Pending).
Proof.
  induction p as [a | e | | c k IH]; cbn; intros i t Hrun; try discriminate;
    [injection Hrun as <-; reflexivity |].
  destruct (run_from w (S i) (k (w i c))) as [t' r] eqn:Hk.
  injection Hrun as <- ->. rewrite (IH _ _ _ Hk). reflexivity.
Qed.

Lemma chain_never_finishes depth :
  result chain_world (resolveImports depth (import_line 0) [("Contract.sol", import_line 0)])
  = Pending.
Proof.
  destruct (chain_run depth 0 _ (fresh_from_initial (import_line 0))) as [t [Hrun _]].
  unfold result, run. rewrite Hrun. reflexivity.
Qed.

Lemma chain_fetches_without_bound depth :
  (depth <= fetched_bytes
              (trace chain_world
                 (resolveImports depth (import_line 0) [("Contract.sol", import_line 0)])))%nat.
Proof.
  destruct (chain_run depth 0 _ (fresh_from_initial (import_line 0))) as [t [Hrun [_ Hbytes]]].
  unfold trace, run. rewrite Hrun. exact Hbytes.
Qed.

Lemma chain_blocks_deployment depth :
  result chain_world
    (handle example_lib example_state depth None
       (DeployContractSource (import_line 0) None None None)) = Pending.
Proof.
  destruct (chain_run depth 0 _ (fresh_from_initial (import_line 0))) as [t [Hrun _]].
  unfold result, run. cbn [handle]. unfold deploy_contract_source.
  rewrite (chain_pending_in_handler _ _ _ _ _ _ Hrun). reflexivity.
Qed.

(** C9 as stated fails: on a remote in which every file imports one more
    file, no recursion budget lets the resolution finish and the bytes
    fetched exceed every bound; deploy-contract-source never gets past its
    import resolution there. *)
Lemma import_resolution_unbounded :
  (~ exists maxDepth : nat, forall (w : World) content,
        result w (resolveImports maxDepth content [("Contract.sol", content)]) <> Pending)
  /\ (~ exists maxBytes : nat, forall (w : World) content depth,
          (fetched_bytes (trace w (resolveImports depth content [("Contract.sol", content)]))
           <= maxBytes)%nat)
  /\ (forall depth,
         result chain_world
           (handle example_lib example_state depth None
              (DeployContractSource (import_line 0) None None None)) = Pending).
Proof.
  split; [| split].
  - intros [maxDepth Hcap].
    exact (Hcap chain_world (import_line 0) (chain_never_finishes maxDepth)).
  - intros [maxBytes Hcap].
    pose proof (chain_fetches_without_bound (S maxBytes)) as Hbytes.
    pose proof (Hcap chain_world (import_line 0) (S maxBytes)) as Hle.
    exact (Nat.nle_succ_diag_l _ (Nat.le_trans _ _ _ Hbytes Hle)).
  - exact chain_blocks_deployment.
Qed.

(** The first three fetches of that chain. *)
Lemma chain_of_three :
  calls (trace chain_world
           (resolveImports 3 (import_line 0) [("Contract.sol", import_line 0)]))
  = [fetch openzeppelin_raw None;
     fetch (openzeppelin_raw +:+ "a") None;
     fetch (openzeppelin_raw +:+ "aa") None]
  /\ result chain_world
       (resolveImports 3 (import_line 0) [("Contract.sol", import_line 0)]) = Pending.
Proof. split; vm_compute; reflexivity. Qed.

(** ** What import resolution does guarantee *)

Lemma assoc_None_not_key {A} key (l : list (string * A)) :
  Js.assoc key l = None -> ~ In key (List.map fst l).
Proof.
  induction l as [| [k v] l IH]; cbn; [tauto |].
  destruct (String.eqb key k) eqn:He; [discriminate |].
  apply String.eqb_neq in He. intros Hnone [Hk | Hin]; [congruence | tauto].
Qed.

Lemma NoDup_keys_set (sources : Sources) importPath content :
  sources_has sources importPath = false ->
  NoDup (List.map fst sources) ->
  NoDup (List.map fst (sources_set sources importPath content)).
Proof.
  unfold sources_has, sources_set. intros Hhas Hnodup.
  destruct (Js.assoc importPath sources) eqn:Hassoc; [discriminate |].
  rewrite List.map_app. cbn [List.map fst].
  apply NoDup_app. split; [exact Hnodup |]. split; [| apply NoDup_singleton].
  intros key Hkey Hin. apply list_elem_of_singleton in Hin. subst key.
  apply list_elem_of_In in Hkey. exact (assoc_None_not_key _ _ Hassoc Hkey).
Qed.

Lemma resolved_refl sources : resolved sources [] (Resolves sources).
Proof.
  split; [constructor |]. intros sources' [= <-]. exists [].
  rewrite app_nil_r. split; [reflexivity |]. split; [auto |].
  split; [constructor | cbn; lia].
Qed.

Lemma resolved_trans s1 s2 t1 t2 r :
  resolved s1 t1 (Resolves s2) -> resolved s2 t2 r -> resolved s1 (t1 ++ t2)%list r.
Proof.
  intros [Ht1 H1] [Ht2 H2]. split; [apply Forall_app; auto |].
  intros s3 Hr.
  destruct (H1 s2 eq_refl) as (a1 & -> & Hn1 & Ha1 & Hl1).
  destruct (H2 s3 Hr) as (a2 & -> & Hn2 & Ha2 & Hl2).
  exists (a1 ++ a2)%list. rewrite <- app_assoc.
  split; [reflexivity |]. split; [| split].
  - intros Hn. rewrite app_assoc. auto.
  - apply Forall_app; auto.
  - rewrite !List.length_app. lia.
Qed.

Lemma resolved_fetch sources importPath url o content t r :
  import_url importPath = Some url ->
  sources_has sources importPath = false ->
  resolved (sources_set sources importPath content) t r ->
  resolved sources (Ev (fetch url None) o :: t) r.
Proof.
  intros Hurl Hhas [Ht Hr]. unfold import_url in Hurl.
  destruct (Js.startsWith "@openzeppelin/" importPath) eqn:Hoz; [| discriminate].
  injection Hurl as <-. split.
  - constructor; [| exact Ht]. unfold openzeppelin_fetch. cbn [ev_call]. apply startsWith_app.
  - intros s Hs. destruct (Hr s Hs) as (added & -> & Hn & Ha & Hl).
    exists ((importPath, content) :: added). unfold sources_set. rewrite <- app_assoc.
    split; [reflexivity |]. split; [| split].
    + intros Hnodup. rewrite app_assoc. apply Hn. apply NoDup_keys_set; assumption.
    + constructor; assumption.
    + cbn. lia.
Qed.

Lemma resolve_loop_resolved resolve paths :
  (forall content sources, always (resolve content sources) (resolved sources)) ->
  forall sources, always (resolve_loop resolve paths sources) (resolved sources).
Proof.
  intros Hresolve.
  induction paths as [| importPath rest IH]; intros sources; cbn [resolve_loop].
  - apply resolved_refl.
  - destruct (negb (String.eqb importPath "")) eqn:Hne; cbn [andb]; [| apply IH].
    destruct (sources_has sources importPath) eqn:Hhas; cbn [negb]; [apply IH |].
    destruct (import_url importPath) as [url |] eqn:Hurl; [| apply IH].
    cbn [bind await]. intros [res | e].
    + cbn [bind]. destruct (res_ok res).
      * destruct (res_text res) as [importedSource | e]; cbn [lift bind].
        -- apply always_bind. eapply always_mono; [| apply Hresolve].
           cbn beta. intros t [s | e |] Hres.
           ++ eapply always_mono; [| apply IH]. cbn beta. intros t' r' Hrest.
              eapply resolved_fetch; try eassumption.
              eapply resolved_trans; eassumption.
           ++ eapply resolved_fetch; eassumption.
           ++ eapply resolved_fetch; eassumption.
        -- split; [| discriminate]. repeat constructor.
           unfold openzeppelin_fetch, import_url in *. cbn [ev_call].
           destruct (Js.startsWith "@openzeppelin/" importPath); [| discriminate].
           injection Hurl as <-. apply startsWith_app.
      * eapply always_mono; [| apply IH]. cbn beta. intros t r [Ht Hr]. split.
        -- constructor; [| exact Ht].
           unfold openzeppelin_fetch, import_url in *. cbn [ev_call].
           destruct (Js.startsWith "@openzeppelin/" importPath); [| discriminate].
           injection Hurl as <-. apply startsWith_app.
        -- intros s Hs. destruct (Hr s Hs) as (added & -> & Hn & Ha & Hl).
           exists added. split; [reflexivity |]. split; [exact Hn |].
           split; [exact Ha |]. cbn. lia.
    + cbn. split; [| discriminate]. repeat constructor.
      unfold openzeppelin_fetch, import_url in *. cbn [ev_call].
      destruct (Js.startsWith "@openzeppelin/" importPath); [| discriminate].
      injection Hurl as <-. apply startsWith_app.
Qed.

Lemma resolveImports_resolved depth :
  forall content sources, always (resolveImports depth content sources) (resolved sources).
Proof.
  induction depth as [| depth IH]; intros content sources; cbn [resolveImports].
  - split; [constructor | discriminate].
  - apply resolve_loop_resolved. exact IH.
Qed.

(** ** The fetches of a resolution *)

Lemma startsWith_split p : forall s,
  Js.startsWith p s = true -> s = p +:+ Js.drop (String.length p) s.
Proof.
  induction p as [| a p IH]; intros s Hs; [reflexivity |].
  destruct s as [| b s]; cbn in Hs; [discriminate |].
  destruct (Ascii.eqb a b) eqn:Hab; [| discriminate].
  apply Ascii.eqb_eq in Hab. subst b.
  change (String a s = String a (p +:+ Js.drop (String.length p) s)).
  f_equal. apply IH, Hs.
Qed.

Lemma drop_app p s : Js.drop (String.length p) (p +:+ s) = s.
Proof.
  induction p as [| a p IH]; [reflexivity | exact IH].
Qed.

Lemma imported_path_url importPath url :
  import_url importPath = Some url -> imported_path url = importPath.
Proof.
  unfold import_url, imported_path.
  destruct (Js.startsWith "@openzeppelin/" importPath) eqn:Hoz; [| discriminate].
  intros [= <-]. rewrite drop_app.
  assert (Hr : Js.replace "@openzeppelin/" "" importPath
               = Js.drop (String.length "@openzeppelin/") importPath).
  { destruct importPath as [| c s]; [discriminate Hoz |].
    cbn [Js.replace]. rewrite Hoz. reflexivity. }
  rewrite Hr. symmetry. apply startsWith_split, Hoz.
Qed.

Lemma sources_has_app sources more importPath :
  sources_has sources importPath = true -> sources_has (sources ++ more)%list importPath = true.
Proof.
  unfold sources_has. rewrite assoc_app.
  destruct (Js.assoc importPath sources); [reflexivity |].
  intros ->. destruct (Js.assoc importPath more); reflexivity.
Qed.

Lemma sources_has_set sources importPath content more :
  sources_has (sources_set sources importPath content ++ more)%list importPath = true.
Proof.
  apply sources_has_app. unfold sources_has, sources_set. rewrite assoc_app.
  destruct (Js.assoc importPath sources); [reflexivity |].
  cbn. rewrite String.eqb_refl. reflexivity.
Qed.

Lemma fetches_one_of_more known known' sources e :
  (forall p, In p known -> In p known') ->
  fetches_one_of known sources e -> fetches_one_of known' sources e.
Proof.
  intros Hincl (importPath & url & Hin & Hurl & Hhas & Hcall).
  exists importPath, url. auto.
Qed.

Lemma follows_imports_more t : forall known known' sources,
  (forall p, In p known -> In p known') ->
  follows_imports known sources t -> follows_imports known' sources t.
Proof.
  induction t as [| e t IH]; intros known known' sources Hincl; cbn [follows_imports];
    [auto |].
  intros [He Ht]. split; [eapply fetches_one_of_more; eassumption |].
  eapply IH; [| exact Ht].
  intros p Hp. apply in_app_or in Hp as [Hp | Hp]; apply in_or_app; auto.
Qed.

Lemma stored_app t1 t2 : stored (t1 ++ t2)%list = (stored t1 ++ stored t2)%list.
Proof. apply List.flat_map_app. Qed.

Lemma imports_served_app t1 t2 :
  imports_served (t1 ++ t2)%list = (imports_served t1 ++ imports_served t2)%list.
Proof. apply List.flat_map_app. Qed.

Lemma stored_cons e t : stored (e :: t) = (stored_by e ++ stored t)%list.
Proof. reflexivity. Qed.

Lemma imports_served_cons e t :
  imports_served (e :: t) = (imports_served [e] ++ imports_served t)%list.
Proof. unfold imports_served. cbn [List.flat_map]. rewrite app_nil_r. reflexivity. Qed.

Lemma follows_imports_app t1 : forall known sources t2,
  follows_imports known sources t1 ->
  follows_imports (known ++ imports_served t1)%list (sources ++ stored t1)%list t2 ->
  follows_imports known sources (t1 ++ t2)%list.
Proof.
  induction t1 as [| e t1 IH]; intros known sources t2 H1 H2.
  - cbn in H2. rewrite !app_nil_r in H2. exact H2.
  - destruct H1 as [He H1]. cbn [app follows_imports]. split; [exact He |].
    apply IH; [exact H1 |].
    change (e :: t1) with ([e] ++ t1)%list in H2.
    rewrite imports_served_app, stored_app in H2.
    unfold stored at 1 in H2. cbn [List.flat_map] in H2. rewrite app_nil_r in H2.
    rewrite <- !app_assoc. exact H2.
Qed.

Lemma accounted_more sources more pre t post importPath :
  accounted sources t importPath ->
  accounted (sources ++ more)%list (pre ++ t ++ post)%list importPath.
Proof.
  unfold accounted. destruct (import_url importPath) as [url |]; [| auto].
  intros [Hhas | (res & Hin & Hok)].
  - left. apply sources_has_app, Hhas.
  - right. exists res. split; [| exact Hok].
    apply in_or_app. right. apply in_or_app. left. exact Hin.
Qed.

Lemma accounted_later sources pre t importPath :
  accounted sources t importPath -> accounted sources (pre ++ t)%list importPath.
Proof.
  intros H. pose proof (accounted_more sources [] pre t [] importPath H) as H'.
  rewrite !app_nil_r in H'. exact H'.
Qed.

Lemma accounted_skipped sources t importPath :
  negb (String.eqb importPath "") && negb (sources_has sources importPath) = false ->
  accounted (sources ++ stored t)%list t importPath.
Proof.
  intros Hskip. unfold accounted.
  destruct (import_url importPath) as [url |] eqn:Hurl; [| exact I].
  left. apply sources_has_app.
  destruct (String.eqb importPath "") eqn:He.
  - apply String.eqb_eq in He. subst importPath. discriminate Hurl.
  - cbn in Hskip. destruct (sources_has sources importPath); [reflexivity | discriminate].
Qed.

Lemma resolve_loop_resolution resolve paths :
  (forall content sources,
      always (resolve content sources) (resolution (imports_of content) sources)) ->
  forall sources, always (resolve_loop resolve paths sources) (resolution paths sources).
Proof.
  intros Hresolve.
  induction paths as [| importPath rest IH]; intros sources; cbn [resolve_loop].
  - split; [exact I |]. intros sources' [= <-]. cbn. rewrite app_nil_r. split; constructor.
  - assert (Hskip : forall t r,
               (negb (String.eqb importPath "") && negb (sources_has sources importPath) = false
                \/ import_url importPath = None) ->
               resolution rest sources t r -> resolution (importPath :: rest) sources t r).
    { intros t r Hwhy [Ht Hr]. split.
      - eapply follows_imports_more; [| exact Ht]. intros p Hp. right. exact Hp.
      - intros sources' Hs. destruct (Hr sources' Hs) as [-> Hacc].
        split; [reflexivity |]. cbn [app]. constructor; [| exact Hacc].
        destruct Hwhy as [Hwhy | Hwhy].
        + apply accounted_skipped, Hwhy.
        + unfold accounted. rewrite Hwhy. exact I. }
    destruct (negb (String.eqb importPath "") && negb (sources_has sources importPath))
      eqn:Hgo.
    2: { eapply always_mono; [| apply IH]. cbn beta. intros t r. apply Hskip. left.
         reflexivity. }
    destruct (import_url importPath) as [url |] eqn:Hurl.
    2: { eapply always_mono; [| apply IH]. cbn beta. intros t r. apply Hskip. right.
         reflexivity. }
    assert (Hhas : sources_has sources importPath = false).
    { destruct (sources_has sources importPath); [| reflexivity].
      rewrite Bool.andb_comm in Hgo. discriminate Hgo. }
    assert (Hone : forall o, fetches_one_of (importPath :: rest) sources (Ev (fetch url None) o)).
    { intros o. exists importPath, url. split; [left; reflexivity |]. auto. }
    cbn [bind await]. intros [res | e].
    + cbn [bind]. destruct (res_ok res) eqn:Hok.
      * destruct (res_text res) as [importedSource | e] eqn:Htext; cbn [lift bind].
        -- assert (Hstored : stored_by (Ev (fetch url None) (Returned res))
                             = [(importPath, importedSource)]).
           { unfold stored_by, served_body. cbn [ev_call]. rewrite Hok, Htext.
             rewrite (imported_path_url importPath url Hurl). reflexivity. }
           assert (Hserved : imports_served [Ev (fetch url None) (Returned res)]
                             = imports_of importedSource).
           { unfold imports_served, served_body. cbn [List.flat_map]. rewrite Hok, Htext.
             apply app_nil_r. }
           assert (Hhead : forall t1,
                      follows_imports (imports_of importedSource)
                        (sources_set sources importPath importedSource) t1 ->
                      follows_imports
                        ((importPath :: rest)
                         ++ imports_served [Ev (fetch url None) (Returned res)])%list
                        (sources ++ stored_by (Ev (fetch url None) (Returned res)))%list t1).
           { intros t1 Ht1. rewrite Hstored, Hserved.
             eapply follows_imports_more; [| exact Ht1].
             intros p Hp. apply in_or_app. right. exact Hp. }
           apply always_bind. eapply always_mono; [| apply Hresolve].
           cbn beta. intros t1 [s2 | e |] [Ht1 Hr1].
           ++ destruct (Hr1 s2 eq_refl) as [-> Hacc1].
              eapply always_mono; [| apply IH]. cbn beta. intros t2 r [Ht2 Hr2]. split.
              ** cbn [follows_imports]. split; [apply Hone |].
                 apply follows_imports_app; [apply Hhead, Ht1 |].
                 rewrite Hstored, Hserved.
                 unfold sources_set in Ht2. rewrite <- !app_assoc in Ht2.
                 rewrite <- !app_assoc.
                 eapply follows_imports_more; [| exact Ht2].
                 intros p Hp. rewrite !List.in_app_iff. left. right. exact Hp.
              ** intros sources' Hs. destruct (Hr2 sources' Hs) as [-> Hacc2].
                 rewrite stored_cons, imports_served_cons, Hstored, Hserved.
                 rewrite stored_app, imports_served_app.
                 split.
                 --- unfold sources_set. rewrite <- !app_assoc. reflexivity.
                 --- cbn [app]. constructor.
                     { unfold accounted. rewrite Hurl. left.
                       rewrite <- app_assoc. apply sources_has_set. }
                     apply Forall_app in Hacc1 as [Hacc1 Hacc1'].
                     apply Forall_app in Hacc2 as [Hacc2 Hacc2'].
                     repeat apply Forall_app_2.
                     { eapply List.Forall_impl; [| exact Hacc2]. intros p Hp.
                       apply (accounted_later _ (Ev (fetch url None) (Returned res) :: t1)) in Hp.
                       exact Hp. }
                     { eapply List.Forall_impl; [| exact Hacc1]. intros p Hp.
                       apply (accounted_more _ (stored t2) [Ev (fetch url None) (Returned res)]
                                t1 t2) in Hp. exact Hp. }
                     { eapply List.Forall_impl; [| exact Hacc1']. intros p Hp.
                       apply (accounted_more _ (stored t2) [Ev (fetch url None) (Returned res)]
                                t1 t2) in Hp. exact Hp. }
                     { eapply List.Forall_impl; [| exact Hacc2']. intros p Hp.
                       apply (accounted_later _ (Ev (fetch url None) (Returned res) :: t1)) in Hp.
                       exact Hp. }
           ++ split; [| discriminate]. cbn [follows_imports].
              split; [apply Hone | apply Hhead, Ht1].
           ++ split; [| discriminate]. cbn [follows_imports].
              split; [apply Hone | apply Hhead, Ht1].
        -- split; [| discriminate]. cbn [follows_imports]. split; [apply Hone | exact I].
      * assert (Hstored : stored_by (Ev (fetch url None) (Returned res)) = []).
        { unfold stored_by, served_body. cbn [ev_call]. rewrite Hok. reflexivity. }
        assert (Hserved : imports_served [Ev (fetch url None) (Returned res)] = []).
        { unfold imports_served, served_body. cbn [List.flat_map]. rewrite Hok. reflexivity. }
        eapply always_mono; [| apply IH]. cbn beta. intros t r [Ht Hr]. split.
        -- cbn [follows_imports]. split; [apply Hone |].
           rewrite Hstored, Hserved, !app_nil_r.
           eapply follows_imports_more; [| exact Ht]. intros p Hp. right. exact Hp.
        -- intros sources' Hs. destruct (Hr sources' Hs) as [-> Hacc].
           rewrite stored_cons, imports_served_cons, Hstored, Hserved. cbn [app].
           split; [reflexivity |]. constructor.
           ++ unfold accounted. rewrite Hurl. right. exists res.
              split; [left; reflexivity | exact Hok].
           ++ eapply List.Forall_impl; [| exact Hacc]. intros p Hp.
              apply (accounted_later _ [Ev (fetch url None) (Returned res)]) in Hp. exact Hp.
    + cbn. split; [| discriminate]. split; [apply Hone | exact I].
Qed.

Lemma resolveImports_resolution depth :
  forall content sources,
    always (resolveImports depth content sources) (resolution (imports_of content) sources).
Proof.
  induction depth as [| depth IH]; intros content sources; cbn [resolveImports].
  - split; [exact I | discriminate].
  - apply resolve_loop_resolution. exact IH.
Qed.

Lemma stored_keys t :
  Forall (fun entry => Js.startsWith "@openzeppelin/" (fst entry) = true) (stored t).
Proof.
  unfold stored. induction t as [| e t IH]; cbn [List.flat_map]; [constructor |].
  apply Forall_app_2; [| exact IH].
  unfold stored_by. destruct (ev_call e); try constructor.
  destruct (served_body e); constructor; [| constructor].
  cbn [fst]. unfold imported_path. apply startsWith_app.
Qed.

Lemma stored_length t : (List.length (stored t) <= List.length t)%nat.
Proof.
  unfold stored. induction t as [| e t IH]; cbn [List.flat_map]; [cbn; lia |].
  rewrite List.length_app. cbn [List.length].
  assert (List.length (stored_by e) <= 1)%nat; [| lia].
  unfold stored_by. destruct (ev_call e); try (cbn; lia).
  destruct (served_body e); cbn; lia.
Qed.

(** The URL of an import is the prefix and the rest of the path as they
    are: dot segments stay in it. *)
Lemma import_url_keeps_dot_segments :
  import_url dotted_path
  = Some (openzeppelin_raw +:+ "../../../evil-org/repo/main/Lib.sol").
Proof. reflexivity. Qed.

(** A source that imports a path with dot segments has it fetched under
    the URL string with these segments in it. *)
Lemma dot_segments_are_fetched :
  calls (trace library_world
           (resolveImports 2 ("import '" +:+ dotted_path +:+ "';") []))
  = [fetch (openzeppelin_raw +:+ "../../../evil-org/repo/main/Lib.sol") None].
Proof. vm_compute. reflexivity. Qed.

(** C9 (amended). The resolver caps neither its recursion depth nor the
    bytes it fetches. What every resolution keeps to: each call is a fetch
    without options of the URL string that import_url makes of an import
    path (the fixed raw prefix followed by the path without its leading
    @openzeppelin/, dot segments included), for a path that the content or
    a file delivered before names and that is no key of the sources by
    then. A resolution that finishes leaves the given sources followed by
    exactly one entry for each delivered file, in the order of the
    fetches, under its @openzeppelin/ path, no path stored twice; and every
    import path of the content and of the delivered files is then outside
    of @openzeppelin/, or a key of the sources, or was fetched and answered
    with a status that is not ok. *)
Theorem import_resolution_stores_each_path_once depth content sources (w : World) :
  follows_imports (imports_of content) sources
    (trace w (resolveImports depth content sources))
  /\ forall sources',
       result w (resolveImports depth content sources) = Resolves sources' ->
       sources' = (sources ++ stored (trace w (resolveImports depth content sources)))%list
       /\ (NoDup (List.map fst sources) -> NoDup (List.map fst sources'))
       /\ Forall (fun entry => Js.startsWith "@openzeppelin/" (fst entry) = true)
            (stored (trace w (resolveImports depth content sources)))
       /\ (List.length (stored (trace w (resolveImports depth content sources)))
           <= List.length (trace w (resolveImports depth content sources)))%nat
       /\ Forall (accounted sources' (trace w (resolveImports depth content sources)))
            (imports_of content
             ++ imports_served (trace w (resolveImports depth content sources)))%list.
Proof.
  destruct (always_run _ _ w 0%nat (resolveImports_resolution depth content sources))
    as [Hfollows Hsources].
  destruct (always_run _ _ w 0%nat (resolveImports_resolved depth content sources))
    as [_ Hkeys].
  split; [exact Hfollows |].
  intros sources' Hres.
  destruct (Hsources sources' Hres) as [Hstored Hacc].
  destruct (Hkeys sources' Hres) as (added & _ & Hn & _).
  split; [exact Hstored |]. split; [exact Hn |].
  split; [apply stored_keys |]. split; [apply stored_length | exact Hacc].
Qed.

Lemma import_resolution_stores_each_path_once_witness :
  let content := "import '@openzeppelin/contracts/access/Ownable.sol'; contract Vault is Ownable {}" in
  let sources := [("Contract.sol", content)] in
  let t := trace library_world (resolveImports 2 content sources) in
  calls t = [fetch (openzeppelin_raw +:+ "contracts/access/Ownable.sol") None]
  /\ stored t = [("@openzeppelin/contracts/access/Ownable.sol", library_file)]
  /\ result library_world (resolveImports 2 content sources)
     = Resolves (sources ++ [("@openzeppelin/contracts/access/Ownable.sol", library_file)])%list
  /\ follows_imports (imports_of content) sources t
  /\ NoDup (List.map fst (sources ++ stored t)%list)
  /\ Forall (accounted (sources ++ stored t)%list t) (imports_of content ++ imports_served t)%list.
Proof.
  cbv zeta. split; [vm_compute; reflexivity |]. split; [vm_compute; reflexivity |].
  split; [vm_compute; reflexivity |].
  destruct (import_resolution_stores_each_path_once 2
              "import '@openzeppelin/contracts/access/Ownable.sol'; contract Vault is Ownable {}"
              [("Contract.sol",
                "import '@openzeppelin/contracts/access/Ownable.sol'; contract Vault is Ownable {}")]
              library_world) as [Hfollows Hfinished].
  split; [exact Hfollows |].
  destruct (Hfinished _ ltac:(vm_compute; reflexivity)) as (Hs & Hn & _ & _ & Hacc).
  split; [| exact Hacc].
  apply Hn. apply NoDup_singleton.
Defined.

(** * Further properties of the code *)

(** ** Strings *)

Lemma append_assoc (a b c : string) : (a +:+ b) +:+ c = a +:+ (b +:+ c).
Proof.
  induction a as [| x a IH]; [reflexivity |].
  change (String x a +:+ b) with (String x (a +:+ b)).
  change (String x (a +:+ b) +:+ c) with (String x ((a +:+ b) +:+ c)).
  rewrite IH. reflexivity.
Qed.

Lemma append_empty_r (a : string) : a +:+ "" = a.
Proof.
  induction a as [| x a IH]; [reflexivity |].
  change (String x a +:+ "") with (String x (a +:+ "")). rewrite IH. reflexivity.
Qed.

Lemma split_on_cons sep s : exists segment rest, split_on sep s = segment :: rest.
Proof.
  destruct s as [| c s]; cbn; [eauto |].
  destruct (Ascii.eqb c sep); [eauto |].
  destruct (split_on sep s); eauto.
Qed.

Lemma join_cons sep (x y : string) l :
  Js.join sep (x :: y :: l) = x +:+ sep +:+ Js.join sep (y :: l).
Proof. reflexivity. Qed.

(** Joining the segments with the separator gives the string back. *)
Lemma split_on_join sep s : Js.join (String sep "") (split_on sep s) = s.
Proof.
  induction s as [| c s IH]; [reflexivity |]. cbn [split_on].
  destruct (split_on_cons sep s) as [segment [rest Hs]]. rewrite Hs in *.
  destruct (Ascii.eqb c sep) eqn:Hc.
  - apply Ascii.eqb_eq in Hc as ->. rewrite join_cons, IH. reflexivity.
  - destruct rest as [| segment' rest].
    + cbn in *. rewrite IH. reflexivity.
    + rewrite join_cons in *.
      change (String c segment +:+ ?x) with (String c (segment +:+ x)).
      rewrite IH. reflexivity.
Qed.

(** No segment holds the separator. *)
Lemma split_on_clean sep s :
  Forall (fun segment => all_bytes (fun c => negb (Ascii.eqb c sep)) segment = true)
    (split_on sep s).
Proof.
  induction s as [| c s IH]; cbn [split_on]; [repeat constructor |].
  destruct (Ascii.eqb c sep) eqn:Hc; [constructor; [reflexivity | exact IH] |].
  destruct (split_on sep s) as [| segment rest]; [repeat constructor; cbn; rewrite Hc; reflexivity |].
  inversion IH as [| ? ? Hsegment Hrest]; subst.
  constructor; [| exact Hrest]. cbn. rewrite Hc, Hsegment. reflexivity.
Qed.

Lemma join_snoc sep init (segment : string) :
  Js.join sep (init ++ [segment])%list =
  match init with
  | [] => segment
  | _ => Js.join sep init +:+ sep +:+ segment
  end.
Proof.
  induction init as [| x init IH]; [reflexivity |].
  destruct init as [| y init]; [reflexivity |].
  change (((x :: y :: init) ++ [segment])%list) with (x :: y :: (init ++ [segment]))%list.
  rewrite !join_cons.
  change (y :: (init ++ [segment]))%list with ((y :: init) ++ [segment])%list.
  rewrite IH, !append_assoc. reflexivity.
Qed.

(** The text after the last slash of a path: the path is a directory part,
    empty or ending in a slash, followed by that text, which holds no
    slash. *)
Lemma path_tail_spec uri :
  exists dir tail,
    path_tail uri = Some tail
    /\ pathname uri = dir +:+ tail
    /\ (dir = "" \/ exists d, dir = d +:+ "/")
    /\ no_slash tail = true.
Proof.
  unfold path_tail.
  destruct (split_on_cons "/" (pathname uri)) as [segment [rest Hs]].
  destruct (last (split_on "/" (pathname uri))) as [tail |] eqn:Hlast;
    [| rewrite Hs, last_cons in Hlast; destruct (last rest); discriminate].
  apply last_Some in Hlast as [init Hinit].
  pose proof (split_on_join "/" (pathname uri)) as Hjoin.
  pose proof (split_on_clean "/" (pathname uri)) as Hclean.
  rewrite Hinit in Hjoin, Hclean. rewrite join_snoc in Hjoin.
  apply Forall_app in Hclean as [_ Htail]. inversion Htail as [| ? ? Hno _]; subst.
  destruct init as [| x init].
  - exists "", tail. repeat split; auto.
  - exists (Js.join "/" (x :: init) +:+ "/"), tail. repeat split; auto.
    + rewrite append_assoc. symmetry. exact Hjoin.
    + right. eexists. reflexivity.
Qed.

(** ** The resources *)

(** X1. The balance and the UTXO resources read the address as the text
    after the last slash of the path, which holds no slash. When that text
    is empty (an empty path, or a path that ends in a slash) they throw
    Missing address without any call; otherwise their only call is the
    query for that text. *)
Theorem resources_read_path_tail lib stringify_utxos uri (w : World) :
  exists dir address,
    pathname uri = dir +:+ address
    /\ (dir = "" \/ exists d, dir = d +:+ "/")
    /\ no_slash address = true
    /\ if String.eqb address ""
       then run w (bitcoin_balance lib uri) = ([], Rejects (mkError "Missing address"))
            /\ run w (bitcoin_utxos stringify_utxos uri) = ([], Rejects (mkError "Missing address"))
       else calls (trace w (bitcoin_balance lib uri)) = [getBalance address]
            /\ calls (trace w (bitcoin_utxos stringify_utxos uri)) = [getUTXOs address].
Proof.
  destruct (path_tail_spec uri) as [dir [address [Htail [Hpath [Hdir Hno]]]]].
  exists dir, address. repeat split; try assumption.
  unfold bitcoin_balance, bitcoin_utxos, calls, trace, run. rewrite Htail. cbn.
  destruct (String.eqb address ""); [split; reflexivity |].
  cbn. destruct (w 0%nat (getBalance address)), (w 0%nat (getUTXOs address)); split; reflexivity.
Qed.

(** X2. For the same non-empty address the balance resource and the tool
    get-wallet-balance make the same report of a balance that the query
    returned; when the query fails the tool resolves to an error result
    with the message of the failure, whereas the resource rejects with
    it. *)
Theorem balance_resource_agrees_with_tool lib st uri address (w : World) :
  path_tail uri = Some address -> address <> "" ->
  balance_reports_agree lib st uri address w.
Proof.
  intros Htail Hne. apply String.eqb_neq in Hne.
  unfold balance_reports_agree, bitcoin_balance, get_wallet_balance, result, run.
  rewrite Htail. cbn. rewrite !Hne. cbn. rewrite ?Hne. cbn.
  destruct (w 0%nat (getBalance address)) as [balanceSats | e]; cbn.
  - eexists _, _. split; [reflexivity |]. split; [reflexivity |]. split; reflexivity.
  - split; reflexivity.
Qed.

Lemma balance_resource_agrees_with_tool_witness :
  let uri := mkUri "/bcrt1qsender" "midl://balance/bcrt1qsender" in
  path_tail uri = Some "bcrt1qsender"
  /\ "bcrt1qsender" <> ""
  /\ balance_reports_agree example_lib example_state uri "bcrt1qsender" offline_world.
Proof.
  cbv zeta. split; [reflexivity |]. split; [discriminate |].
  apply (balance_resource_agrees_with_tool example_lib example_state
           (mkUri "/bcrt1qsender" "midl://balance/bcrt1qsender") "bcrt1qsender" offline_world);
    [reflexivity | discriminate].
Defined.

(** ** The recovery of the public key *)

Lemma spending_input_spends address vin v :
  spending_input address vin = Some v ->
  In v vin /\ vin_prevout_address v = Some address.
Proof.
  unfold spending_input. intros Hfind. apply List.find_some in Hfind as [Hin Hv].
  split; [exact Hin |].
  destruct (vin_prevout_address v) as [a |]; [| discriminate].
  apply String.eqb_eq in Hv. congruence.
Qed.

Lemma scan_history_sound address txs key :
  scan_history address txs = Returned (Some key) -> spends_with_key address key txs.
Proof.
  assert (Hmono : forall tx rest, spends_with_key address key rest ->
                                  spends_with_key address key (tx :: rest)).
  { intros tx rest [tx' [vin [v [witness [Hin H]]]]].
    exists tx', vin, v, witness. split; [right; exact Hin | exact H]. }
  induction txs as [| tx rest IH]; cbn [scan_history]; [discriminate |].
  destruct (htx_vin tx) as [vin |] eqn:Hvin; [| discriminate].
  destruct (spending_input address vin) as [v |] eqn:Hfind; [| auto].
  destruct (vin_witness v) as [witness |] eqn:Hwitness; [| auto].
  destruct (2 <=? List.length witness)%nat eqn:Hlen; [| auto].
  intros [= Hlast]. apply Nat.leb_le in Hlen.
  destruct (spending_input_spends _ _ _ Hfind) as [Hin Haddr].
  exists tx, vin, v, witness. repeat split; auto. left. reflexivity.
Qed.

(** X3. In address mode the factory gives a config exactly when an
    address is set, with an ordinals and a payment account for that
    address under one public key. That key is the configured one, or,
    when the configured one is missing, NOT_SET or holds an ellipsis, a key
    recovered from the address history: the last witness item of a
    transaction input that spends from the address and has two witness
    items or more. A failed or fruitless recovery leaves the configured
    key. *)
Theorem factory_accounts_and_recovered_key
    MIDL_NETWORK MIDL_ACCOUNT_ADDRESS MIDL_ACCOUNT_PUBKEY fetched :
  match createMidlConfigFromEnv MIDL_NETWORK MIDL_ACCOUNT_ADDRESS MIDL_ACCOUNT_PUBKEY fetched with
  | None => MIDL_ACCOUNT_ADDRESS = None \/ MIDL_ACCOUNT_ADDRESS = Some ""
  | Some st =>
      exists address key,
        MIDL_ACCOUNT_ADDRESS = Some address /\ address <> ""
        /\ st_accounts st = Some [mkAccount address key "ordinals" "p2tr";
                                  mkAccount address key "payment" "p2tr"]
        /\ (key = Js.or_else MIDL_ACCOUNT_PUBKEY ""
            \/ needs_recovery (Js.or_else MIDL_ACCOUNT_PUBKEY "") = true
               /\ exists res txs,
                    fetched = Returned res /\ hr_ok res = true
                    /\ hr_json res = Returned txs
                    /\ spends_with_key address key txs)
  end.
Proof.
  unfold createMidlConfigFromEnv.
  destruct MIDL_ACCOUNT_ADDRESS as [address |]; cbn [Js.nonempty]; [| left; reflexivity].
  destruct (String.eqb address "") eqn:Haddress.
  { apply String.eqb_eq in Haddress as ->. right. reflexivity. }
  apply String.eqb_neq in Haddress.
  eexists address, _. split; [reflexivity |]. split; [exact Haddress |].
  split; [reflexivity |].
  destruct (needs_recovery _) eqn:Hneeds; [| left; reflexivity].
  unfold recoverPublicKey.
  destruct fetched as [res | e]; [| left; reflexivity].
  destruct (hr_ok res) eqn:Hok; [| left; reflexivity].
  destruct (hr_json res) as [txs | e] eqn:Hjson; [| left; reflexivity].
  destruct (scan_history address txs) as [[key |] | e] eqn:Hscan; try (left; reflexivity).
  right. split; [reflexivity |]. exists res, txs. repeat split; auto.
  apply scan_history_sound, Hscan.
Qed.

(** X4. The history request of the recovery goes to the regtest mempool
    for the network id regtest; for every other network id its address
    holds an empty path segment (two slashes in a row) in front of api. *)
Theorem recovery_url_shape networkId address :
  if String.eqb networkId "regtest"
  then recovery_url networkId address
       = "https://mempool.regtest.midl.xyz/api/address/" +:+ address +:+ "/txs"
  else Js.includes "//api/address/" (recovery_url networkId address) = true.
Proof.
  unfold recovery_url, recovery_baseUrl.
  destruct (String.eqb networkId "regtest"); [reflexivity |].
  destruct (String.eqb networkId "mainnet").
  - reflexivity.
  - rewrite !append_assoc.
    apply (includes_app_r _ "https://mempool.space"), (includes_app_r _ "/").
    apply includes_app_r. apply (includes_here "//api/address/").
Qed.

(** ** Success and submission *)

Lemma submitted_fetches pre t :
  Forall is_fetch pre -> Exists submitted (pre ++ t)%list <-> Exists submitted t.
Proof.
  intros Hpre. rewrite Exists_app. split; [| auto].
  intros [Hex | Hex]; [| exact Hex]. exfalso.
  apply List.Exists_exists in Hex as [[c o] [Hin Hs]].
  rewrite List.Forall_forall in Hpre. specialize (Hpre _ Hin).
  unfold is_fetch in Hpre. cbn in Hpre. destruct c; contradiction.
Qed.

Ltac never_submitted :=
  let Hex := fresh "Hex" in
  let e := fresh "e" in
  let Hin := fresh "Hin" in
  let Hs := fresh "Hs" in
  intros Hex; exfalso; apply List.Exists_exists in Hex as [e [Hin Hs]];
  cbn [In] in Hin;
  repeat (destruct Hin as [<- | Hin]; [cbn in Hs; solve [contradiction | discriminate] |]);
  exact Hin.

Ltac submission_found :=
  intros _; repeat first [ solve [apply Exists_cons_hd; reflexivity] | apply Exists_cons_tl ].

Ltac report_leaf :=
  first
    [ congruence
    | unfold reports_submission; split;
      [ first [ solve [intros [? [[= <-] Hf]]; discriminate Hf]
              | solve [intros [? [Hr _]]; discriminate Hr]
              | solve [submission_found] ]
      | first [ solve [never_submitted]
              | solve [intros _; eexists; split; reflexivity] ] ] ].

Lemma call_contract_reports_submission lib st contractAddress abi functionName args value feeRate :
  is_Some (st_network st) ->
  always (call_contract lib st contractAddress abi functionName args value feeRate)
    reports_submission.
Proof.
  intros [network Hnetwork]. unfold call_contract. repeat step; expose; report_leaf.
Qed.

Lemma compile_and_deploy_reports_submission lib st sourceCode contractName args feeRate sources :
  is_Some (st_network st) ->
  always (try_catch (compile_and_deploy lib st sourceCode contractName args feeRate sources)
            deploy_failed)
    reports_submission.
Proof.
  intros [network Hnetwork]. unfold compile_and_deploy, deploy_artifact, deploy_failed.
  repeat step; expose; report_leaf.
Qed.

(** X5. On a config with a network, call-contract and
    deploy-contract-source resolve to a result without isError exactly in
    the runs in which the eth_sendBTCTransactions request returned: no
    success is reported without a submission, and nothing that happens
    after the submission (the receipt poll, the verification request)
    turns the result into an error. *)
Theorem success_iff_submitted lib st depth extra tool (w : World) :
  tool_name tool = "call-contract" \/ tool_name tool = "deploy-contract-source" ->
  is_Some (st_network st) ->
  reports_submission (trace w (handle lib st depth extra tool))
    (result w (handle lib st depth extra tool)).
Proof.
  intros Htool Hnetwork. unfold trace, result, run.
  destruct tool; cbn [tool_name] in Htool;
    try (destruct Htool as [Htool | Htool]; discriminate Htool); cbn [handle].
  - exact (always_run _ reports_submission w 0%nat
             (call_contract_reports_submission lib st contractAddress abi functionName args
                value feeRate Hnetwork)).
  - apply (always_run _ reports_submission w 0%nat).
    apply deploy_contract_source_always.
    + intros pre t r Hpre Ht. unfold reports_submission.
      rewrite (submitted_fetches pre t Hpre). exact Ht.
    + intros sources. apply compile_and_deploy_reports_submission, Hnetwork.
    + intros msg. split; [intros [res [[= <-] Hf]]; discriminate Hf | intros Hex; inversion Hex].
    + split; [intros [res [Hr _]]; discriminate Hr | intros Hex; inversion Hex].
Qed.

Lemma success_iff_submitted_witness :
  let tool := CallContract "0xC0" [] "increment" None None None in
  (tool_name tool = "call-contract" \/ tool_name tool = "deploy-contract-source")
  /\ is_Some (st_network example_state)
  /\ reports_submission (trace live_world (handle example_lib example_state 0 None tool))
       (result live_world (handle example_lib example_state 0 None tool)).
Proof.
  cbv zeta. split; [left; reflexivity |]. split; [eexists; reflexivity |].
  apply (success_iff_submitted example_lib example_state 0 None
           (CallContract "0xC0" [] "increment" None None None) live_world).
  - left. reflexivity.
  - eexists; reflexivity.
Defined.

(** ** What the tools never call *)






(** X7. The six analytical tools only read: every call they make is a
    query of the wallet library or of the provider, or a fetch without
    options. They never transfer, sign, finalize, submit, broadcast or ask
    the human. *)
Theorem analytical_tools_only_query lib st depth extra tool (w : World) :
  analytical_tool tool = true ->
  Forall (fun e => queries (ev_call e) = true) (trace w (handle lib st depth extra tool)).
Proof.
  intros Htool. apply (only_trace (fun c => queries c = true)).
  destruct tool; try discriminate Htool; cbn [handle];
    unfold get_wallet_balance, estimate_btc_transfer_fee, decode_psbt,
      validate_bitcoin_address, get_address_transactions, get_blockchain_info;
    only_auto.
Qed.

Lemma analytical_tools_only_query_witness :
  let tool := EstimateBtcTransferFee [mkRecipient "bcrt1qreceiver" 1000] None None in
  analytical_tool tool = true
  /\ Forall (fun e => queries (ev_call e) = true)
       (trace live_world (handle example_lib example_state 0 None tool)).
Proof.
  cbv zeta. split; [reflexivity |].
  apply (analytical_tools_only_query example_lib example_state 0 None
           (EstimateBtcTransferFee [mkRecipient "bcrt1qreceiver" 1000] None None) live_world).
  reflexivity.
Defined.

(** ** The gated tools and their argument *)

Lemma find_account_address lib st address account a :
  find_account lib st address = Returned (Some account) ->
  Js.nonempty address = Some a -> acc_address account = a.
Proof.
  unfold find_account. intros Hfind Ha. rewrite Ha in Hfind.
  injection Hfind as Hfind.
  destruct (st_accounts st) as [accounts |]; [| discriminate].
  apply List.find_some in Hfind as [_ Heq]. apply String.eqb_eq in Heq. exact Heq.
Qed.

Lemma request_psbt_signature_signs_the_given lib st psbt address extra :
  always (request_psbt_signature lib st psbt address extra)
    (fun t _ => signs_the_given lib st psbt address (calls t)).
Proof.
  unfold request_psbt_signature.
  repeat step; expose; unfold signs_the_given; cbn [calls List.map ev_call];
    first [ left; reflexivity
          | right; left; reflexivity
          | right; right; eexists; split; [eassumption |];
            split; [intros ? ?; eapply find_account_address; eassumption | reflexivity] ].
Qed.

Lemma request_transaction_broadcast_broadcasts_the_given st txHex extra :
  always (request_transaction_broadcast st txHex extra)
    (fun t _ => broadcasts_the_given txHex (calls t)).
Proof.
  unfold request_transaction_broadcast, broadcasts_the_given.
  repeat step; expose; cbn [calls List.map ev_call];
    first [ left; reflexivity | right; left; reflexivity | right; right; reflexivity ].
Qed.

(** X8. A run of request-psbt-signature makes no call, or the elicitation
    alone, or the elicitation followed by one signPSBT call: for the PSBT
    it was given, with publish set to false, for input 0 of one account,
    which is the account of the given address when an address is given. A
    run of request-transaction-broadcast makes no call, or the elicitation
    alone, or the elicitation followed by one broadcast of the transaction
    it was given. *)
Theorem gated_tools_act_on_their_argument lib st (w : World) :
  (forall psbt address extra,
      signs_the_given lib st psbt address
        (calls (trace w (request_psbt_signature lib st psbt address extra))))
  /\ (forall txHex extra,
         broadcasts_the_given txHex
           (calls (trace w (request_transaction_broadcast st txHex extra)))).
Proof.
  split.
  - intros psbt address extra.
    exact (always_run _ (fun t _ => signs_the_given lib st psbt address (calls t)) w 0%nat
             (request_psbt_signature_signs_the_given lib st psbt address extra)).
  - intros txHex extra.
    exact (always_run _ (fun t _ => broadcasts_the_given txHex (calls t)) w 0%nat
             (request_transaction_broadcast_broadcasts_the_given st txHex extra)).
Qed.

(** ** Imports that are not fetched *)

Lemma resolve_loop_skips resolve paths sources :
  Forall (fun importPath => Js.startsWith "@openzeppelin/" importPath = false) paths ->
  resolve_loop resolve paths sources = Ret sources.
Proof.
  induction 1 as [| importPath rest Hpath _ IH]; cbn [resolve_loop]; [reflexivity |].
  unfold import_url. rewrite Hpath.
  destruct (negb _ && negb _); exact IH.
Qed.

(** X9. Imports outside of the OpenZeppelin prefix are skipped in silence:
    for a source all of whose imports are such, the import resolution
    makes no call and leaves the sources as they are, and
    deploy-contract-source hands the compiler the one file Contract.sol. *)
Theorem foreign_imports_are_skipped lib st depth sourceCode contractName args feeRate :
  Forall (fun importPath => Js.startsWith "@openzeppelin/" importPath = false)
    (imports_of sourceCode) ->
  (forall sources, resolveImports (S depth) sourceCode sources = Ret sources)
  /\ deploy_contract_source lib st (S depth) sourceCode contractName args feeRate
     = try_catch
         (compile_and_deploy lib st sourceCode contractName args feeRate
            [("Contract.sol", sourceCode)])
         deploy_failed.
Proof.
  intros Hforeign.
  assert (Hresolve : forall sources, resolveImports (S depth) sourceCode sources = Ret sources).
  { intros sources. cbn [resolveImports]. apply resolve_loop_skips, Hforeign. }
  split; [exact Hresolve |].
  unfold deploy_contract_source. rewrite Hresolve. reflexivity.
Qed.

Lemma foreign_imports_are_skipped_witness :
  Forall (fun importPath => Js.startsWith "@openzeppelin/" importPath = false)
    (imports_of relative_source)
  /\ imports_of relative_source = ["./Token.sol"]
  /\ (forall sources, resolveImports 1 relative_source sources = Ret sources)
  /\ deploy_contract_source example_lib example_state 1 relative_source None None None
     = try_catch
         (compile_and_deploy example_lib example_state relative_source None None None
            [("Contract.sol", relative_source)])
         deploy_failed.
Proof.
  assert (Hforeign : Forall (fun importPath => Js.startsWith "@openzeppelin/" importPath = false)
                       (imports_of relative_source)).
  { vm_compute. repeat constructor. }
  split; [exact Hforeign |]. split; [vm_compute; reflexivity |].
  apply (foreign_imports_are_skipped example_lib example_state 0 relative_source None None None).
  exact Hforeign.
Defined.

(** The white space of the import pattern is that of JavaScript: a
    no-break space (U+00A0) or a line separator (U+2028) after the word
    import is matched as a space is, and a byte sequence that is no such
    character (here U+200C) is not. *)
Lemma imports_after_unicode_space :
  imports_of ("import" +:+ String "194"%char (String "160"%char "'@openzeppelin/x.sol';"))
  = ["@openzeppelin/x.sol"]
  /\ imports_of
       ("import "
        +:+ String "226"%char (String "128"%char (String "168"%char "'@openzeppelin/x.sol';")))
     = ["@openzeppelin/x.sol"]
  /\ imports_of
       ("import"
        +:+ String "226"%char (String "128"%char (String "140"%char "'@openzeppelin/x.sol';")))
     = [].
Proof. repeat split; vm_compute; reflexivity. Qed.

(** ** The paths of the import pattern *)

Lemma span_all f s : forall a b, span f s = (a, b) -> all_bytes f a = true.
Proof.
  induction s as [| c s IH]; cbn [span]; intros a b.
  - intros [= <- <-]. reflexivity.
  - destruct (f c) eqn:Hc.
    + destruct (span f s) as [a' b'] eqn:Hs. intros [= <- <-]. cbn.
      rewrite Hc. exact (IH _ _ eq_refl).
    + intros [= <- <-]. reflexivity.
Qed.

Lemma match_import_path s path len :
  match_import s = Some (path, len) ->
  path <> "" /\ all_bytes (fun c => negb (is_quote c)) path = true.
Proof.
  unfold match_import.
  destruct (Js.startsWith "import" s); [| discriminate].
  destruct (span_spaces (Js.drop 6 s)) as [ws s2].
  destruct ws as [| w ws]; [discriminate |].
  destruct s2 as [| q s3]; [discriminate |].
  destruct (is_quote q); [| discriminate].
  destruct (span (fun c => negb (is_quote c)) s3) as [path' s4] eqn:Hspan.
  destruct path' as [| p path']; [discriminate |].
  destruct s4 as [| q' s4]; [discriminate |].
  intros [= <- _]. split; [discriminate |]. exact (span_all _ _ _ _ Hspan).
Qed.

(** X10. Every path that the import pattern captures in a source is
    non-empty and holds no quote character, double or single: the
    emptiness test that the resolver makes on a captured path never
    fires. *)
Theorem import_paths_are_clean content :
  Forall (fun importPath =>
            importPath <> ""
            /\ all_bytes (fun c => negb (is_quote c)) importPath = true)
    (imports_of content).
Proof.
  unfold imports_of. generalize 0%nat as skip.
  induction content as [| c s IH]; intros skip; cbn [import_scan]; [constructor |].
  destruct skip as [| skip]; [| apply IH].
  destruct (match_import (String c s)) as [[path len] |] eqn:Hmatch; [| apply IH].
  constructor; [| apply IH]. exact (match_import_path _ _ _ Hmatch).
Qed.

(** ** The flattened source *)

Lemma flatten_snoc sourceCode sources path content :
  flatten sourceCode (sources ++ [(path, content)])%list =
  if String.eqb path "Contract.sol"
  then flatten sourceCode sources
  else file_header path content +:+ flatten sourceCode sources.
Proof.
  unfold flatten, file_header. rewrite List.fold_left_app. cbn [List.fold_left].
  destruct (String.eqb path "Contract.sol"); cbn [negb]; [reflexivity |].
  rewrite !append_assoc. reflexivity.
Qed.

(** X11. The flattened source that is sent for verification ends with
    the source of the contract itself; every resolved file is put in
    front of what was flattened before it, under a header with its path,
    so that a file resolved later stands before the files resolved
    earlier; the entry Contract.sol adds nothing. Without a resolved
    import the flattened source is the source. *)
Theorem flatten_puts_later_files_first sourceCode sources :
  (exists headers, flatten sourceCode sources = headers +:+ sourceCode)
  /\ (forall path content,
         flatten sourceCode (sources ++ [(path, content)])%list =
         if String.eqb path "Contract.sol"
         then flatten sourceCode sources
         else file_header path content +:+ flatten sourceCode sources)
  /\ flatten sourceCode [("Contract.sol", sourceCode)] = sourceCode.
Proof.
  split; [| split; [apply flatten_snoc | reflexivity]].
  induction sources as [| [path content] sources IH] using rev_ind.
  - exists "". reflexivity.
  - destruct IH as [headers IH]. rewrite flatten_snoc.
    destruct (String.eqb path "Contract.sol"); [exists headers; exact IH |].
    exists (file_header path content +:+ headers). rewrite IH, append_assoc. reflexivity.
Qed.

(** ** Compilation *)

Lemma run_from_try_bind {A B} (p : Prog A) (f : A -> Prog B) h (w : World) a : forall i,
  snd (run_from w i p) = Resolves a ->
  run_from w i (try_catch (bind p f) h) =
  let '(t', r') := run_from w (i + List.length (fst (run_from w i p))) (try_catch (f a) h) in
  ((fst (run_from w i p) ++ t')%list, r').
Proof.
  induction p as [a' | e | | c k IH]; cbn; intros i Hr; try discriminate.
  - injection Hr as ->. rewrite Nat.add_0_r.
    destruct (run_from w i (try_catch (f a) h)); reflexivity.
  - specialize (IH (w i c) (S i)).
    destruct (run_from w (S i) (k (w i c))) as [t r] eqn:Hrun. cbn in *.
    rewrite (IH Hr). rewrite ?Nat.add_succ_r. cbn.
    destruct (run_from w (S (i + List.length t)) (try_catch (f a) h)); reflexivity.
Qed.

(** X12. When the compiler reports an error for the resolved sources,
    deploy-contract-source makes no call beyond the fetches of its import
    resolution and resolves to an error result with the formatted message
    of the first error; warnings in front of it do not count. *)
Theorem compile_error_stops_deployment lib st depth sourceCode contractName args feeRate
    (w : World) sources output e rest :
  result w (resolveImports depth sourceCode [("Contract.sol", sourceCode)]) = Resolves sources ->
  solc_compile lib (compiler_input sources) = Returned output ->
  fatal_errors output = e :: rest ->
  run w (deploy_contract_source lib st depth sourceCode contractName args feeRate)
  = (trace w (resolveImports depth sourceCode [("Contract.sol", sourceCode)]),
     Resolves (failure ("Compilation Error: " +:+ formattedMessage e))).
Proof.
  unfold result, trace, run, deploy_contract_source. intros Hresolve Hcompile Hfatal.
  rewrite (run_from_try_bind _ _ _ w sources 0%nat Hresolve).
  unfold compile_and_deploy. rewrite Hcompile. cbn [lift bind]. rewrite Hfatal. cbn.
  rewrite app_nil_r. reflexivity.
Qed.

Lemma compile_error_stops_deployment_witness :
  let lib := with_compiler example_lib rejecting_compiler in
  let sources := [("Contract.sol", relative_source)] in
  result offline_world (resolveImports 1 relative_source sources) = Resolves sources
  /\ (exists output rest,
         solc_compile lib (compiler_input sources) = Returned output
         /\ fatal_errors output = mkCompileError "error" "ParserError: Expected ';'" :: rest)
  /\ run offline_world (deploy_contract_source lib example_state 1 relative_source None None None)
     = ([], Resolves (failure "Compilation Error: ParserError: Expected ';'")).
Proof.
  cbv zeta. split; [vm_compute; reflexivity |].
  split; [eexists _, _; split; vm_compute; reflexivity |].
  apply (compile_error_stops_deployment (with_compiler example_lib rejecting_compiler)
           example_state 1 relative_source None None None offline_world
           [("Contract.sol", relative_source)]
           (mkCompilerOutput
              (Some [mkCompileError "warning" "Warning: SPDX license identifier not provided";
                     mkCompileError "error" "ParserError: Expected ';'"])
              None)
           (mkCompileError "error" "ParserError: Expected ';'") []);
    vm_compute; reflexivity.
Defined.

(** X13. The artifact that deploy-contract-source deploys for a contract
    name is that of the first file of the compiler output that defines the
    name. A name that every object inherits (constructor, toString, ...) and
    that the first file does not define is taken for found, without an
    artifact. Otherwise the name is missing: no file defines it. *)
Theorem find_artifact_first_file key contracts :
  artifact_lookup key contracts (find_artifact key contracts).
Proof.
  induction contracts as [| [fileName fileContracts] rest IH]; cbn [find_artifact].
  - left. reflexivity.
  - unfold lookup_contract.
    destruct (Js.assoc key fileContracts) as [artifact |] eqn:Hassoc.
    + exists [], fileName, fileContracts, rest. repeat split; auto. constructor.
    + destruct (is_proto_name key) eqn:Hproto.
      * split; [exact Hproto |]. eexists _, _, _. split; [reflexivity | exact Hassoc].
      * destruct (find_artifact key rest) as [artifact | |]; cbn [artifact_lookup] in *.
        -- destruct IH as [before [fileName' [fileContracts' [after [-> [Ha [Hbefore _]]]]]]].
           exists ((fileName, fileContracts) :: before), fileName', fileContracts', after.
           repeat split; auto. constructor; [exact Hassoc | exact Hbefore].
        -- destruct IH as [Hp _]. congruence.
        -- right. split; [exact Hproto |]. constructor; [exact Hassoc |].
           destruct IH as [-> | [_ Hrest]]; [constructor | exact Hrest].
Qed.

(** ** The calls of verify-contract *)

(** X14. On a config with a network, the trace of verify-contract is the
    fetches of its import resolution followed by at most one verification
    request, and nothing else. Each fetch of the resolution is a fetch
    without options of the URL string that import_url makes of an import
    path (the fixed raw prefix followed by the path without its leading
    @openzeppelin/), for a path that the source or a file delivered before
    names. The verification request is a POST for the given contract
    address to the Blockscout instance that the network id selects. The
    tool never calls the wallet library or the EVM endpoint. *)
Theorem verify_contract_only_fetches lib st depth network contractAddress sourceCode
    contractName compilerVersion optimizationEnabled optimizationRuns constructorArgs
    licenseType (w : World) :
  st_network st = Some network ->
  verifies network contractAddress sourceCode
    (trace w (verify_contract lib st depth contractAddress sourceCode contractName
                compilerVersion optimizationEnabled optimizationRuns constructorArgs
                licenseType)).
Proof.
  intros Hnetwork. unfold trace, run.
  apply (always_run _ (fun t _ => verifies network contractAddress sourceCode t) w 0%nat).
  unfold verify_contract, the_network. rewrite Hnetwork. cbn [bind].
  apply always_try_bind. eapply always_mono; [| apply resolveImports_resolution].
  cbn beta. intros imports [sources | e |] [Hfollows _].
  - eapply (always_mono _ (fun rest _ => posts_verification network contractAddress rest)).
    { intros rest _ Hrest. exists imports, rest. auto. }
    repeat step; expose; unfold posts_verification;
      first [left; reflexivity | right; eexists _, _; reflexivity].
  - cbn. exists imports, []. split; [reflexivity |]. split; [exact Hfollows | left; reflexivity].
  - exists imports, []. split; [symmetry; apply app_nil_r |].
    split; [exact Hfollows | left; reflexivity].
Qed.

Lemma verify_contract_only_fetches_witness :
  let network := mkNetwork "regtest" "regtest" (Some "https://mempool.regtest.midl.xyz/tx/") in
  let source := "import '@openzeppelin/contracts/access/Ownable.sol'; contract Vault is Ownable {}" in
  let t := trace library_world
             (verify_contract example_lib example_state 2 "0xC0" source "Vault"
                None None None None None) in
  st_network example_state = Some network
  /\ List.map (fun c => match c with
                        | fetch url init => (url, fi_method <$> init)
                        | _ => ("", None)
                        end) (calls t)
     = [(openzeppelin_raw +:+ "contracts/access/Ownable.sol", None);
        ("https://blockscout.regtest.midl.xyz/api/v2/smart-contracts/0xC0/verification/via/flattened-code",
         Some "POST")]
  /\ verifies network "0xC0" source t.
Proof.
  cbv zeta. split; [reflexivity |]. split; [vm_compute; reflexivity |].
  apply (verify_contract_only_fetches example_lib example_state 2
           (mkNetwork "regtest" "regtest" (Some "https://mempool.regtest.midl.xyz/tx/"))
           "0xC0"
           "import '@openzeppelin/contracts/access/Ownable.sol'; contract Vault is Ownable {}"
           "Vault" None None None None None library_world).
  reflexivity.
Defined.

(** ** A network without an explorer URL *)

Ltac says_leaf :=
  try match goal with
      | H : st_network _ = Some _ |- _ => cbn in H; injection H as <-
      end;
  first
    [ congruence
    | unfold success_says; intros ? [= <-] Hf;
      first [ discriminate Hf
            | match goal with
              | txId : resp (broadcastTransaction _) |- _ => exists txId; reflexivity
              end ]
    | unfold success_says; intros ? Hr; discriminate Hr ].

Lemma request_transaction_broadcast_says conn id name accounts txHex extra :
  always (request_transaction_broadcast
            (mkState conn (Some (mkNetwork id name None)) accounts) txHex extra)
    (fun _ r => success_says (gated_broadcast_text "undefined") r).
Proof.
  unfold request_transaction_broadcast. repeat step; expose; says_leaf.
Qed.

Lemma broadcast_transaction_says conn id name accounts txHex :
  always (broadcast_transaction (mkState conn (Some (mkNetwork id name None)) accounts) txHex)
    (fun _ r => success_says (broadcast_text "") r).
Proof.
  unfold broadcast_transaction. repeat step; expose; says_leaf.
Qed.

(** X15. On a network without an explorer URL (as that of the demo mode)
    a successful request-transaction-broadcast prints the word undefined in
    front of the transaction id in its explorer line, whereas a successful
    broadcast-transaction prints the bare transaction id there. *)
Theorem missing_explorer_url st network txHex extra (w : World) :
  st_network st = Some network -> net_explorerUrl network = None ->
  success_says (gated_broadcast_text "undefined")
    (result w (request_transaction_broadcast st txHex extra))
  /\ success_says (broadcast_text "") (result w (broadcast_transaction st txHex)).
Proof.
  destruct st as [conn net accounts], network as [id name explorer]. cbn.
  intros -> ->. unfold result, run. split.
  - exact (always_run _ (fun _ r => success_says (gated_broadcast_text "undefined") r) w 0%nat
             (request_transaction_broadcast_says conn id name accounts txHex extra)).
  - exact (always_run _ (fun _ r => success_says (broadcast_text "") r) w 0%nat
             (broadcast_transaction_says conn id name accounts txHex)).
Qed.

Lemma missing_explorer_url_witness :
  let w := answering_world (Js.Object [("confirm", Js.Bool true)]) in
  let extra := Some (mkExtra true) in
  st_network bare_state = Some (mkNetwork "testnet" "testnet" None)
  /\ net_explorerUrl (mkNetwork "testnet" "testnet" None) = None
  /\ result w (request_transaction_broadcast bare_state "0200beef" extra)
     = Resolves (ok (gated_broadcast_text "undefined" "txid01"))
  /\ success_says (gated_broadcast_text "undefined")
       (result w (request_transaction_broadcast bare_state "0200beef" extra))
  /\ success_says (broadcast_text "") (result w (broadcast_transaction bare_state "0200beef")).
Proof.
  cbv zeta. split; [reflexivity |]. split; [reflexivity |]. split; [reflexivity |].
  apply (missing_explorer_url bare_state (mkNetwork "testnet" "testnet" None) "0200beef"
           (Some (mkExtra true)) (answering_world (Js.Object [("confirm", Js.Bool true)])));
    reflexivity.
Defined.

(** ** The listing of get-address-transactions *)

Lemma slice0_prefix {A} limit (l : list A) : exists rest, l = (slice0 limit l ++ rest)%list.
Proof.
  unfold slice0. destruct (0 <=? limit)%Z; eexists; symmetry; apply List.firstn_skipn.
Qed.

Lemma slice0_length {A} limit (l : list A) :
  List.length (slice0 limit l) = listed limit (List.length l).
Proof.
  unfold slice0, listed. destruct (0 <=? limit)%Z eqn:Hlimit; rewrite List.length_firstn.
  - reflexivity.
  - apply Z.leb_gt in Hlimit. lia.
Qed.

(** X16. get-address-transactions makes one call whatever network is
    configured: a fetch of the address history from MIDL_RPC_URL or, when
    that is unset, from the regtest mempool. Of the transactions of an ok
    response it lists the first ones, in their order: at most limit of
    them for a limit of zero or more, all but the last -limit for a
    negative limit. *)
Theorem address_history_listing lib st address limit (w : World) res all :
  w 0%nat (fetch (history_url lib address) None) = Returned res ->
  res_ok res = true ->
  res_json res = Returned (JsonTxs all) ->
  calls (trace w (get_address_transactions lib st address limit))
  = [fetch (history_url lib address) None]
  /\ exists txs rest,
       result w (get_address_transactions lib st address limit)
       = Resolves (ok (history_text lib address txs))
       /\ all = (txs ++ rest)%list
       /\ List.length txs = listed limit (List.length all).
Proof.
  intros Hfetch Hok Hjson.
  unfold calls, trace, result, run, get_address_transactions.
  fold (history_url lib address). cbn. rewrite Hfetch. cbn. rewrite Hok. cbn.
  rewrite Hjson. cbn. split; [reflexivity |].
  destruct (slice0_prefix limit all) as [rest Hrest].
  exists (slice0 limit all), rest. split; [reflexivity |]. split; [exact Hrest |].
  apply slice0_length.
Qed.

Lemma address_history_listing_witness :
  let res := mkResponse true "OK" (Thrown (mkError "body used already"))
               (Returned (JsonTxs example_history)) in
  history_world 0%nat (fetch (history_url example_lib "bcrt1qsender") None) = Returned res
  /\ res_ok res = true
  /\ res_json res = Returned (JsonTxs example_history)
  /\ listed 2 (List.length example_history) = 2%nat
  /\ calls (trace history_world (get_address_transactions example_lib example_state "bcrt1qsender" 2))
     = [fetch (history_url example_lib "bcrt1qsender") None]
  /\ exists txs rest,
       result history_world (get_address_transactions example_lib example_state "bcrt1qsender" 2)
       = Resolves (ok (history_text example_lib "bcrt1qsender" txs))
       /\ example_history = (txs ++ rest)%list
       /\ List.length txs = listed 2 (List.length example_history).
Proof.
  cbv zeta. split; [reflexivity |]. split; [reflexivity |]. split; [reflexivity |].
  split; [reflexivity |].
  apply (address_history_listing example_lib example_state "bcrt1qsender" 2 history_world
           (mkResponse true "OK" (Thrown (mkError "body used already"))
              (Returned (JsonTxs example_history)))
           example_history); reflexivity.
Defined.

(** ** The handlers that always resolve *)

(** X17. On a server that started, no tool but estimate-btc-transfer-fee
    rejects, get-wallet-balance only when it is given no address and the
    default account cannot be read: what a collaborator throws comes back
    as a result of the handler. validate-bitcoin-address, whose handler
    reads the network outside of its try, is safe there because the wrapper
    has checked that the config has a network. *)
Theorem started_server_tools_resolve config server lib depth extra tool (w : World) :
  start config = Returned server ->
  resolves_always lib config tool ->
  forall e, result w (call_tool lib server depth extra tool) <> Rejects e.
Proof.
  intros Hstart Htool.
  destruct (start_config _ _ Hstart) as [Hconfig Hvalid].
  apply validateConfig_ok in Hvalid as [_ [network [Hnetwork _]]].
  unfold call_tool. rewrite Hconfig.
  destruct tool; try contradiction;
    try (apply wrapped_tools_never_reject; exact I).
  - cbn [handle resolves_always] in *. unfold result, run, get_wallet_balance.
    destruct (Js.nonempty address) as [a |] eqn:Haddress.
    + cbn. destruct (String.eqb a ""); cbn; [discriminate |].
      destruct (w 0%nat (getBalance a)); cbn; discriminate.
    + destruct Htool as [Htool | [account Haccount]]; [contradiction |].
      rewrite Haccount. cbn.
      destruct (Js.nonempty (acc_address <$> account)) as [a |]; cbn; [| discriminate].
      destruct (w 0%nat (getBalance a)); cbn; discriminate.
  - cbn [handle]. unfold result, run, validate_bitcoin_address, the_network.
    rewrite Hnetwork. cbn. discriminate.
Qed.

Lemma started_server_tools_resolve_witness :
  exists server,
    start example_state = Returned server
    /\ resolves_always example_lib example_state (ValidateBitcoinAddress "bcrt1qsender")
    /\ forall e, result offline_world
                   (call_tool example_lib server 0 None (ValidateBitcoinAddress "bcrt1qsender"))
                 <> Rejects e.
Proof.
  exists (mkServer (mkWrapper example_state)).
  split; [reflexivity |]. split; [exact I |].
  apply (started_server_tools_resolve example_state (mkServer (mkWrapper example_state))
           example_lib 0 None (ValidateBitcoinAddress "bcrt1qsender") offline_world);
    [reflexivity | exact I].
Defined.

(** ** Arguments that count as absent *)

(** X18. A fee rate of 0 counts as no fee rate in estimate-btc-transfer-fee,
    prepare-contract-deploy, call-contract and deploy-contract-source, a
    value of 0 as no value in call-contract, and an empty address as no
    address in get-wallet-balance, estimate-btc-transfer-fee and
    request-psbt-signature: the handler runs as if the argument had been
    left out. prepare-btc-transfer alone hands a fee rate of 0 and an empty
    source address on to transferBTC. *)
Theorem falsy_arguments_count_as_absent lib st depth extra :
  (forall recipients from,
      handle lib st depth extra (EstimateBtcTransferFee recipients (Some 0) from)
      = handle lib st depth extra (EstimateBtcTransferFee recipients None from))
  /\ (forall bytecode args abi,
         handle lib st depth extra (PrepareContractDeploy bytecode args abi (Some 0))
         = handle lib st depth extra (PrepareContractDeploy bytecode args abi None))
  /\ (forall contractAddress abi functionName args,
         handle lib st depth extra
           (CallContract contractAddress abi functionName args (Some 0) (Some 0))
         = handle lib st depth extra
             (CallContract contractAddress abi functionName args None None))
  /\ (forall sourceCode contractName args,
         handle lib st depth extra (DeployContractSource sourceCode contractName args (Some 0))
         = handle lib st depth extra (DeployContractSource sourceCode contractName args None))
  /\ handle lib st depth extra (GetWalletBalance (Some ""))
     = handle lib st depth extra (GetWalletBalance None)
  /\ (forall recipients feeRate,
         handle lib st depth extra (EstimateBtcTransferFee recipients feeRate (Some ""))
         = handle lib st depth extra (EstimateBtcTransferFee recipients feeRate None))
  /\ (forall psbt,
         handle lib st depth extra (RequestPsbtSignature psbt (Some ""))
         = handle lib st depth extra (RequestPsbtSignature psbt None))
  /\ (forall recipients (w : World),
         calls (trace w (handle lib st depth extra (PrepareBtcTransfer recipients (Some 0) (Some ""))))
         = [transferBTC
              (mkTransferParams
                 (List.map (fun r => mkTransfer (rcp_address r) (rcp_amount r)) recipients)
                 (Some 0) (Some "") false)]).
Proof.
  repeat split; try reflexivity.
  intros recipients w. unfold calls, trace, run. cbn.
  destruct (w 0%nat _) as [response | e]; cbn; [destruct (btc_tx response) |]; reflexivity.
Qed.

(** ** Fetches that fail *)

Lemma resolution_follows_ret sources : resolution_follows_fetches sources [] (Resolves sources).
Proof.
  split; [intros err Hex; inversion Hex | intros _ sources' [= <-]; reflexivity].
Qed.

Lemma resolution_follows_skip sources url res t r :
  res_ok res = false ->
  resolution_follows_fetches sources t r ->
  resolution_follows_fetches sources (Ev (fetch url None) (Returned res) :: t) r.
Proof.
  intros Hok [Hthrew Hserved]. split.
  - intros err Hex. inversion Hex as [? ? Hhere | ? ? Hlater]; subst; [contradiction | auto].
  - intros Hnone. inversion Hnone; subst. auto.
Qed.

Lemma resolve_loop_follows_fetches resolve paths :
  (forall content sources, always (resolve content sources) (resolution_follows_fetches sources)) ->
  forall sources, always (resolve_loop resolve paths sources) (resolution_follows_fetches sources).
Proof.
  intros Hresolve.
  induction paths as [| importPath rest IH]; intros sources; cbn [resolve_loop].
  - apply resolution_follows_ret.
  - destruct (negb _ && negb _); [| apply IH].
    destruct (import_url importPath) as [url |]; [| apply IH].
    cbn [bind await]. intros [res | e].
    + cbn [bind]. destruct (res_ok res) eqn:Hok.
      * (* a served file: the run holds a served fetch *)
        assert (Hserved : forall t (r : Completion Sources),
                   (forall err, Exists (import_fetch_threw err) t -> r = Rejects err) ->
                   resolution_follows_fetches sources (Ev (fetch url None) (Returned res) :: t) r).
        { intros t r Hthrew. split.
          - intros err Hex.
            inversion Hex as [? ? Hhere | ? ? Hlater]; subst; [contradiction | auto].
          - intros Hnone. inversion Hnone as [| ? ? Hhere _]; subst.
            exfalso. apply Hhere. exact Hok. }
        destruct (res_text res) as [importedSource | e]; cbn [lift bind].
        -- apply always_bind. eapply always_mono; [| apply Hresolve].
           cbn beta. intros t [s | e |] [Hthrew _].
           ++ eapply always_mono; [| apply IH]. cbn beta. intros t' r' [Hthrew' _].
              apply Hserved. intros err Hex.
              apply Exists_app in Hex as [Hex | Hex]; [| auto].
              specialize (Hthrew err Hex). discriminate Hthrew.
           ++ apply Hserved. exact Hthrew.
           ++ apply Hserved. exact Hthrew.
        -- apply Hserved. intros err Hex. inversion Hex.
      * eapply always_mono; [| apply IH]. cbn beta. intros t r.
        apply resolution_follows_skip, Hok.
    + cbn. split.
      * intros err Hex. inversion Hex as [? ? Hhere | ? ? Hlater]; subst.
        -- cbn in Hhere. congruence.
        -- inversion Hlater.
      * intros _ sources' Hr. discriminate Hr.
Qed.

Lemma resolveImports_follows_fetches depth :
  forall content sources,
    always (resolveImports depth content sources) (resolution_follows_fetches sources).
Proof.
  induction depth as [| depth IH]; intros content sources; cbn [resolveImports].
  - split; [intros err Hex; inversion Hex | intros _ sources' Hr; discriminate Hr].
  - apply resolve_loop_follows_fetches. exact IH.
Qed.

(** X19. An import that the remote does not serve is skipped in silence:
    a resolution in which no fetch came back with an ok response leaves
    the sources as they were, so that the compiler gets the source without
    the imported files. *)
Theorem unserved_imports_are_skipped depth content sources (w : World) sources' :
  Forall (fun e => ~ import_fetch_served e) (trace w (resolveImports depth content sources)) ->
  result w (resolveImports depth content sources) = Resolves sources' ->
  sources' = sources.
Proof.
  intros Hnone Hr.
  destruct (always_run _ _ w 0%nat (resolveImports_follows_fetches depth content sources))
    as [_ Hserved].
  exact (Hserved Hnone sources' Hr).
Qed.

Lemma unserved_imports_are_skipped_witness :
  let sources := [("Contract.sol", ownable_source)] in
  calls (trace not_found_world (resolveImports 1 ownable_source sources))
  = [fetch (openzeppelin_raw +:+ "contracts/access/Ownable.sol") None]
  /\ Forall (fun e => ~ import_fetch_served e)
       (trace not_found_world (resolveImports 1 ownable_source sources))
  /\ result not_found_world (resolveImports 1 ownable_source sources) = Resolves sources
  /\ sources = sources.
Proof.
  cbv zeta. split; [vm_compute; reflexivity |].
  assert (Hnone : Forall (fun e => ~ import_fetch_served e)
                    (trace not_found_world
                       (resolveImports 1 ownable_source [("Contract.sol", ownable_source)]))).
  { vm_compute. repeat constructor. discriminate. }
  assert (Hr : result not_found_world
                 (resolveImports 1 ownable_source [("Contract.sol", ownable_source)])
               = Resolves [("Contract.sol", ownable_source)]).
  { vm_compute. reflexivity. }
  split; [exact Hnone |]. split; [exact Hr |].
  exact (unserved_imports_are_skipped 1 ownable_source [("Contract.sol", ownable_source)]
           not_found_world [("Contract.sol", ownable_source)] Hnone Hr).
Defined.

Lemma compile_and_deploy_posts lib st sourceCode contractName args feeRate sources :
  only (fun c => match c with fetch _ None => false | _ => true end = true)
    (try_catch (compile_and_deploy lib st sourceCode contractName args feeRate sources)
       deploy_failed).
Proof. only_auto. Qed.

(** X20. A fetch of an import that throws (the remote cannot be reached)
    ends deploy-contract-source at once: the run holds fetches only, nothing
    is compiled, finalized, signed or submitted, and the handler resolves to
    an error result with the message of the failure. *)
Theorem failed_import_fetch_aborts_deployment lib st depth sourceCode contractName args feeRate
    (w : World) err :
  Exists (import_fetch_threw err)
    (trace w (deploy_contract_source lib st depth sourceCode contractName args feeRate)) ->
  Forall is_fetch (trace w (deploy_contract_source lib st depth sourceCode contractName args feeRate))
  /\ result w (deploy_contract_source lib st depth sourceCode contractName args feeRate)
     = Resolves (failure ("Error in deploy-contract-source: " +:+ message err)).
Proof.
  revert err. change (import_failure_aborts
                        (trace w (deploy_contract_source lib st depth sourceCode contractName
                                    args feeRate))
                        (result w (deploy_contract_source lib st depth sourceCode contractName
                                     args feeRate))).
  unfold trace, result, run. apply (always_run _ import_failure_aborts w 0%nat).
  unfold deploy_contract_source. apply always_try_bind.
  eapply always_mono;
    [| apply always_and;
       [ apply (only_resolveImports is_fetch_call depth); intros; exact I
       | apply resolveImports_follows_fetches ] ].
  cbn beta. intros pre [sources | e |] [Hfetch [Hthrew _]].
  - eapply always_mono; [| apply compile_and_deploy_posts]. cbn beta.
    intros t r Hposts err Hex. exfalso.
    apply Exists_app in Hex as [Hex | Hex].
    + specialize (Hthrew err Hex). discriminate Hthrew.
    + apply List.Exists_exists in Hex as [[c o] [Hin Hc]].
      rewrite List.Forall_forall in Hposts. specialize (Hposts _ Hin).
      cbn in Hposts. destruct c; try contradiction.
      destruct init; [contradiction | discriminate Hposts].
  - cbn. intros err Hex. rewrite app_nil_r in *. split; [exact Hfetch |].
    specialize (Hthrew err Hex). injection Hthrew as ->. reflexivity.
  - intros err Hex. specialize (Hthrew err Hex). discriminate Hthrew.
Qed.

Lemma failed_import_fetch_aborts_deployment_witness :
  let p := deploy_contract_source example_lib example_state 1 ownable_source None None None in
  Exists (import_fetch_threw (mkError "fetch failed")) (trace offline_world p)
  /\ Forall is_fetch (trace offline_world p)
  /\ result offline_world p
     = Resolves (failure "Error in deploy-contract-source: fetch failed").
Proof.
  cbv zeta.
  assert (Hex : Exists (import_fetch_threw (mkError "fetch failed"))
                  (trace offline_world
                     (deploy_contract_source example_lib example_state 1 ownable_source
                        None None None))).
  { vm_compute. apply Exists_cons_hd. reflexivity. }
  split; [exact Hex |].
  exact (failed_import_fetch_aborts_deployment example_lib example_state 1 ownable_source
           None None None offline_world (mkError "fetch failed") Hex).
Defined.

(** ** The default target *)

(** X21. Leaving out the contract name of deploy-contract-source is the
    same as naming the last contract of the first file of the compiler
    output: with that output, both calls run the same steps after the
    import resolution. *)
Theorem default_target_is_last_of_first_file lib st sourceCode args feeRate sources
    output fileName fileContracts rest name :
  solc_compile lib (compiler_input sources) = Returned output ->
  out_contracts output = Some ((fileName, fileContracts) :: rest) ->
  last (List.map fst fileContracts) = Some name ->
  name <> "" ->
  compile_and_deploy lib st sourceCode None args feeRate sources
  = compile_and_deploy lib st sourceCode (Some name) args feeRate sources.
Proof.
  intros Hcompile Hcontracts Hlast Hname. apply String.eqb_neq in Hname.
  unfold compile_and_deploy. rewrite Hcompile. cbn [lift bind].
  destruct (fatal_errors output); [| reflexivity].
  cbn [Js.nonempty]. rewrite Hname.
  unfold default_target, contracts_values. rewrite Hcontracts. cbn [bind List.map snd].
  assert (Htarget : List.last (List.map (fun c => Some (fst c)) fileContracts) None = Some name).
  { clear - Hlast. apply last_Some in Hlast as [init Hinit].
    assert (Hmap : List.map (fun c : string * Artifact => Some (fst c)) fileContracts
                   = List.map Some (List.map fst fileContracts)).
    { rewrite List.map_map. reflexivity. }
    rewrite Hmap, Hinit, List.map_app. cbn [List.map]. apply List.last_last. }
  rewrite Htarget. unfold not_found_text. cbn [Js.nonempty]. rewrite Hname. reflexivity.
Qed.

Lemma default_target_is_last_of_first_file_witness :
  let sources := [("Contract.sol", "contract Counter {}")] in
  let output := mkCompilerOutput None
                  (Some [("Contract.sol", [("Counter", mkArtifact [] "6080")])]) in
  solc_compile example_lib (compiler_input sources) = Returned output
  /\ out_contracts output = Some [("Contract.sol", [("Counter", mkArtifact [] "6080")])]
  /\ last (List.map fst [("Counter", mkArtifact [] "6080")]) = Some "Counter"
  /\ "Counter" <> ""
  /\ compile_and_deploy example_lib example_state "contract Counter {}" None None None sources
     = compile_and_deploy example_lib example_state "contract Counter {}" (Some "Counter")
         None None sources.
Proof.
  cbv zeta. split; [reflexivity |]. split; [reflexivity |]. split; [reflexivity |].
  split; [discriminate |].
  apply (default_target_is_last_of_first_file example_lib example_state "contract Counter {}"
           None None [("Contract.sol", "contract Counter {}")]
           (mkCompilerOutput None (Some [("Contract.sol", [("Counter", mkArtifact [] "6080")])]))
           "Contract.sol" [("Counter", mkArtifact [] "6080")] [] "Counter");
    [reflexivity | reflexivity | reflexivity | discriminate].
Defined.

(** ** Constructor arguments without an ABI *)

(** X22. prepare-contract-deploy refuses constructor arguments that come
    without an ABI before it makes any call: for a non-empty list of
    arguments and no ABI it resolves, on a network with an EVM chain, to
    the error result that asks for the ABI. An empty list of arguments
    counts as no arguments: the handler runs as if they had been left
    out. *)
Theorem arguments_need_an_abi lib st bytecode feeRate evmChain :
  getEVMFromBitcoinNetwork lib (st_network st) = Returned evmChain ->
  (forall arg args (w : World),
      run w (prepare_contract_deploy lib st bytecode (Some (arg :: args)) None feeRate)
      = ([], Resolves (failure ("Error preparing contract deployment: "
                                +:+ "ABI is required when constructor arguments are provided."))))
  /\ (forall abi,
         prepare_contract_deploy lib st bytecode (Some []) abi feeRate
         = prepare_contract_deploy lib st bytecode None abi feeRate).
Proof.
  intros Hchain. split.
  - intros arg args w. unfold run, prepare_contract_deploy. rewrite Hchain. reflexivity.
  - intros abi. reflexivity.
Qed.

Lemma arguments_need_an_abi_witness :
  getEVMFromBitcoinNetwork example_lib (st_network example_state) = Returned (mkChain 777)
  /\ run live_world
       (prepare_contract_deploy example_lib example_state "6080" (Some [Js.Number 1]) None None)
     = ([], Resolves (failure ("Error preparing contract deployment: "
                               +:+ "ABI is required when constructor arguments are provided."))).
Proof.
  split; [reflexivity |].
  apply (proj1 (arguments_need_an_abi example_lib example_state "6080" None (mkChain 777)
                  eq_refl)).
Defined.

